(** * Augmented, randomized diamond-square: a shallow embedding of [aug_ds.py]

    The heightmap generator of [aug_ds.py] mutates one two-dimensional list
    ([world_map]) and the process-wide generator of Python's [random] module.
    Both are threaded explicitly through a state-and-exception monad: a
    computation maps a [state] to an [outcome] and the state it leaves
    behind, so that a run that raises still shows what it did to the grid.

    Conventions of the embedding:
    - Python integers are [Z]; list indexing follows Python, negative
      indices included ([l[-1]] is the last element), and an index out of
      range raises [IndexError].
    - The program is embedded with exact rationals ([Q]) where Python
      computes with floats, the constant 0.2 being one fifth, and
      [int(...)] truncates toward zero.  What the float expressions of the
      program yield in binary64, [OverflowError] included, is defined
      beside it, and the two are proved equal for the means, the
      deviations and the interpolated heights as long as heights, spans
      and indices stay within stated bounds.  A statement about a value
      that goes through a float carries those bounds, or is about a grid
      small enough to imply them; of the randomized index only bounds
      are stated, for both arithmetics.
    - [str] is defined on every integer; Python converts integers of at
      most 4300 decimal digits.
    - [world_map] is a list of distinct row objects (no two rows alias).
    - The generator is a sequence of raw words, one per call of the
      [random] API.  [randint a b] and [random()] reduce the word into their
      range, so that every outcome sequence of a real generator is the
      image of some raw sequence.  How a seed determines the sequence is a
      parameter ([seed_source]) of the entry point.
    - The recursion of [auxRandAugDS] is structural on a fuel argument;
      running out of fuel is an outcome of its own, distinct from every
      Python exception, and is shown never to happen with enough fuel.
    - [printWorld] reads its argument only; what it prints is a sequence
      of characters returned beside its outcome. *)

From Stdlib Require Import Ascii String DecimalString.
From Stdlib Require Import ZArith QArith Lia Lqa List Bool.
From Stdlib Require Import Qround Qpower Qabs.
From stdpp Require Import base list.
Import ListNotations.
Local Open Scope Z_scope.

(** ** Outcomes, state and the monad *)

Inductive exn : Type :=
  | IndexError
  | ValueError
  | ZeroDivisionError
  | OverflowError.

Inductive outcome (A : Type) : Type :=
  | Ret (a : A)
  | Raise (e : exn)
  | OutOfFuel.
Arguments Ret {A} a.
Arguments Raise {A} e.
Arguments OutOfFuel {A}.

(** The generator: an unbounded sequence of raw words and a read position. *)
Record RandomSource : Type := mkSource {
  entropy : nat -> Z;
  cursor : nat
}.

Record state : Type := mkState {
  world_map : list (list Z);
  random_state : RandomSource
}.

Definition M (A : Type) : Type := state -> outcome A * state.

Definition ret {A} (a : A) : M A := fun st => (Ret a, st).

Definition raise {A} (e : exn) : M A := fun st => (Raise e, st).

Definition out_of_fuel {A} : M A := fun st => (OutOfFuel, st).

Definition bind {A B} (m : M A) (k : A -> M B) : M B :=
  fun st =>
    match m st with
    | (Ret a, st') => k a st'
    | (Raise e, st') => (Raise e, st')
    | (OutOfFuel, st') => (OutOfFuel, st')
    end.

Notation "x <- m ;; k" := (bind m (fun x => k))
  (at level 100, m at next level, right associativity).
Notation "m ;; k" := (bind m (fun _ => k))
  (at level 100, right associativity).

(** [for x in xs: body x] *)
Fixpoint for_ {A} (xs : list A) (body : A -> M unit) : M unit :=
  match xs with
  | [] => ret tt
  | x :: xs' => body x ;; for_ xs' body
  end.

(** [range(a, b)] *)
Definition range (a b : Z) : list Z := seqZ a (b - a).

(** ** Python lists *)

(** Position that index [k] denotes in a list of length [n], if any. *)
Definition py_index (n : nat) (k : Z) : option nat :=
  if 0 <=? k then
    if k <? Z.of_nat n then Some (Z.to_nat k) else None
  else
    if - Z.of_nat n <=? k then Some (Z.to_nat (Z.of_nat n + k)) else None.

(** [l[k]] *)
Definition py_get {A} (l : list A) (k : Z) : option A :=
  match py_index (length l) k with
  | Some p => l !! p
  | None => None
  end.

(** [l[k] = v] *)
Definition py_set {A} (l : list A) (k : Z) (v : A) : option (list A) :=
  match py_index (length l) k with
  | Some p => Some (<[p := v]> l)
  | None => None
  end.

(** [len(world_map)] *)
Definition len_world : M Z :=
  fun st => (Ret (Z.of_nat (length (world_map st))), st).

(** [len(world_map[x])] *)
Definition len_row (x : Z) : M Z :=
  fun st =>
    match py_get (world_map st) x with
    | Some row => (Ret (Z.of_nat (length row)), st)
    | None => (Raise IndexError, st)
    end.

(** [g[x][y]] on a grid value. *)
Definition grid_get (g : list (list Z)) (x y : Z) : option Z :=
  match py_get g x with
  | Some row => py_get row y
  | None => None
  end.

(** The grid after [g[x][y] = v]: the row found at [x] is updated at [y]. *)
Definition grid_set (g : list (list Z)) (x y v : Z) : option (list (list Z)) :=
  match py_get g x with
  | Some row =>
      match py_set row y v with
      | Some row' => py_set g x row'
      | None => None
      end
  | None => None
  end.

(** [world_map[x][y]] *)
Definition getitem (x y : Z) : M Z :=
  fun st =>
    match grid_get (world_map st) x y with
    | Some v => (Ret v, st)
    | None => (Raise IndexError, st)
    end.

(** [world_map[x][y] = v] *)
Definition setitem (x y v : Z) : M unit :=
  fun st =>
    match grid_set (world_map st) x y v with
    | Some g' => (Ret tt, mkState g' (random_state st))
    | None => (Raise IndexError, st)
    end.

(** ** Numbers *)

(** [int(q)]: truncation toward zero. *)
Definition py_int (q : Q) : Z := Z.quot (Qnum q) (Z.pos (Qden q)).

(** [n / d] on integers: true division, exact.  The float that Python
    forms of it is [int_truediv n d] below. *)
Definition truediv (n d : Z) : M Q :=
  if d =? 0 then raise ZeroDivisionError
  else ret (inject_Z n / inject_Z d)%Q.

(** ** The [random] module *)

Definition next_word (s : RandomSource) : Z * RandomSource :=
  (entropy s (cursor s), mkSource (entropy s) (S (cursor s))).

(** [random.randint(a, b)]: an integer of [a..b]; an empty range raises. *)
Definition randint (a b : Z) : M Z :=
  fun st =>
    if b <? a then (Raise ValueError, st)
    else
      let (w, s') := next_word (random_state st) in
      (Ret (a + w mod (b - a + 1)), mkState (world_map st) s').

(** Resolution of [random.random()]: multiples of 2^-53. *)
Definition float_resolution : positive := 9007199254740992.

(** [random.random()]: a float of [0, 1). *)
Definition random : M Q :=
  fun st =>
    let (w, s') := next_word (random_state st) in
    (Ret (w mod Z.pos float_resolution # float_resolution),
     mkState (world_map st) s').

(** ** The program *)

Definition HEIGHT_VARIATION_FACTOR : Q := 0.2.
Definition RANDOMIZATION_SCALE_FACTOR : Q := 0.2.

(** Line 76, the product exact; in binary64 it is [deviation_binary64]. *)
Definition dev (x0 y0 x1 y1 : Z) : M Z :=
  let m := Z.max (x1 - x0) (y1 - y0) in
  d <- randint (- m) m ;;
  ret (py_int (HEIGHT_VARIATION_FACTOR * inject_Z d)).

(** The index computed on the last path of [randAugIndex] from the float
    [r] that [random.random()] returned, adjustment included, the
    arithmetic exact; in binary64 it is [aug_index_binary64]. *)
Definition aug_index (i0 i1 : Z) (r : Q) : Z :=
  let i := py_int (inject_Z i0
                   + (RANDOMIZATION_SCALE_FACTOR * r + 1) * inject_Z (i1 - i0) / 2) in
  if i =? i0 then i + 1
  else if i =? i1 then i - 1
  else i.

Definition randAugIndex (i0 i1 : Z) : M Z :=
  if (i0 =? i1) || (i1 <? i0) then ret i0
  else if i0 + 1 =? i1 then ret i0
  else if i0 + 2 =? i1 then ret (i0 + 1)
  else r <- random ;; ret (aug_index i0 i1 r).

(** [int((a + b + c) / 3)] and [int((a + b + c + d) / 4)], the quotient
    exact; in binary64 they are [mean3_binary64] and [mean4_binary64]. *)
Definition mean3 (a b c : Z) : Z := py_int (inject_Z (a + b + c) / 3).
Definition mean4 (a b c d : Z) : Z := py_int (inject_Z (a + b + c + d) / 4).

Definition Square (x0 y0 x1 y1 i j : Z) : M unit :=
  deviation <- dev y0 y0 y1 y1 ;;
  a <- getitem x0 y0 ;; b <- getitem x0 y1 ;; c <- getitem i j ;;
  setitem x0 j (deviation + mean3 a b c) ;;
  deviation <- dev y0 y0 y1 y1 ;;
  a <- getitem x1 y0 ;; b <- getitem x1 y1 ;; c <- getitem i j ;;
  setitem x1 j (deviation + mean3 a b c) ;;
  deviation <- dev x0 x0 x1 x1 ;;
  a <- getitem x0 y0 ;; b <- getitem x1 y0 ;; c <- getitem i j ;;
  setitem i y0 (deviation + mean3 a b c) ;;
  deviation <- dev x0 x0 x1 x1 ;;
  a <- getitem x0 y1 ;; b <- getitem x1 y1 ;; c <- getitem i j ;;
  setitem i y1 (deviation + mean3 a b c).

Definition Diamond (x0 y0 x1 y1 i j : Z) : M unit :=
  deviation <- dev x0 y0 x1 y1 ;;
  a <- getitem x0 y0 ;; b <- getitem x1 y0 ;;
  c <- getitem x0 y1 ;; d <- getitem x1 y1 ;;
  setitem i j (deviation + mean4 a b c d).

(** [int(a + d * t / s)], the right-hand side of both interpolation loops:
    [a] and [d] are heights, [t] the offset in a span of [s]; quotient
    and sum are exact, in binary64 it is [slope_binary64]. *)
Definition slope (a d t s : Z) : M Z :=
  q <- truediv (d * t) s ;;
  ret (py_int (inject_Z a + q)).

(** One assignment of the column loop (line 152, repeated on line 153). *)
Definition column_assign (i y0 y1 y : Z) : M unit :=
  a <- getitem i y0 ;; b <- getitem i y1 ;; a' <- getitem i y0 ;;
  v <- slope a (b - a') (y - y0) (y1 - y0) ;;
  setitem i y v.

(** One assignment of the row loop (line 158, repeated on line 159). *)
Definition row_assign (x0 x1 j x : Z) : M unit :=
  a <- getitem x0 j ;; a' <- getitem x0 j ;; b <- getitem x1 j ;;
  v <- slope a (a' - b) (x - x0) (x1 - x0) ;;
  setitem x j v.

Fixpoint auxRandAugDS (fuel : nat) (x0 y0 x1 y1 : Z) : M unit :=
  match fuel with
  | O => out_of_fuel
  | S fuel' =>
      if (x0 =? x1) && (y0 =? y1) then ret tt
      else
        i <- randAugIndex x0 x1 ;;
        j <- randAugIndex y0 y1 ;;
        if (i =? x0) || (i =? x1) then
          for_ (range (y0 + 1) y1) (fun y =>
            column_assign i y0 y1 y ;; column_assign i y0 y1 y)
        else if (j =? y0) || (j =? y1) then
          for_ (range (x0 + 1) x1) (fun x =>
            row_assign x0 x1 j x ;; row_assign x0 x1 j x)
        else
          Diamond x0 y0 x1 y1 i j ;;
          Square x0 y0 x1 y1 i j ;;
          auxRandAugDS fuel' x0 y0 i j ;;
          auxRandAugDS fuel' x0 j i y1 ;;
          auxRandAugDS fuel' i y0 x1 j ;;
          auxRandAugDS fuel' i j x1 y1
  end.

(** Fuel that the recursion on a region never exhausts: one more than its
    x span, which every recursive call shortens. *)
Definition enough_fuel (x0 y0 x1 y1 : Z) : nat :=
  S (Z.to_nat (x1 - x0)).

(** One iteration of the first cleanup loop: the two guarded repairs of
    line [x].  The guard [0 < x < len(world_map) - 1] is a chained
    comparison: the length is read only when [0 < x]. *)
Definition cleanup_row (x : Z) : M unit :=
  v <- getitem x 0 ;;
  (if v =? 0 then
     if 0 <? x then
       n <- len_world ;;
       if x <? n - 1 then
         a <- getitem (x - 1) 0 ;; b <- getitem x 1 ;; c <- getitem (x + 1) 0 ;;
         setitem x 0 (mean3 a b c)
       else ret tt
     else ret tt
   else ret tt) ;;
  v <- getitem x (-1) ;;
  if v =? 0 then
    if 0 <? x then
      n <- len_world ;;
      if x <? n - 1 then
        a <- getitem (x - 1) (-1) ;; b <- getitem x (-2) ;; c <- getitem (x + 1) (-1) ;;
        setitem x (-1) (mean3 a b c)
      else ret tt
    else ret tt
  else ret tt.

(** One iteration of the second cleanup loop: the two guarded repairs of
    column [y], guarded by [0 < y < len(world_map[0]) - 1]. *)
Definition cleanup_column (y : Z) : M unit :=
  v <- getitem 0 y ;;
  (if v =? 0 then
     if 0 <? y then
       h <- len_row 0 ;;
       if y <? h - 1 then
         a <- getitem 0 (y - 1) ;; b <- getitem 1 y ;; c <- getitem 0 (y + 1) ;;
         setitem 0 y (mean3 a b c)
       else ret tt
     else ret tt
   else ret tt) ;;
  v <- getitem (-1) y ;;
  if v =? 0 then
    if 0 <? y then
      h <- len_row 0 ;;
      if y <? h - 1 then
        a <- getitem (-1) (y - 1) ;; b <- getitem (-2) y ;; c <- getitem (-1) (y + 1) ;;
        setitem (-1) y (mean3 a b c)
      else ret tt
    else ret tt
  else ret tt.

Definition edgeCleanup : M unit :=
  n <- len_world ;;
  for_ (range 0 n) cleanup_row ;;
  h <- len_row 0 ;;
  for_ (range 0 h) cleanup_column.

Section EntryPoint.

(** The sequence of raw words that [random.seed(seed)] selects. *)
Variable seed_source : Z -> RandomSource.

(** [random.seed(seed)] *)
Definition random_seed (seed : Z) : M unit :=
  fun st => (Ret tt, mkState (world_map st) (seed_source seed)).

Definition randAugDS (seed : Z) : M (list (list Z)) :=
  random_seed seed ;;
  let x0 := 0 in
  n <- len_world ;;
  let x1 := n - 1 in
  let y0 := 0 in
  h <- len_row 0 ;;
  let y1 := h - 1 in
  v <- randint 0 (Z.max x1 y1) ;; setitem x0 y0 v ;;
  v <- randint 0 (Z.max x1 y1) ;; setitem x0 y1 v ;;
  v <- randint 0 (Z.max x1 y1) ;; setitem x1 y0 v ;;
  v <- randint 0 (Z.max x1 y1) ;; setitem x1 y1 v ;;
  auxRandAugDS (enough_fuel x0 y0 x1 y1) x0 y0 x1 y1 ;;
  edgeCleanup ;;
  fun st => (Ret (world_map st), st).

End EntryPoint.

(** A generator that replays a given list of raw words whatever the seed. *)
Definition replay (ws : list Z) : Z -> RandomSource :=
  fun _ => mkSource (fun n => nth n ws 0) 0.

Definition zeros (w h : nat) : list (list Z) := repeat (repeat 0 h) w.

(** Outcome of [m] on the grid [g], and the grid it leaves. *)
Definition run {A} (m : M A) (g : list (list Z)) : outcome A * list (list Z) :=
  let (o, st) := m (mkState g (mkSource (fun _ => 0) 0)) in (o, world_map st).

(** ** Binary64 arithmetic

    The exact rationals above stand for Python floats as long as every
    float the code forms is far from the limits of the format.  What the
    code computes otherwise is defined here: the value of a float is kept
    as the rational it denotes, and every operation rounds its exact
    result to the nearest number of the format, ties to even. *)

(** The integer nearest to [q], ties to even. *)
Definition round_half_even (q : Q) : Z :=
  let f := Qfloor q in
  match (q - inject_Z f ?= 1 # 2)%Q with
  | Lt => f
  | Gt => f + 1
  | Eq => if Z.even f then f else f + 1
  end.

(** Exponent of the leading bit of [x > 0]: the [k] with
    [2^k <= x < 2^(k+1)]. *)
Definition leading_bit (x : Q) : Z :=
  let k := Z.log2 (Qnum x) - Z.log2 (Z.pos (Qden x)) in
  if Qle_bool (2 ^ k) x then k else k - 1.

(** The binary64 number nearest to [x]: 53 significant bits above the
    least exponent -1074, the exponent not bounded above. *)
Definition nearest_pos (x : Q) : Q :=
  let e := Z.max (leading_bit x - 52) (-1074) in
  (inject_Z (round_half_even (x / 2 ^ e)) * 2 ^ e)%Q.

Definition nearest (x : Q) : Q :=
  match (x ?= 0)%Q with
  | Eq => 0%Q
  | Gt => nearest_pos x
  | Lt => (- nearest_pos (- x))%Q
  end.

(** The float that an operation of exact result [x] yields: the nearest
    binary64 number, or none when that is 2^1024 or more in magnitude.
    The conversion of an integer and the division of two integers raise
    [OverflowError] then; an operation on floats yields an infinity, which
    the [int(...)] around every float expression of the program turns into
    [OverflowError] as well. *)
Definition binary64 (x : Q) : outcome Q :=
  let y := nearest x in
  if Qle_bool (2 ^ 1024) (Qabs y) then Raise OverflowError else Ret y.

(** [float(z)], implicit where an integer meets a float. *)
Definition float_of_int (z : Z) : outcome Q := binary64 (inject_Z z).

(** [a / b] on two integers: the correctly rounded quotient. *)
Definition int_truediv (a b : Z) : outcome Q :=
  if b =? 0 then Raise ZeroDivisionError
  else binary64 (inject_Z a / inject_Z b).

Definition obind {A B} (o : outcome A) (k : A -> outcome B) : outcome B :=
  match o with
  | Ret a => k a
  | Raise e => Raise e
  | OutOfFuel => OutOfFuel
  end.

(** The float that a decimal literal denotes. *)
Definition literal (q : Q) : Q := nearest q.

(** Line 76: [int(HEIGHT_VARIATION_FACTOR * d)] for the draw [d]. *)
Definition deviation_binary64 (d : Z) : outcome Z :=
  obind (float_of_int d) (fun fd =>
  obind (binary64 (literal HEIGHT_VARIATION_FACTOR * fd)) (fun p =>
  Ret (py_int p))).

(** Lines 112 to 118 and 184 to 194: [int((a + b + c) / 3)]. *)
Definition mean3_binary64 (a b c : Z) : outcome Z :=
  obind (int_truediv (a + b + c) 3) (fun q => Ret (py_int q)).

(** Line 132: [int((a + b + c + d) / 4)]. *)
Definition mean4_binary64 (a b c d : Z) : outcome Z :=
  obind (int_truediv (a + b + c + d) 4) (fun q => Ret (py_int q)).

(** Lines 152 and 158: [int(a + d * t / s)]. *)
Definition slope_binary64 (a d t s : Z) : outcome Z :=
  obind (int_truediv (d * t) s) (fun q =>
  obind (float_of_int a) (fun fa =>
  obind (binary64 (fa + q)) (fun v =>
  Ret (py_int v)))).

(** Lines 94 to 98 for the draw [r]:
    [int(i0 + (RANDOMIZATION_SCALE_FACTOR * r + 1) * (i1 - i0) / 2)],
    moved off [i0] and [i1]. *)
Definition aug_index_binary64 (i0 i1 : Z) (r : Q) : outcome Z :=
  obind (binary64 (literal RANDOMIZATION_SCALE_FACTOR * r)) (fun p =>
  obind (binary64 (p + 1)) (fun u =>
  obind (float_of_int (i1 - i0)) (fun fd =>
  obind (binary64 (u * fd)) (fun v =>
  obind (binary64 (v / 2)) (fun h =>
  obind (float_of_int i0) (fun f0 =>
  obind (binary64 (f0 + h)) (fun x =>
  let i := py_int x in
  Ret (if i =? i0 then i + 1 else if i =? i1 then i - 1 else i)))))))).

(** ** Printing *)

(** Text written to the standard output: a sequence of characters. *)
Definition text (s : string) : list ascii := list_ascii_of_string s.

(** The line terminator that [print] appends. *)
Definition newline : ascii := "010".

(** [str(n)] for an integer [n]: its decimal digits, after a minus sign
    when [n] is negative.  Python refuses integers of more than 4300
    digits; the statements about printing bound the heights. *)
Definition str (n : Z) : list ascii := text (NilZero.string_of_int (Z.to_int n)).

(** [s.ljust(width, fill)]: [s] followed by as many [fill] as it lacks to
    [width] characters, none when it is that long already. *)
Definition ljust (s : list ascii) (width : Z) (fill : ascii) : list ascii :=
  s ++ replicate (Z.to_nat (width - Z.of_nat (length s))) fill.

(** What the loop [for i in range(marks)] of [printWorld] prints. *)
Definition print_marks (marks : Z) : list ascii :=
  concat (map (fun i => ljust (str (i * 5)) 15 "-") (range 0 marks)).

(** What the loop [for row in world_map] of [printWorld] prints, [counter]
    being the number of rows printed before. *)
Fixpoint print_rows (counter : Z) (rows : list (list Z)) : list ascii :=
  match rows with
  | [] => []
  | row :: rest =>
      (if counter mod 5 =? 0 then ljust (str counter) 4 " " else text "|   ")
      ++ concat (map (fun elem => ljust (str elem) 3 " ") row)
      ++ [newline]
      ++ print_rows (counter + 1) rest
  end.

(** [printWorld(world_map)]: the outcome and the text printed. *)
Definition printWorld (world_map : list (list Z)) : outcome unit * list ascii :=
  match py_get world_map 0 with
  | None => (Raise IndexError, [])
  | Some row0 =>
      let ylength := Z.of_nat (length row0) in
      let marks := ylength / 5 in
      (Ret tt,
       text "    " ++ print_marks marks ++ text "Y" ++ [newline]
       ++ print_rows 0 world_map
       ++ text "X" ++ [newline])
  end.

(** ** Vocabulary of the statements *)

(** A grid of [W] rows that all have [H] cells. *)
Definition rect (W H : Z) (g : list (list Z)) : Prop :=
  Z.of_nat (length g) = W /\ Forall (fun row => Z.of_nat (length row) = H) g.

(** A [W] by [H] grid whose cells are all 0, as the caller must pass. *)
Definition zero_grid (W H : nat) (g : list (list Z)) : Prop :=
  length g = W /\ Forall (fun row => length row = H /\ Forall (fun v => v = 0) row) g.

(** The four extreme cells of a [W] by [H] grid. *)
Definition corner (W H x y : Z) : Prop :=
  (x = 0 \/ x = W - 1) /\ (y = 0 \/ y = H - 1).

(** Linear interpolation as the specification words it: the height at
    offset [t] of a span [s] between the endpoint heights [a] and [b],
    [a + (b - a) * t / s], truncated toward zero. *)
Definition spec_interpolation (a b t s : Z) : Z :=
  py_int (inject_Z a + inject_Z (b - a) * inject_Z t / inject_Z s).

(** Total correctness: from a state in [P], [m] returns normally, with a
    value and a state in [Q]. *)
Definition hoare {A} (P : state -> Prop) (m : M A) (Q : A -> state -> Prop) : Prop :=
  forall st, P st -> exists a st', m st = (Ret a, st') /\ Q a st'.

(** [m] never reports exhausted fuel. *)
Definition fuel_free {A} (m : M A) : Prop :=
  forall st, fst (m st) <> OutOfFuel.

(** The position that the Python index [k] denotes in a list of length [n]. *)
Definition norm (n k : Z) : Z := if k <? 0 then n + k else k.

(** The state holds a [W] by [H] grid whose corner cells are those of [g0]. *)
Definition keeps_corners (W H : Z) (g0 : list (list Z)) (st : state) : Prop :=
  rect W H (world_map st)
  /\ forall x y, corner W H x y ->
       grid_get (world_map st) x y = grid_get g0 x y.

(** From a state that holds a [W] by [H] grid with the corners of [g0],
    [m] returns normally, in such a state again, a value in [Q]. *)
Definition safe {A} (W H : Z) (g0 : list (list Z)) (m : M A) (Q : A -> Prop) : Prop :=
  hoare (keeps_corners W H g0) m (fun a st => keeps_corners W H g0 st /\ Q a).

(** What the call number [k] from now on the generator [s] returns if it
    is [random.randint(a, b)]. *)
Definition nth_randint (s : RandomSource) (k : nat) (a b : Z) : Z :=
  a + entropy s (cursor s + k) mod (b - a + 1).

(** What [dev] makes of the draw [d]. *)
Definition deviation_of (d : Z) : Z := py_int (HEIGHT_VARIATION_FACTOR * inject_Z d).

(** The grid that a run leaves of a 2 by 7 grid of zeros whose corners
    drew [a], [b] (line 0) and [c], [d] (line 1): line 0 is the ramp from
    [a] to [b]; line 1 keeps its ends and holds, from left to right, the
    means of three neighbours that Edge Cleanup writes over its zeros. *)
Definition two_by_seven_output (a b c d : Z) : list (list Z) :=
  let ramp y := spec_interpolation a b (y - 0) (6 - 0) in
  let v1 := mean3 c (ramp 1) 0 in
  let v2 := mean3 v1 (ramp 2) 0 in
  let v3 := mean3 v2 (ramp 3) 0 in
  let v4 := mean3 v3 (ramp 4) 0 in
  let v5 := mean3 v4 (ramp 5) d in
  [[a; ramp 1; ramp 2; ramp 3; ramp 4; ramp 5; b];
   [c; v1; v2; v3; v4; v5; d]].

(** The state holds a [W] by [H] grid that agrees with [g0] on every cell
    of [keep]. *)
Definition framed (W H : Z) (keep : Z -> Z -> Prop) (g0 : list (list Z))
    (st : state) : Prop :=
  rect W H (world_map st)
  /\ forall x y, 0 <= x < W -> 0 <= y < H -> keep x y ->
       grid_get (world_map st) x y = grid_get g0 x y.

(** From a state framed by [keep], [m] returns normally, in a state framed
    by [keep] again, a value in [Q]. *)
Definition framed_run {A} (W H : Z) (keep : Z -> Z -> Prop) (g0 : list (list Z))
    (m : M A) (Q : A -> Prop) : Prop :=
  hoare (framed W H keep g0) m (fun a st => framed W H keep g0 st /\ Q a).

(** The cells that a call of the driver on the region (X0, Y0, X1, Y1)
    must leave alone: those outside the region and its four corners. *)
Definition off_region (X0 Y0 X1 Y1 x y : Z) : Prop :=
  ~ (X0 <= x <= X1 /\ Y0 <= y <= Y1)
  \/ ((x = X0 \/ x = X1) /\ (y = Y0 \/ y = Y1)).

(** The cells of the border of a [W] by [H] grid that are not corners. *)
Definition edge_cell (W H x y : Z) : Prop :=
  ((y = 0 \/ y = H - 1) /\ 0 < x < W - 1)
  \/ ((x = 0 \/ x = W - 1) /\ 0 < y < H - 1).

(** The cells that Edge Cleanup must leave alone on the grid [g0]: those
    that hold a height other than 0 and those that are no edge cells. *)
Definition settled (W H : Z) (g0 : list (list Z)) (x y : Z) : Prop :=
  (exists v, grid_get g0 x y = Some v /\ v <> 0) \/ ~ edge_cell W H x y.

(** [m] leaves the generator where it was, whatever its outcome. *)
Definition draw_free {A} (m : M A) : Prop :=
  forall st, random_state (snd (m st)) = random_state st.

(** The text made of the lines [ls], each followed by a line terminator. *)
Definition unlines (ls : list (list ascii)) : list ascii :=
  concat (map (fun l => l ++ [newline]) ls).

(** A line proper: it holds no line terminator. *)
Definition one_line (l : list ascii) : Prop := newline ∉ l.

(** The field of [width] characters that starts at column [col] of [l]. *)
Definition field (col width : nat) (l : list ascii) : list ascii :=
  take width (drop col l).

(** The first line that [printWorld] prints for rows of [ylength] cells,
    and the line it prints for [row] as row number [counter]. *)
Definition header_line (ylength : Z) : list ascii :=
  text "    " ++ print_marks (ylength / 5) ++ text "Y".

Definition row_line (counter : Z) (row : list Z) : list ascii :=
  (if counter mod 5 =? 0 then ljust (str counter) 4 " " else text "|   ")
  ++ concat (map (fun elem => ljust (str elem) 3 " ") row).

(** A number of the binary64 format below 2^1024: at most 53 significant
    bits above the least exponent. *)
Definition representable (y : Q) : Prop :=
  exists (m f : Z), (y == inject_Z m * 2 ^ f)%Q /\ Z.abs m <= 2 ^ 53 /\ -1074 <= f.

(** The two ends, as numerators over [2^j], of the cell of width less
    than one in which [n / s] lies when [s <= 2^j]: the quotient itself
    when the division is exact. *)
Definition cell_lo (n s j : Z) : Z :=
  n / s * 2 ^ j + (if n mod s =? 0 then 0 else 1).
Definition cell_hi (n s j : Z) : Z :=
  n / s * 2 ^ j + (if n mod s =? 0 then 0 else 2 ^ j - 1).

(** Every height of the grid is at most [B] in magnitude. *)
Definition heights_below (B : Z) (g : list (list Z)) : Prop :=
  Forall (Forall (fun v => Z.abs v <= B)) g.

(** [m] draws, if at all, forward; it returns a value in [Q] or raises
    [IndexError]: no other exception, and the fuel suffices. *)
Definition benign {A} (m : M A) (Q : A -> Prop) : Prop :=
  forall st,
    (cursor (random_state st) <= cursor (random_state (snd (m st))))%nat
    /\ match fst (m st) with
       | Ret a => Q a
       | Raise e => e = IndexError
       | OutOfFuel => False
       end.

(** [m] leaves the state [st] as it is: it returns there or raises
    [IndexError] there. *)
Definition idle {A} (m : M A) (st : state) : Prop :=
  (exists a, m st = (Ret a, st)) \/ m st = (Raise IndexError, st).

(** The number of the last of the four initial draws that the entry
    point writes to the corner [(x, y)] of a [W] by [H] grid: corners
    coincide when the grid has a single row or column. *)
Definition corner_draw (W H x y : Z) : nat :=
  if (x =? W - 1) && (y =? H - 1) then 3
  else if (x =? W - 1) && (y =? 0) then 2
  else if (x =? 0) && (y =? H - 1) then 1
  else 0.

(** * Properties *)

(** ** Python indexing *)

Lemma py_index_nonneg (n : nat) (k : Z) :
  0 <= k < Z.of_nat n -> py_index n k = Some (Z.to_nat k).
Proof.
  intros Hk. unfold py_index.
  destruct (Z.leb_spec 0 k); [|lia]. destruct (Z.ltb_spec k (Z.of_nat n)); [done|lia].
Qed.

Lemma py_index_negative (n : nat) (k : Z) :
  - Z.of_nat n <= k < 0 -> py_index n k = Some (Z.to_nat (Z.of_nat n + k)).
Proof.
  intros Hk. unfold py_index.
  destruct (Z.leb_spec 0 k); [lia|]. destruct (Z.leb_spec (- Z.of_nat n) k); [done|lia].
Qed.

Lemma py_index_above (n : nat) (k : Z) :
  Z.of_nat n <= k -> py_index n k = None.
Proof.
  intros Hk. unfold py_index.
  destruct (Z.leb_spec 0 k); [|lia]. destruct (Z.ltb_spec k (Z.of_nat n)); [lia|done].
Qed.

Lemma py_get_nonneg {A} (l : list A) (k : Z) :
  0 <= k -> py_get l k = l !! Z.to_nat k.
Proof.
  intros Hk. unfold py_get.
  destruct (Z.lt_ge_cases k (Z.of_nat (length l))).
  - by rewrite py_index_nonneg.
  - rewrite py_index_above by lia. symmetry. apply lookup_ge_None. lia.
Qed.

Lemma py_set_nonneg {A} (l : list A) (k : Z) (v : A) :
  0 <= k < Z.of_nat (length l) -> py_set l k v = Some (<[Z.to_nat k := v]> l).
Proof. intros Hk. unfold py_set. by rewrite py_index_nonneg. Qed.

Lemma grid_get_nonneg (g : list (list Z)) (x y : Z) :
  0 <= x -> 0 <= y ->
  grid_get g x y = match g !! Z.to_nat x with
                   | Some row => row !! Z.to_nat y
                   | None => None
                   end.
Proof.
  intros Hx Hy. unfold grid_get. rewrite py_get_nonneg by done.
  destruct (g !! Z.to_nat x); [|done]. by apply py_get_nonneg.
Qed.

Lemma grid_set_nonneg (g : list (list Z)) (x y v : Z) (row : list Z) :
  0 <= x -> g !! Z.to_nat x = Some row -> 0 <= y < Z.of_nat (length row) ->
  grid_set g x y v = Some (<[Z.to_nat x := <[Z.to_nat y := v]> row]> g).
Proof.
  intros Hx Hrow Hy. unfold grid_set. rewrite py_get_nonneg, Hrow by done.
  rewrite py_set_nonneg by done. apply py_set_nonneg.
  apply lookup_lt_Some in Hrow. lia.
Qed.

(** ** Truncation *)

Lemma py_int_bounds (q : Q) (lo hi : Z) :
  (inject_Z lo <= q)%Q -> (q <= inject_Z hi)%Q -> lo <= py_int q <= hi.
Proof.
  destruct q as [n d]. unfold py_int, Qle. simpl. intros Hlo Hhi.
  rewrite Z.mul_1_r in Hlo, Hhi.
  destruct (Z.le_gt_cases 0 n) as [Hn | Hn].
  - rewrite Z.quot_div_nonneg by lia. split.
    + apply Z.div_le_lower_bound; lia.
    + apply Z.div_le_upper_bound; lia.
  - replace n with (- (- n)) by lia. rewrite Z.quot_opp_l by lia.
    rewrite Z.quot_div_nonneg by lia. split.
    + enough (- n / Z.pos d <= - lo) by lia.
      apply Z.div_le_upper_bound; lia.
    + enough (- hi <= - n / Z.pos d) by lia.
      apply Z.div_le_lower_bound; lia.
Qed.

Lemma scaled_midpoint_bounds (a D r : Q) :
  (0 <= r)%Q -> (r < 1)%Q -> (3 <= D)%Q ->
  (a + 1 <= a + (RANDOMIZATION_SCALE_FACTOR * r + 1) * D / 2)%Q /\
  (a + (RANDOMIZATION_SCALE_FACTOR * r + 1) * D / 2 <= a + D - 1)%Q.
Proof.
  intros Hr0 Hr1 HD.
  assert (HrD : (0 <= r * D)%Q) by (apply Qmult_le_0_compat; lra).
  assert (HrD' : (0 <= (1 - r) * D)%Q) by (apply Qmult_le_0_compat; lra).
  unfold RANDOMIZATION_SCALE_FACTOR, Qdiv. change (/ 2)%Q with (1 # 2)%Q.
  split; lra.
Qed.

Lemma aug_index_raw_bounds (i0 i1 : Z) (r : Q) :
  (0 <= r)%Q -> (r < 1)%Q -> 3 <= i1 - i0 ->
  i0 + 1 <= py_int (inject_Z i0
      + (RANDOMIZATION_SCALE_FACTOR * r + 1) * inject_Z (i1 - i0) / 2) <= i1 - 1.
Proof.
  intros Hr0 Hr1 Hd.
  assert (HD : (3 <= inject_Z (i1 - i0))%Q).
  { change 3%Q with (inject_Z 3). rewrite <- Zle_Qle. lia. }
  destruct (scaled_midpoint_bounds (inject_Z i0) (inject_Z (i1 - i0)) r Hr0 Hr1 HD)
    as [Hlo Hhi].
  apply py_int_bounds.
  - rewrite inject_Z_plus. exact Hlo.
  - assert (E : (inject_Z i0 + inject_Z (i1 - i0) - 1 == inject_Z (i1 - 1))%Q).
    { unfold Qminus. change (- (1))%Q with (inject_Z (-1)).
      rewrite <- !inject_Z_plus. apply inject_Z_injective. lia. }
    rewrite <- E. exact Hhi.
Qed.

(** ** The midpoint selector *)

Lemma random_unit_interval (st : state) :
  exists r, random st
            = (Ret r, mkState (world_map st) (snd (next_word (random_state st))))
            /\ (0 <= r)%Q /\ (r < 1)%Q.
Proof.
  unfold random, next_word. eexists. split; [reflexivity|].
  pose proof (Z.mod_pos_bound (entropy (random_state st) (cursor (random_state st)))
                (Z.pos float_resolution) eq_refl) as Hb.
  unfold Qle, Qlt. simpl. lia.
Qed.

Lemma aug_index_interior (i0 i1 : Z) (r : Q) :
  (0 <= r)%Q -> (r < 1)%Q -> 3 <= i1 - i0 -> i0 < aug_index i0 i1 r < i1.
Proof.
  intros Hr0 Hr1 Hd. unfold aug_index.
  pose proof (aug_index_raw_bounds i0 i1 r Hr0 Hr1 Hd) as Hb.
  cbv zeta. repeat case_match; lia.
Qed.

(** Whatever the bounds, the selector returns, leaves the grid alone, and
    yields either its lower bound or an index strictly inside. *)
Lemma randAugIndex_cases (i0 i1 : Z) (st : state) :
  exists i st', randAugIndex i0 i1 st = (Ret i, st')
                /\ world_map st' = world_map st
                /\ (i = i0 \/ i0 < i < i1).
Proof.
  unfold randAugIndex.
  destruct (Z.eqb_spec i0 i1); [by exists i0, st; auto|].
  destruct (Z.ltb_spec i1 i0); [by exists i0, st; auto|]. simpl.
  destruct (Z.eqb_spec (i0 + 1) i1); [by exists i0, st; auto|].
  destruct (Z.eqb_spec (i0 + 2) i1).
  { exists (i0 + 1), st. split; [done|]. split; [done|]. right; lia. }
  destruct (random_unit_interval st) as (r & Hr & Hr0 & Hr1).
  unfold bind. rewrite Hr. eexists _, _. split; [reflexivity|]. split; [done|].
  right. apply aug_index_interior; [done..|lia].
Qed.

(** ** Truncation and the deviation *)

Lemma py_int_floor (q : Q) : (0 <= q)%Q -> (inject_Z (py_int q) <= q)%Q.
Proof.
  destruct q as [n d]. unfold py_int, Qle. simpl. intros Hn.
  rewrite Z.mul_1_r in Hn. rewrite Z.quot_div_nonneg by lia.
  rewrite Z.mul_1_r, Z.mul_comm. apply Z.mul_div_le. lia.
Qed.

Lemma deviation_of_quot (d : Z) : deviation_of d = Z.quot d 5.
Proof.
  unfold deviation_of, py_int, HEIGHT_VARIATION_FACTOR. simpl.
  change (Z.pos (10 * 1)) with (2 * 5). apply Z.quot_mul_cancel_l; lia.
Qed.

(** ** Binary64 rounding does not cross a number of the format *)

Lemma two_power_pos (e : Z) : (0 < 2 ^ e)%Q.
Proof. by apply Qpower_0_lt. Qed.

Lemma two_power_add (a b : Z) : (2 ^ (a + b) == 2 ^ a * 2 ^ b)%Q.
Proof. by apply Qpower_plus. Qed.

Lemma two_power_le (a b : Z) : a <= b -> (2 ^ a <= 2 ^ b)%Q.
Proof. intros Hab. by apply Qpower_le_compat_l. Qed.

Lemma two_power_inject (n : Z) : 0 <= n -> (inject_Z (2 ^ n) == 2 ^ n)%Q.
Proof. intros Hn. by rewrite Zpower_Qpower. Qed.

Lemma round_half_even_le (q : Q) (n : Z) :
  (q <= inject_Z n)%Q -> round_half_even q <= n.
Proof.
  intros Hq. unfold round_half_even.
  pose proof (Qfloor_le q) as Hf.
  assert (Hfn : Qfloor q <= n).
  { rewrite Zle_Qle. by apply Qle_trans with q. }
  assert (Hup : (inject_Z (Qfloor q) < q)%Q -> Qfloor q + 1 <= n).
  { intros Hlt. assert (Qfloor q < n); [|lia].
    rewrite Zlt_Qlt. by apply Qlt_le_trans with q. }
  destruct (Qcompare_spec (q - inject_Z (Qfloor q)) (1 # 2)) as [He|Hl|Hg].
  - destruct (Z.even (Qfloor q)); [done|]. apply Hup. lra.
  - done.
  - apply Hup. lra.
Qed.

Lemma round_half_even_ge (q : Q) (n : Z) :
  (inject_Z n <= q)%Q -> n <= round_half_even q.
Proof.
  intros Hq. unfold round_half_even.
  assert (Hfn : n <= Qfloor q).
  { rewrite <- (Qfloor_Z n). by apply Qfloor_resp_le. }
  destruct (Qcompare_spec (q - inject_Z (Qfloor q)) (1 # 2)) as [He|Hl|Hg];
    [destruct (Z.even (Qfloor q))|..]; lia.
Qed.

Lemma leading_bit_le (x : Q) : (0 < x)%Q -> (2 ^ leading_bit x <= x)%Q.
Proof.
  intros Hx. unfold leading_bit.
  destruct (Qle_bool (2 ^ (Z.log2 (Qnum x) - Z.log2 (Z.pos (Qden x)))) x) eqn:Hk;
    [by apply Qle_bool_iff|]. clear Hk.
  destruct x as [n d]. cbn [Qnum Qden].
  assert (Hn : 0 < n) by (unfold Qlt in Hx; simpl in Hx; lia).
  pose proof (Z.log2_spec n Hn) as [Hn1 _].
  pose proof (Z.log2_spec (Z.pos d) eq_refl) as [_ Hd2].
  pose proof (Z.log2_nonneg n) as Ha. pose proof (Z.log2_nonneg (Z.pos d)) as Hb.
  remember (Z.log2 n) as a eqn:Ea. remember (Z.log2 (Z.pos d)) as b eqn:Eb.
  clear Ea Eb.
  replace (a - b - 1) with (a - (b + 1)) by lia.
  rewrite Qpower_minus by done.
  rewrite (Qmake_Qdiv n d).
  assert (Hd0 : (0 < inject_Z (Z.pos d))%Q) by done.
  assert (Hdq : (inject_Z (Z.pos d) <= 2 ^ (b + 1))%Q).
  { rewrite <- two_power_inject by lia. rewrite <- Zle_Qle. lia. }
  assert (Hnq : (2 ^ a <= inject_Z n)%Q).
  { rewrite <- two_power_inject by lia. by rewrite <- Zle_Qle. }
  pose proof (two_power_pos (b + 1)) as Hp. pose proof (two_power_pos a) as Hpa.
  apply Qle_shift_div_l; [done|].
  assert (Hq : (0 < 2 ^ a / 2 ^ (b + 1))%Q).
  { apply Qlt_shift_div_l; [done|]. lra. }
  apply Qle_trans with (2 ^ a / 2 ^ (b + 1) * 2 ^ (b + 1))%Q.
  - by apply Qmult_le_l.
  - assert (E : (2 ^ a / 2 ^ (b + 1) * 2 ^ (b + 1) == 2 ^ a)%Q) by (field; lra).
    by rewrite E.
Qed.

(** The exponent of the last place of the format at [x > 0]. *)
Lemma last_place (x y : Q) (e : Z) :
  (0 < x)%Q -> e = Z.max (leading_bit x - 52) (-1074) ->
  representable y -> (0 < y)%Q ->
  (exists n, (y == inject_Z n * 2 ^ e)%Q)
  \/ ((y <= 2 ^ (e + 52))%Q /\ (2 ^ (e + 52) <= x)%Q).
Proof.
  intros Hx He (m & f & Hy & Hm & Hf) Hy0.
  destruct (Z.le_gt_cases e f) as [Hef|Hef].
  - left. exists (m * 2 ^ (f - e)). rewrite Hy, inject_Z_mult.
    rewrite two_power_inject by lia.
    replace f with ((f - e) + e) at 1 by lia. rewrite two_power_add. ring.
  - right. assert (Hee : e = leading_bit x - 52) by lia.
    pose proof (leading_bit_le x Hx) as Hlb.
    replace (e + 52) with (leading_bit x) by lia. split; [|done].
    rewrite Hy. replace (leading_bit x) with (53 + (e - 1)) by lia.
    rewrite two_power_add.
    apply Qle_trans with (2 ^ 53 * 2 ^ f)%Q.
    + apply Qmult_le_r; [apply two_power_pos|].
      rewrite <- two_power_inject by lia. rewrite <- Zle_Qle. lia.
    + apply Qmult_le_l; [apply two_power_pos|]. apply two_power_le. lia.
Qed.

Lemma nearest_pos_le (x y : Q) :
  (0 < x)%Q -> (x <= y)%Q -> representable y -> (nearest_pos x <= y)%Q.
Proof.
  intros Hx Hxy Hy. unfold nearest_pos.
  set (e := Z.max (leading_bit x - 52) (-1074)).
  pose proof (two_power_pos e) as He.
  assert (Hint : exists n, (y == inject_Z n * 2 ^ e)%Q).
  { destruct (last_place x y e Hx eq_refl Hy ltac:(lra)) as [Hn|[H1 H2]]; [done|].
    exists (2 ^ 52). rewrite two_power_inject by lia. rewrite <- two_power_add.
    replace (52 + e) with (e + 52) by lia. lra. }
  destruct Hint as (n & Hn). rewrite Hn.
  apply Qmult_le_r; [done|]. rewrite <- Zle_Qle.
  apply round_half_even_le. apply Qle_shift_div_r; [done|]. by rewrite <- Hn.
Qed.

Lemma nearest_pos_ge (x y : Q) :
  (0 < x)%Q -> (y <= x)%Q -> representable y -> (0 < y)%Q -> (y <= nearest_pos x)%Q.
Proof.
  intros Hx Hxy Hy Hy0. unfold nearest_pos.
  set (e := Z.max (leading_bit x - 52) (-1074)).
  pose proof (two_power_pos e) as He.
  destruct (last_place x y e Hx eq_refl Hy Hy0) as [(n & Hn)|[H1 H2]].
  - rewrite Hn. apply Qmult_le_r; [done|]. rewrite <- Zle_Qle.
    apply round_half_even_ge. apply Qle_shift_div_l; [done|]. by rewrite <- Hn.
  - apply Qle_trans with (2 ^ (e + 52))%Q; [done|].
    replace (e + 52) with (52 + e) by lia. rewrite two_power_add.
    apply Qmult_le_r; [done|]. rewrite <- two_power_inject by lia.
    rewrite <- Zle_Qle. apply round_half_even_ge. rewrite two_power_inject by lia.
    apply Qle_shift_div_l; [done|]. rewrite <- two_power_add.
    by replace (52 + e) with (e + 52) by lia.
Qed.

Lemma nearest_pos_nonneg (x : Q) : (0 < x)%Q -> (0 <= nearest_pos x)%Q.
Proof.
  intros Hx. unfold nearest_pos.
  set (e := Z.max (leading_bit x - 52) (-1074)).
  pose proof (two_power_pos e) as He.
  apply Qmult_le_0_compat; [|lra].
  change 0%Q with (inject_Z 0). rewrite <- Zle_Qle.
  apply round_half_even_ge. apply Qle_shift_div_l; [done|].
  change (inject_Z 0) with 0%Q. lra.
Qed.

Lemma representable_opp (y : Q) : representable y -> representable (- y).
Proof.
  intros (m & f & Hy & Hm & Hf). exists (- m), f.
  split; [|lia]. rewrite Hy, inject_Z_opp. ring.
Qed.

Lemma nearest_le (x y : Q) : (x <= y)%Q -> representable y -> (nearest x <= y)%Q.
Proof.
  intros Hxy Hy. unfold nearest.
  destruct (Qcompare_spec x 0) as [H0|Hneg|Hpos].
  - lra.
  - destruct (Qlt_le_dec y 0) as [Hy0|Hy0].
    + pose proof (nearest_pos_ge (- x) (- y) ltac:(lra) ltac:(lra)
                    (representable_opp y Hy) ltac:(lra)). lra.
    + pose proof (nearest_pos_nonneg (- x) ltac:(lra)). lra.
  - by apply nearest_pos_le.
Qed.

Lemma nearest_ge (x y : Q) : (y <= x)%Q -> representable y -> (y <= nearest x)%Q.
Proof.
  intros Hxy Hy. unfold nearest.
  destruct (Qcompare_spec x 0) as [H0|Hneg|Hpos].
  - lra.
  - pose proof (nearest_pos_le (- x) (- y) ltac:(lra) ltac:(lra)
                  (representable_opp y Hy)). lra.
  - destruct (Qlt_le_dec 0 y) as [Hy0|Hy0].
    + by apply nearest_pos_ge.
    + pose proof (nearest_pos_nonneg x Hpos). lra.
Qed.

(** A quotient of an integer of at most 53 bits by a power of two. *)
Lemma representable_dyadic (m j : Z) :
  Z.abs m <= 2 ^ 53 -> 0 <= j <= 1074 -> representable (inject_Z m / 2 ^ j).
Proof.
  intros Hm Hj. exists m, (- j). split; [|lia].
  rewrite Qpower_opp. reflexivity.
Qed.

Lemma representable_int (z : Z) : Z.abs z <= 2 ^ 53 -> representable (inject_Z z).
Proof.
  intros Hz. exists z, 0. split; [|lia]. change (2 ^ 0)%Q with 1%Q. ring.
Qed.

(** An operation whose exact result lies between two numbers of the
    format, both below 2^1024, yields a float between them. *)
Lemma binary64_between (x lo hi : Q) :
  (lo <= x)%Q -> (x <= hi)%Q -> representable lo -> representable hi ->
  (- (2 ^ 1023) <= lo)%Q -> (hi <= 2 ^ 1023)%Q ->
  exists y, binary64 x = Ret y /\ (lo <= y)%Q /\ (y <= hi)%Q.
Proof.
  intros Hlo Hhi Rlo Rhi Blo Bhi.
  pose proof (nearest_ge x lo Hlo Rlo) as H1.
  pose proof (nearest_le x hi Hhi Rhi) as H2.
  exists (nearest x). split; [|done]. unfold binary64.
  destruct (Qle_bool (2 ^ 1024) (Qabs (nearest x))) eqn:Hov; [|done].
  apply Qle_bool_iff in Hov. exfalso.
  assert (Habs : (Qabs (nearest x) <= 2 ^ 1023)%Q).
  { apply Qabs_Qle_condition. split; lra. }
  assert (Hlt : (2 ^ 1023 < 2 ^ 1024)%Q) by (by apply Qpower_lt_compat_l).
  lra.
Qed.

(** ** Where the exact arithmetic is the code's *)

Lemma py_int_opp (q : Q) : py_int (- q) = - py_int q.
Proof. destruct q as [n d]. unfold py_int. simpl. by rewrite Z.quot_opp_l. Qed.

Lemma py_int_cell_nonneg (y : Q) (k : Z) :
  0 <= k -> (inject_Z k <= y)%Q -> (y < inject_Z (k + 1))%Q -> py_int y = k.
Proof.
  intros Hk Hlo Hhi.
  pose proof (py_int_bounds y k (k + 1) Hlo ltac:(lra)) as Hb.
  assert (H0 : (0 <= y)%Q).
  { apply Qle_trans with (inject_Z k); [|done].
    change 0%Q with (inject_Z 0). by rewrite <- Zle_Qle. }
  pose proof (py_int_floor y H0) as Hf.
  assert (py_int y < k + 1); [|lia].
  rewrite Zlt_Qlt. lra.
Qed.

Lemma py_int_cell_nonpos (y : Q) (k : Z) :
  k <= 0 -> (inject_Z (k - 1) < y)%Q -> (y <= inject_Z k)%Q -> py_int y = k.
Proof.
  intros Hk Hlo Hhi.
  assert (E : py_int (- y) = - k).
  { apply py_int_cell_nonneg; [lia | rewrite inject_Z_opp; lra |].
    replace (- k + 1) with (- (k - 1)) by lia. rewrite inject_Z_opp. lra. }
  rewrite py_int_opp in E. lia.
Qed.

(** Two rationals between the same bounds, the bounds within one unit
    cell on one side of zero, truncate to the same integer. *)
Lemma py_int_agree (y z lo hi : Q) (k : Z) :
  (lo <= y)%Q -> (y <= hi)%Q -> (lo <= z)%Q -> (z <= hi)%Q ->
  (0 <= k /\ (inject_Z k <= lo)%Q /\ (hi < inject_Z (k + 1))%Q)
  \/ (k <= 0 /\ (inject_Z (k - 1) < lo)%Q /\ (hi <= inject_Z k)%Q) ->
  py_int y = k /\ py_int z = k.
Proof.
  intros Hy1 Hy2 Hz1 Hz2 [(Hk & H1 & H2)|(Hk & H1 & H2)].
  - split; apply py_int_cell_nonneg; (done || lra).
  - split; apply py_int_cell_nonpos; (done || lra).
Qed.

Lemma binary64_dyadic (x : Q) (l u j : Z) :
  0 <= j <= 1074 -> Z.abs l <= 2 ^ 53 -> Z.abs u <= 2 ^ 53 ->
  (inject_Z l / 2 ^ j <= x)%Q -> (x <= inject_Z u / 2 ^ j)%Q ->
  exists y, binary64 x = Ret y
            /\ (inject_Z l / 2 ^ j <= y)%Q /\ (y <= inject_Z u / 2 ^ j)%Q.
Proof.
  intros Hj Hl Hu Hlo Hhi.
  assert (Hmag : forall m, Z.abs m <= 2 ^ 53 ->
            (- (2 ^ 1023) <= inject_Z m / 2 ^ j)%Q
            /\ (inject_Z m / 2 ^ j <= 2 ^ 1023)%Q).
  { intros m Hm.
    pose proof (two_power_pos j) as Hp.
    pose proof (two_power_le 0 j ltac:(lia)) as H1. change (2 ^ 0)%Q with 1%Q in H1.
    pose proof (two_power_le 53 1023 ltac:(lia)) as H2.
    rewrite <- (two_power_inject 53) in H2 by lia.
    assert (Hm1 : (inject_Z m <= inject_Z (2 ^ 53))%Q) by (rewrite <- Zle_Qle; lia).
    assert (Hm2 : (- inject_Z (2 ^ 53) <= inject_Z m)%Q).
    { rewrite <- inject_Z_opp, <- Zle_Qle. lia. }
    pose proof (two_power_pos 1023) as Hbig.
    remember (2 ^ j)%Q as P eqn:EP. remember (2 ^ 1023)%Q as B eqn:EB.
    remember (inject_Z m) as M eqn:EM. remember (inject_Z (2 ^ 53)) as C eqn:EC.
    clear EP EB EM EC.
    split.
    - apply Qle_shift_div_l; [done|]. nra.
    - apply Qle_shift_div_r; [done|]. nra. }
  destruct (Hmag l Hl) as [Hl1 _]. destruct (Hmag u Hu) as [_ Hu2].
  apply binary64_between; try done; by apply representable_dyadic.
Qed.

Lemma binary64_int (z : Z) :
  Z.abs z <= 2 ^ 53 -> exists y, float_of_int z = Ret y /\ (y == inject_Z z)%Q.
Proof.
  intros Hz. unfold float_of_int.
  destruct (binary64_dyadic (inject_Z z) z z 0 ltac:(lia) Hz Hz) as (y & Hy & H1 & H2).
  - change (2 ^ 0)%Q with 1%Q. apply Qle_shift_div_r; [done|]. lra.
  - change (2 ^ 0)%Q with 1%Q. apply Qle_shift_div_l; [done|]. lra.
  - exists y. split; [done|]. change (2 ^ 0)%Q with 1%Q in *.
    assert (E : (inject_Z z / 1 == inject_Z z)%Q) by (field).
    rewrite E in *. lra.
Qed.

Lemma Qfrac_le (a b c d : Z) :
  0 < b -> 0 < d -> a * d <= c * b ->
  (inject_Z a / inject_Z b <= inject_Z c / inject_Z d)%Q.
Proof.
  intros Hb Hd H.
  assert (Hb' : (0 < inject_Z b)%Q) by (change 0%Q with (inject_Z 0); by rewrite <- Zlt_Qlt).
  assert (Hd' : (0 < inject_Z d)%Q) by (change 0%Q with (inject_Z 0); by rewrite <- Zlt_Qlt).
  apply Qle_shift_div_r; [done|].
  assert (E : (inject_Z c / inject_Z d * inject_Z b
               == inject_Z (c * b) / inject_Z d)%Q).
  { rewrite inject_Z_mult. field. lra. }
  rewrite E. apply Qle_shift_div_l; [done|].
  rewrite <- inject_Z_mult, <- Zle_Qle. done.
Qed.

Lemma quotient_cell (n s j : Z) :
  0 < s -> s <= 2 ^ j -> 0 <= j ->
  (inject_Z (cell_lo n s j) / inject_Z (2 ^ j) <= inject_Z n / inject_Z s)%Q
  /\ (inject_Z n / inject_Z s <= inject_Z (cell_hi n s j) / inject_Z (2 ^ j))%Q.
Proof.
  intros Hs Hsj Hj. unfold cell_lo, cell_hi.
  pose proof (Z.div_mod n s ltac:(lia)) as Hdm.
  pose proof (Z.mod_pos_bound n s Hs) as Hr.
  assert (Hp : 0 < 2 ^ j) by (apply Z.pow_pos_nonneg; lia).
  remember (n / s) as K eqn:EK. remember (n mod s) as r eqn:Er.
  remember (2 ^ j) as P eqn:EP. clear EK Er EP.
  split; apply Qfrac_le; try done; destruct (Z.eqb_spec r 0); nia.
Qed.

Lemma int_truediv_cell (n s j : Z) :
  0 < s -> s <= 2 ^ j -> 0 <= j <= 1074 -> (Z.abs (n / s) + 1) * 2 ^ j <= 2 ^ 53 ->
  exists y, int_truediv n s = Ret y
    /\ (inject_Z (cell_lo n s j) / 2 ^ j <= y)%Q
    /\ (y <= inject_Z (cell_hi n s j) / 2 ^ j)%Q.
Proof.
  intros Hs Hsj Hj Hb. unfold int_truediv.
  destruct (Z.eqb_spec s 0); [lia|].
  destruct (quotient_cell n s j Hs Hsj ltac:(lia)) as [Hlo Hhi].
  assert (Hp : 0 < 2 ^ j) by (apply Z.pow_pos_nonneg; lia).
  rewrite two_power_inject in Hlo, Hhi by lia.
  apply binary64_dyadic; try done; unfold cell_lo, cell_hi;
    destruct (n mod s =? 0); nia.
Qed.

Lemma Qint_le_frac (k l p : Z) :
  0 < p -> k * p <= l -> (inject_Z k <= inject_Z l / inject_Z p)%Q.
Proof.
  intros Hp H.
  assert (Hp' : (0 < inject_Z p)%Q) by (change 0%Q with (inject_Z 0); by rewrite <- Zlt_Qlt).
  apply Qle_shift_div_l; [done|]. by rewrite <- inject_Z_mult, <- Zle_Qle.
Qed.

Lemma Qint_lt_frac (k l p : Z) :
  0 < p -> k * p < l -> (inject_Z k < inject_Z l / inject_Z p)%Q.
Proof.
  intros Hp H.
  assert (Hp' : (0 < inject_Z p)%Q) by (change 0%Q with (inject_Z 0); by rewrite <- Zlt_Qlt).
  apply Qlt_shift_div_l; [done|]. by rewrite <- inject_Z_mult, <- Zlt_Qlt.
Qed.

Lemma Qfrac_le_int (k l p : Z) :
  0 < p -> l <= k * p -> (inject_Z l / inject_Z p <= inject_Z k)%Q.
Proof.
  intros Hp H.
  assert (Hp' : (0 < inject_Z p)%Q) by (change 0%Q with (inject_Z 0); by rewrite <- Zlt_Qlt).
  apply Qle_shift_div_r; [done|]. by rewrite <- inject_Z_mult, <- Zle_Qle.
Qed.

Lemma Qfrac_lt_int (k l p : Z) :
  0 < p -> l < k * p -> (inject_Z l / inject_Z p < inject_Z k)%Q.
Proof.
  intros Hp H.
  assert (Hp' : (0 < inject_Z p)%Q) by (change 0%Q with (inject_Z 0); by rewrite <- Zlt_Qlt).
  apply Qlt_shift_div_r; [done|]. by rewrite <- inject_Z_mult, <- Zlt_Qlt.
Qed.

(** Two rationals of the cell of [n / s] moved by the integer [a]
    truncate to the same integer. *)
Lemma cell_agree (a n s j : Z) (y z : Q) :
  0 < s -> 0 <= j ->
  (inject_Z (a * 2 ^ j + cell_lo n s j) / 2 ^ j <= y)%Q ->
  (y <= inject_Z (a * 2 ^ j + cell_hi n s j) / 2 ^ j)%Q ->
  (inject_Z (a * 2 ^ j + cell_lo n s j) / 2 ^ j <= z)%Q ->
  (z <= inject_Z (a * 2 ^ j + cell_hi n s j) / 2 ^ j)%Q ->
  py_int y = py_int z.
Proof.
  intros Hs Hj Hy1 Hy2 Hz1 Hz2.
  assert (Hp : 0 < 2 ^ j) by (apply Z.pow_pos_nonneg; lia).
  rewrite <- two_power_inject in * by lia.
  unfold cell_lo, cell_hi in *.
  remember (n / s) as K eqn:EK. remember (2 ^ j) as P eqn:EP. clear EK EP.
  set (k := if n mod s =? 0 then a + K
            else if 0 <=? a + K then a + K else a + K + 1).
  destruct (py_int_agree y z _ _ k Hy1 Hy2 Hz1 Hz2) as [-> ->]; [|done].
  unfold k. destruct (Z.eqb_spec (n mod s) 0) as [Hr|Hr].
  - destruct (Z.le_gt_cases 0 (a + K)); [left|right];
      (split; [lia|]; split;
       [first [apply Qint_le_frac | apply Qint_lt_frac]
       |first [apply Qfrac_lt_int | apply Qfrac_le_int]]; nia).
  - destruct (Z.leb_spec 0 (a + K)); [left|right];
      (split; [lia|]; split;
       [first [apply Qint_le_frac | apply Qint_lt_frac]
       |first [apply Qfrac_lt_int | apply Qfrac_le_int]]; nia).
Qed.

(** Powers of two with a literal exponent, for linear arithmetic. *)
Ltac eval_pow :=
  repeat match goal with
  | |- context [Z.pow 2 (Z.pos ?p)] =>
      let v := eval vm_compute in (Z.pow 2 (Z.pos p)) in
      change (Z.pow 2 (Z.pos p)) with v
  | H : context [Z.pow 2 (Z.pos ?p)] |- _ =>
      let v := eval vm_compute in (Z.pow 2 (Z.pos p)) in
      change (Z.pow 2 (Z.pos p)) with v in H
  end.

Lemma div_abs_le (n s : Z) : 0 < s -> Z.abs (n / s) <= Z.abs n.
Proof.
  intros Hs. pose proof (Z.div_mod n s ltac:(lia)).
  pose proof (Z.mod_pos_bound n s Hs). nia.
Qed.

(** [int((a + b + c) / 3)] in binary64 is the exact truncated mean as
    long as the sum has at most 52 bits. *)
Lemma mean3_binary64_exact (a b c : Z) :
  Z.abs (a + b + c) <= 2 ^ 52 -> mean3_binary64 a b c = Ret (mean3 a b c).
Proof.
  intros Hn. unfold mean3_binary64, mean3.
  eval_pow.
  destruct (int_truediv_cell (a + b + c) 3 2 ltac:(lia) ltac:(eval_pow; lia) ltac:(lia)
              ltac:(eval_pow; Z.div_mod_to_equations; lia))
    as (y & -> & Hy1 & Hy2).
  destruct (quotient_cell (a + b + c) 3 2 ltac:(lia) ltac:(eval_pow; lia) ltac:(lia))
    as [Hz1 Hz2].
  simpl. f_equal.
  apply (cell_agree 0 (a + b + c) 3 2); try lia; rewrite ?Z.mul_0_l, ?Z.add_0_l;
    rewrite <- ?two_power_inject by lia; done.
Qed.

Lemma mean4_binary64_exact (a b c d : Z) :
  Z.abs (a + b + c + d) <= 2 ^ 52 -> mean4_binary64 a b c d = Ret (mean4 a b c d).
Proof.
  intros Hn. unfold mean4_binary64, mean4.
  eval_pow.
  destruct (int_truediv_cell (a + b + c + d) 4 2
              ltac:(lia) ltac:(eval_pow; lia) ltac:(lia)
              ltac:(eval_pow; Z.div_mod_to_equations; lia))
    as (y & -> & Hy1 & Hy2).
  destruct (quotient_cell (a + b + c + d) 4 2 ltac:(lia) ltac:(eval_pow; lia) ltac:(lia))
    as [Hz1 Hz2].
  simpl. f_equal.
  apply (cell_agree 0 (a + b + c + d) 4 2); try lia; rewrite ?Z.mul_0_l, ?Z.add_0_l;
    rewrite <- ?two_power_inject by lia; done.
Qed.

Lemma log2_up_cover (s : Z) :
  0 < s -> s <= 2 ^ Z.log2_up s /\ 2 ^ Z.log2_up s < 2 * s /\ 0 <= Z.log2_up s.
Proof.
  intros Hs. pose proof (Z.log2_up_nonneg s) as Hj.
  destruct (Z.eq_dec s 1) as [->|Hs1]; [by vm_compute|].
  pose proof (Z.log2_up_spec s ltac:(lia)) as [H1 H2].
  split; [done|]. split; [|done].
  replace (Z.log2_up s) with (Z.succ (Z.pred (Z.log2_up s))) at 1 by lia.
  rewrite Z.pow_succ_r; [lia|].
  destruct (Z.eq_dec (Z.log2_up s) 0) as [E|E]; [|lia].
  rewrite E in H2. simpl in H2. lia.
Qed.

Lemma shift_cell (a l : Z) (p y : Q) :
  (0 < p)%Q -> (inject_Z l / p <= y)%Q ->
  forall pz, (inject_Z pz == p)%Q -> (inject_Z (a * pz + l) / p <= inject_Z a + y)%Q.
Proof.
  intros Hp Hy pz Hpz.
  assert (E : (inject_Z (a * pz + l) / p == inject_Z a + inject_Z l / p)%Q).
  { rewrite inject_Z_plus, inject_Z_mult, Hpz. field. lra. }
  rewrite E. lra.
Qed.

Lemma shift_cell_up (a u : Z) (p y : Q) :
  (0 < p)%Q -> (y <= inject_Z u / p)%Q ->
  forall pz, (inject_Z pz == p)%Q -> (inject_Z a + y <= inject_Z (a * pz + u) / p)%Q.
Proof.
  intros Hp Hy pz Hpz.
  assert (E : (inject_Z (a * pz + u) / p == inject_Z a + inject_Z u / p)%Q).
  { rewrite inject_Z_plus, inject_Z_mult, Hpz. field. lra. }
  rewrite E. lra.
Qed.

(** [int(a + d * t / s)] in binary64 is the exact truncated value as long
    as heights times span stay below 2^51. *)
Lemma slope_binary64_exact (a d t s : Z) :
  0 < s -> 0 <= t <= s -> (Z.abs a + Z.abs d + 2) * s <= 2 ^ 51 ->
  slope_binary64 a d t s
  = Ret (py_int (inject_Z a + inject_Z (d * t) / inject_Z s)).
Proof.
  intros Hs Ht Hb. unfold slope_binary64.
  destruct (log2_up_cover s Hs) as (Hj1 & Hj2 & Hj0).
  remember (Z.log2_up s) as j eqn:Ej. clear Ej.
  assert (Hp : 0 < 2 ^ j) by (apply Z.pow_pos_nonneg; lia).
  assert (Hj : j <= 1074).
  { assert (2 ^ j < 2 ^ 52) as Hlt by (eval_pow; nia).
    apply Z.pow_lt_mono_r_iff in Hlt; lia. }
  assert (Hk : Z.abs (d * t / s) <= Z.abs d).
  { pose proof (Z.div_mod (d * t) s ltac:(lia)).
    pose proof (Z.mod_pos_bound (d * t) s Hs). nia. }
  assert (Hlo : Z.abs (cell_lo (d * t) s j) <= (Z.abs d + 1) * 2 ^ j).
  { unfold cell_lo. destruct (d * t mod s =? 0); nia. }
  assert (Hhi : Z.abs (cell_hi (d * t) s j) <= (Z.abs d + 1) * 2 ^ j).
  { unfold cell_hi. destruct (d * t mod s =? 0); nia. }
  eval_pow.
  destruct (int_truediv_cell (d * t) s j Hs Hj1 ltac:(lia) ltac:(eval_pow; nia))
    as (y & -> & Hy1 & Hy2).
  destruct (binary64_int a ltac:(eval_pow; nia)) as (fa & -> & Hfa).
  destruct (quotient_cell (d * t) s j Hs Hj1 Hj0) as [Hz1 Hz2].
  rewrite two_power_inject in Hz1, Hz2 by lia.
  pose proof (two_power_pos j) as Hpq.
  pose proof (two_power_inject j Hj0) as Hpz.
  cbn [obind].
  destruct (binary64_dyadic (fa + y) (a * 2 ^ j + cell_lo (d * t) s j)
              (a * 2 ^ j + cell_hi (d * t) s j) j)
    as (v & -> & Hv1 & Hv2); [lia | eval_pow; nia | eval_pow; nia | | |].
  - rewrite Hfa. by apply shift_cell.
  - rewrite Hfa. by apply shift_cell_up.
  - cbn [obind]. f_equal. apply (cell_agree a (d * t) s j); try done.
    + by apply shift_cell.
    + by apply shift_cell_up.
Qed.

(** Lines 152 and 158 between heights [a] and [b] over a span [s]. *)
Lemma interpolation_binary64_exact (a b t s : Z) :
  0 < s -> 0 <= t <= s -> (Z.abs a + Z.abs b + 1) * s <= 2 ^ 50 ->
  slope_binary64 a (b - a) t s = Ret (spec_interpolation a b t s).
Proof.
  intros Hs Ht Hb. unfold spec_interpolation.
  rewrite <- inject_Z_mult. apply slope_binary64_exact; [done | done|].
  eval_pow. nia.
Qed.

Lemma literal_fifth :
  literal 0.2 = (7205759403792794 # 36028797018963968)%Q.
Proof. by vm_compute. Qed.

Lemma scaled_literal (d : Z) (fd : Q) :
  (fd == inject_Z d)%Q ->
  (literal 0.2 * fd
   == inject_Z (7205759403792794 * d) / inject_Z 36028797018963968)%Q.
Proof.
  intros ->. rewrite literal_fifth, (Qmake_Qdiv 7205759403792794 36028797018963968).
  rewrite inject_Z_mult. field.
Qed.

Lemma fifth_exact (d : Z) :
  (0.2 * inject_Z d == inject_Z d / inject_Z 5)%Q.
Proof. field. Qed.

(** [int(0.2 * d)] in binary64 is [d] over 5 truncated toward zero for
    every draw of at most 50 bits, although the float 0.2 is not a fifth. *)
Lemma deviation_binary64_exact (d : Z) :
  Z.abs d <= 2 ^ 50 -> deviation_binary64 d = Ret (deviation_of d).
Proof.
  intros Hd. unfold deviation_binary64, deviation_of, HEIGHT_VARIATION_FACTOR.
  eval_pow.
  destruct (binary64_int d ltac:(eval_pow; lia)) as (fd & -> & Hfd). cbn [obind].
  pose proof (scaled_literal d fd Hfd) as Ey.
  pose proof (fifth_exact d) as Ez.
  assert (Hq : d = 5 * Z.quot d 5 + Z.rem d 5
               /\ (0 <= d -> 0 <= Z.rem d 5 <= 4)
               /\ (d <= 0 -> -4 <= Z.rem d 5 <= 0))
    by (Z.quot_rem_to_equations; lia).
  destruct Hq as (Hk & Hr' & Hr'').
  remember (Z.quot d 5) as k eqn:Ek. remember (Z.rem d 5) as r eqn:Er.
  assert (Edev : py_int (0.2 * inject_Z d) = k).
  { rewrite Ek. apply (deviation_of_quot d). }
  clear Er.
  set (l := if 0 <=? d then 8 * k else 8 * k - 7).
  set (u := if 0 <=? d then 8 * k + 7 else 8 * k).
  assert (Hbr : (inject_Z l / 2 ^ 3 <= literal 0.2 * fd)%Q
                /\ (literal 0.2 * fd <= inject_Z u / 2 ^ 3)%Q
                /\ (inject_Z l / 2 ^ 3 <= 0.2 * inject_Z d)%Q
                /\ (0.2 * inject_Z d <= inject_Z u / 2 ^ 3)%Q).
  { rewrite Ey, Ez. change (2 ^ 3)%Q with (inject_Z 8).
    unfold l, u. destruct (Z.leb_spec 0 d).
    - specialize (Hr' ltac:(lia)). repeat split; apply Qfrac_le; lia.
    - specialize (Hr'' ltac:(lia)). repeat split; apply Qfrac_le; lia. }
  destruct Hbr as (B1 & B2 & B3 & B4).
  destruct (binary64_dyadic (literal 0.2 * fd) l u 3) as (p & -> & Hp1 & Hp2);
    [lia | unfold l; destruct (0 <=? d); eval_pow; lia
    | unfold u; destruct (0 <=? d); eval_pow; lia | done | done |].
  cbn [obind]. f_equal.
  destruct (py_int_agree p (0.2 * inject_Z d) _ _ k Hp1 Hp2 B3 B4) as [-> _]; [|done].
  change (2 ^ 3)%Q with (inject_Z 8). unfold l, u.
  destruct (Z.leb_spec 0 d).
  - specialize (Hr' ltac:(lia)). left. split; [lia|].
    split; [apply Qint_le_frac | apply Qfrac_lt_int]; lia.
  - specialize (Hr'' ltac:(lia)). right. split; [lia|].
    split; [apply Qint_lt_frac | apply Qfrac_le_int]; lia.
Qed.

(** The randomized index in binary64: for list-sized bounds the float
    that line 94 truncates lies between [i0 + D/2] and
    [i0 + floor(3D/5) + 7/8], where [D = i1 - i0]. *)
Lemma aug_index_binary64_inside (i0 i1 : Z) (r : Q) :
  (0 <= r)%Q -> (r < 1)%Q -> 3 <= i1 - i0 ->
  Z.abs i0 <= 2 ^ 48 -> Z.abs i1 <= 2 ^ 48 ->
  exists i, aug_index_binary64 i0 i1 r = Ret i
    /\ i0 < i < i1
    /\ (0 <= i0 -> i0 + (i1 - i0) / 2 <= i /\ 5 * (i - i0) <= 3 * (i1 - i0)).
Proof.
  intros Hr0 Hr1 HD Hi0 Hi1. unfold aug_index_binary64, RANDOMIZATION_SCALE_FACTOR.
  eval_pow.
  remember (i1 - i0) as D eqn:ED.
  assert (HF : 5 * (3 * D / 5) <= 3 * D < 5 * (3 * D / 5) + 5)
    by (Z.div_mod_to_equations; lia).
  assert (HM : 2 * (D / 2) <= D < 2 * (D / 2) + 2)
    by (Z.div_mod_to_equations; lia).
  remember (3 * D / 5) as F eqn:EF. remember (D / 2) as Mid eqn:EM. clear EF EM.
  (* 0.2 * r *)
  destruct (binary64_dyadic (literal 0.2 * r) 0 7205759403792794 55)
    as (p & -> & Hp1 & Hp2); [lia | eval_pow; lia | eval_pow; lia | | |].
  { rewrite literal_fifth.
    assert (E : (inject_Z 0 / 2 ^ 55 == 0)%Q) by done. rewrite E.
    apply Qmult_le_0_compat; [done | done]. }
  { rewrite literal_fifth.
    change (inject_Z 7205759403792794 / 2 ^ 55)%Q
      with (7205759403792794 # 36028797018963968)%Q.
    assert (H : ((7205759403792794 # 36028797018963968) * r
                 <= (7205759403792794 # 36028797018963968) * 1)%Q).
    { apply Qmult_le_l; [done | lra]. }
    lra. }
  cbn [obind].
  assert (E0 : (inject_Z 0 / 2 ^ 55 == 0)%Q) by done. rewrite E0 in Hp1.
  change (inject_Z 7205759403792794 / 2 ^ 55)%Q
    with (7205759403792794 # 36028797018963968)%Q in Hp2.
  (* ... + 1 *)
  assert (E1 : (inject_Z 4503599627370496 / 2 ^ 52 == 1)%Q) by done.
  destruct (binary64_dyadic (p + 1) 4503599627370496 5404319552844596 52)
    as (u & -> & Hu1 & Hu2); [lia | eval_pow; lia | eval_pow; lia | | |].
  { rewrite E1. lra. }
  { change (inject_Z 5404319552844596 / 2 ^ 52)%Q
      with (5404319552844596 # 4503599627370496)%Q. lra. }
  cbn [obind].
  rewrite E1 in Hu1.
  change (inject_Z 5404319552844596 / 2 ^ 52)%Q
    with (5404319552844596 # 4503599627370496)%Q in Hu2.
  (* ... * (i1 - i0) *)
  destruct (binary64_int D ltac:(eval_pow; lia)) as (fd & -> & Hfd). cbn [obind].
  assert (HDq : (3 <= inject_Z D)%Q).
  { change 3%Q with (inject_Z 3). by rewrite <- Zle_Qle. }
  assert (HFq : ((5404319552844596 # 4503599627370496) * inject_Z D
                 <= inject_Z (8 * F + 7) / inject_Z 4)%Q).
  { rewrite (Qmake_Qdiv 5404319552844596 4503599627370496).
    setoid_replace (inject_Z 5404319552844596 / inject_Z 4503599627370496
                    * inject_Z D)%Q
      with (inject_Z (5404319552844596 * D) / inject_Z 4503599627370496)%Q using relation Qeq
      by (rewrite inject_Z_mult; field).
    apply Qfrac_le; lia. }
  destruct (binary64_dyadic (u * fd) (4 * D) (8 * F + 7) 2)
    as (v & -> & Hv1 & Hv2); [lia | eval_pow; lia | eval_pow; lia | | |].
  { change (2 ^ 2)%Q with (inject_Z 4). rewrite Hfd.
    setoid_replace (inject_Z (4 * D) / inject_Z 4)%Q with (inject_Z D)%Q using relation Qeq
      by (rewrite inject_Z_mult; field). nra. }
  { change (2 ^ 2)%Q with (inject_Z 4). rewrite Hfd.
    apply Qle_trans with ((5404319552844596 # 4503599627370496) * inject_Z D)%Q;
      [nra | done]. }
  cbn [obind].
  (* ... / 2 *)
  destruct (binary64_dyadic (v / 2) (4 * D) (8 * F + 7) 3)
    as (h & -> & Hh1 & Hh2); [lia | eval_pow; lia | eval_pow; lia | | |].
  { change (2 ^ 3)%Q with (inject_Z 4 * 2)%Q. change (2 ^ 2)%Q with (inject_Z 4) in Hv1.
    setoid_replace (inject_Z (4 * D) / (inject_Z 4 * 2))%Q
      with (inject_Z (4 * D) / inject_Z 4 / 2)%Q using relation Qeq by field.
    apply Qle_shift_div_l; [done|].
    setoid_replace (inject_Z (4 * D) / inject_Z 4 / 2 * 2)%Q
      with (inject_Z (4 * D) / inject_Z 4)%Q using relation Qeq by field. done. }
  { change (2 ^ 3)%Q with (inject_Z 4 * 2)%Q. change (2 ^ 2)%Q with (inject_Z 4) in Hv2.
    setoid_replace (inject_Z (8 * F + 7) / (inject_Z 4 * 2))%Q
      with (inject_Z (8 * F + 7) / inject_Z 4 / 2)%Q using relation Qeq by field.
    apply Qle_shift_div_r; [done|].
    setoid_replace (inject_Z (8 * F + 7) / inject_Z 4 / 2 * 2)%Q
      with (inject_Z (8 * F + 7) / inject_Z 4)%Q using relation Qeq by field. done. }
  cbn [obind].
  (* i0 + ... *)
  destruct (binary64_int i0 ltac:(eval_pow; lia)) as (f0 & -> & Hf0). cbn [obind].
  change (2 ^ 3)%Q with (inject_Z 8) in Hh1, Hh2.
  destruct (binary64_dyadic (f0 + h) (i0 * 8 + 4 * D) (i0 * 8 + (8 * F + 7)) 3)
    as (x & -> & Hx1 & Hx2); [lia | eval_pow; lia | eval_pow; lia | | |].
  { rewrite Hf0. change (2 ^ 3)%Q with (inject_Z 8).
    by apply (shift_cell i0 (4 * D) (inject_Z 8) h). }
  { rewrite Hf0. change (2 ^ 3)%Q with (inject_Z 8).
    by apply (shift_cell_up i0 (8 * F + 7) (inject_Z 8) h). }
  cbn [obind]. change (2 ^ 3)%Q with (inject_Z 8) in Hx1, Hx2.
  (* int(...) and the two adjustments *)
  assert (Hlo1 : (inject_Z (i0 + 1) <= x)%Q).
  { apply Qle_trans with (inject_Z (i0 * 8 + 4 * D) / inject_Z 8)%Q; [|done].
    apply Qint_le_frac; lia. }
  assert (Hhi1 : (x < inject_Z (i0 + F + 1))%Q).
  { apply Qle_lt_trans with (inject_Z (i0 * 8 + (8 * F + 7)) / inject_Z 8)%Q; [done|].
    apply Qfrac_lt_int; lia. }
  pose proof (py_int_bounds x (i0 + 1) (i0 + F + 1) Hlo1 ltac:(lra)) as Hb.
  exists (py_int x).
  destruct (Z.eqb_spec (py_int x) i0); [lia|].
  destruct (Z.eqb_spec (py_int x) i1); [lia|].
  split; [done|]. split; [lia|]. intros H0.
  assert (Hlo2 : (inject_Z (i0 + Mid) <= x)%Q).
  { apply Qle_trans with (inject_Z (i0 * 8 + 4 * D) / inject_Z 8)%Q; [|done].
    apply Qint_le_frac; lia. }
  pose proof (py_int_bounds x (i0 + Mid) (i0 + F + 1) Hlo2 ltac:(lra)) as Hb2.
  assert (Hx0 : (0 <= x)%Q).
  { apply Qle_trans with (inject_Z (i0 + 1)); [|done].
    change 0%Q with (inject_Z 0). rewrite <- Zle_Qle. lia. }
  pose proof (py_int_floor x Hx0) as Hfl.
  assert (py_int x < i0 + F + 1) by (rewrite Zlt_Qlt; lra).
  lia.
Qed.

(** C2, as stated, fails for bounds beyond the integers that a float
    holds exactly.  With [i0 = 2^54 + 1] and [i1 = 2^54 + 4] the span is 3,
    so the selector draws; [float(i0)] is [2^54] and the sum of line 94
    rounds to [2^54] again, for the least draw and for the greatest
    alike: the index returned is [2^54], below [i0]. *)
Lemma randAugIndex_below_lower_bound :
  2 ^ 54 + 1 <= 2 ^ 54 + 4
  /\ aug_index_binary64 (2 ^ 54 + 1) (2 ^ 54 + 4) 0 = Ret (2 ^ 54)
  /\ aug_index_binary64 (2 ^ 54 + 1) (2 ^ 54 + 4) (1 - (1 # 9007199254740992))
     = Ret (2 ^ 54)
  /\ 2 ^ 54 < 2 ^ 54 + 1.
Proof. by vm_compute. Qed.

(** C2, amended to list-sized bounds.  For bounds [i0 <= i1] of at most
    48 bits and every state of the generator, the selector returns an
    index of [i0..i1]; for a span of 0 or 1 it is [i0], for a span of 2
    it is [i0 + 1], in both cases without touching the generator; for a
    span of at least 3 exactly one draw is consumed and the index is
    strictly inside.  So is the index that the binary64 evaluation of
    lines 94 to 98 yields, for that draw and for any value [r] of [0, 1)
    whatever. *)
Theorem randAugIndex_midpoint (i0 i1 : Z) (st : state) :
  i0 <= i1 -> Z.abs i0 <= 2 ^ 48 -> Z.abs i1 <= 2 ^ 48 ->
  (exists i st',
     randAugIndex i0 i1 st = (Ret i, st')
     /\ i0 <= i <= i1
     /\ (i1 - i0 = 0 \/ i1 - i0 = 1 -> i = i0 /\ st' = st)
     /\ (i1 - i0 = 2 -> i = i0 + 1 /\ st' = st)
     /\ (3 <= i1 - i0 ->
         i0 < i < i1
         /\ exists r, (0 <= r)%Q /\ (r < 1)%Q
              /\ random st = (Ret r, st')
              /\ world_map st' = world_map st
              /\ random_state st' = snd (next_word (random_state st))
              /\ exists i', aug_index_binary64 i0 i1 r = Ret i' /\ i0 < i' < i1))
  /\ (forall r, (0 <= r)%Q -> (r < 1)%Q -> 3 <= i1 - i0 ->
        i0 < aug_index i0 i1 r < i1
        /\ exists i', aug_index_binary64 i0 i1 r = Ret i' /\ i0 < i' < i1).
Proof.
  intros Hle Hb0 Hb1.
  assert (Hcode : forall r, (0 <= r)%Q -> (r < 1)%Q -> 3 <= i1 - i0 ->
            exists i', aug_index_binary64 i0 i1 r = Ret i' /\ i0 < i' < i1).
  { intros r Hr0 Hr1 Hd.
    destruct (aug_index_binary64_inside i0 i1 r Hr0 Hr1 Hd Hb0 Hb1)
      as (i' & Hi' & Hin & _).
    by exists i'. }
  split.
  2:{ intros r Hr0 Hr1 Hd. split; [by apply aug_index_interior | by apply Hcode]. }
  unfold randAugIndex.
  destruct (Z.eqb_spec i0 i1).
  { exists i0, st. simpl. repeat split; try lia; intros; lia. }
  destruct (Z.ltb_spec i1 i0); [lia|]. simpl.
  destruct (Z.eqb_spec (i0 + 1) i1).
  { exists i0, st. repeat split; try lia; intros; lia. }
  destruct (Z.eqb_spec (i0 + 2) i1).
  { exists (i0 + 1), st. repeat split; try lia; intros; lia. }
  destruct (random_unit_interval st) as (r & Hr & Hr0 & Hr1).
  unfold bind. rewrite Hr.
  pose proof (aug_index_interior i0 i1 r Hr0 Hr1 ltac:(lia)) as Hin.
  eexists _, _. split; [reflexivity|].
  split; [lia|]. split; [intros; lia|]. split; [intros; lia|].
  intros Hd. split; [done|].
  exists r. split; [done|]. split; [done|]. split; [done|].
  split; [done|]. split; [done|]. by apply Hcode.
Qed.

Lemma randAugIndex_midpoint_witness :
  2 <= 9 /\ Z.abs 2 <= 2 ^ 48 /\ Z.abs 9 <= 2 ^ 48 /\
  exists i st',
    randAugIndex 2 9 (mkState [[0]] (replay [4503599627370496] 0)) = (Ret i, st')
    /\ 2 <= i <= 9 /\ (3 <= 9 - 2 -> 2 < i < 9).
Proof.
  assert (H2 : Z.abs 2 <= 2 ^ 48) by (vm_compute; discriminate).
  assert (H9 : Z.abs 9 <= 2 ^ 48) by (vm_compute; discriminate).
  split; [lia|]. split; [exact H2|]. split; [exact H9|].
  destruct (randAugIndex_midpoint 2 9 (mkState [[0]] (replay [4503599627370496] 0))
              ltac:(lia) H2 H9)
    as [(i & st' & H & Hr & _ & _ & Hin) _].
  exists i, st'. split; [exact H|]. split; [exact Hr|].
  intros Hd. exact (proj1 (Hin Hd)).
Defined.

(** ** The monad *)

Lemma bind_cong {A B} (m m' : M A) (k k' : A -> M B) (st : state) :
  m st = m' st ->
  (forall a st', m st = (Ret a, st') -> k a st' = k' a st') ->
  bind m k st = bind m' k' st.
Proof.
  intros Hm Hk. unfold bind. rewrite <- Hm.
  destruct (m st) as [[a| |] st'] eqn:E; auto.
Qed.

(** ** Termination of the recursion *)

Lemma fuel_free_ret {A} (a : A) : fuel_free (ret a).
Proof. by intros st. Qed.

Lemma fuel_free_raise {A} (e : exn) : fuel_free (@raise A e).
Proof. by intros st. Qed.

Lemma fuel_free_bind_post {A B} (m : M A) (k : A -> M B) (Q : A -> Prop) :
  fuel_free m ->
  (forall st a st', m st = (Ret a, st') -> Q a) ->
  (forall a, Q a -> fuel_free (k a)) ->
  fuel_free (bind m k).
Proof.
  intros Hm HQ Hk st. unfold bind. specialize (Hm st).
  destruct (m st) as [[a| |] st'] eqn:E; simpl in *; try done.
  apply Hk. eauto.
Qed.

Lemma fuel_free_bind {A B} (m : M A) (k : A -> M B) :
  fuel_free m -> (forall a, fuel_free (k a)) -> fuel_free (bind m k).
Proof.
  intros Hm Hk. apply fuel_free_bind_post with (Q := fun _ => True); auto.
Qed.

Lemma fuel_free_getitem (x y : Z) : fuel_free (getitem x y).
Proof. intros st. unfold getitem. by case_match. Qed.

Lemma fuel_free_setitem (x y v : Z) : fuel_free (setitem x y v).
Proof. intros st. unfold setitem. by case_match. Qed.

Lemma fuel_free_randint (a b : Z) : fuel_free (randint a b).
Proof. intros st. unfold randint. by case_match. Qed.

Lemma fuel_free_random : fuel_free random.
Proof. by intros st. Qed.

Lemma fuel_free_truediv (n d : Z) : fuel_free (truediv n d).
Proof. intros st. unfold truediv. by case_match. Qed.

Lemma fuel_free_for {A} (xs : list A) (body : A -> M unit) :
  (forall x, fuel_free (body x)) -> fuel_free (for_ xs body).
Proof.
  intros Hb. induction xs as [|x xs IH]; simpl.
  - apply fuel_free_ret.
  - apply fuel_free_bind; auto.
Qed.

Create HintDb fuel.
#[local] Hint Resolve fuel_free_ret fuel_free_raise fuel_free_getitem
  fuel_free_setitem fuel_free_randint fuel_free_random fuel_free_truediv
  fuel_free_for : fuel.
#[local] Hint Extern 2 (fuel_free (bind _ _)) =>
  apply fuel_free_bind; [|intros ?] : fuel.

Lemma fuel_free_dev (x0 y0 x1 y1 : Z) : fuel_free (dev x0 y0 x1 y1).
Proof. unfold dev. auto with fuel. Qed.

Lemma fuel_free_randAugIndex (i0 i1 : Z) : fuel_free (randAugIndex i0 i1).
Proof. unfold randAugIndex. repeat case_match; auto with fuel. Qed.

Lemma fuel_free_column_assign (i y0 y1 y : Z) : fuel_free (column_assign i y0 y1 y).
Proof. unfold column_assign, slope. auto 20 with fuel. Qed.

Lemma fuel_free_row_assign (x0 x1 j x : Z) : fuel_free (row_assign x0 x1 j x).
Proof. unfold row_assign, slope. auto 20 with fuel. Qed.

#[local] Hint Resolve fuel_free_dev fuel_free_randAugIndex
  fuel_free_column_assign fuel_free_row_assign : fuel.

Lemma fuel_free_Diamond (x0 y0 x1 y1 i j : Z) : fuel_free (Diamond x0 y0 x1 y1 i j).
Proof. unfold Diamond. auto 20 with fuel. Qed.

Lemma fuel_free_Square (x0 y0 x1 y1 i j : Z) : fuel_free (Square x0 y0 x1 y1 i j).
Proof. unfold Square. auto 40 with fuel. Qed.

#[local] Hint Resolve fuel_free_Diamond fuel_free_Square : fuel.

Lemma randAugIndex_value (i0 i1 : Z) (st st' : state) (i : Z) :
  randAugIndex i0 i1 st = (Ret i, st') -> i = i0 \/ i0 < i < i1.
Proof.
  intros H. destruct (randAugIndex_cases i0 i1 st) as (i' & st'' & H' & _ & Hi).
  rewrite H in H'. by simplify_eq.
Qed.

Lemma general_case_interior (x0 x1 i : Z) :
  (i = x0 \/ x0 < i < x1) -> (i =? x0) || (i =? x1) = false -> x0 < i < x1.
Proof.
  intros Hi Hb. apply orb_false_elim in Hb as [H0 H1].
  apply Z.eqb_neq in H0, H1. lia.
Qed.


Lemma auxRandAugDS_fuel_irrelevant (fuel : nat) :
  forall fuel' x0 y0 x1 y1 st,
    (Z.to_nat (x1 - x0) < fuel)%nat -> (Z.to_nat (x1 - x0) < fuel')%nat ->
    auxRandAugDS fuel x0 y0 x1 y1 st = auxRandAugDS fuel' x0 y0 x1 y1 st.
Proof.
  induction fuel as [|fuel IH]; intros fuel' x0 y0 x1 y1 st Hf Hf'; [lia|].
  destruct fuel' as [|fuel']; [lia|].
  simpl. destruct ((x0 =? x1) && (y0 =? y1)); [done|].
  apply bind_cong; [done|]. intros i st1 Hi. apply randAugIndex_value in Hi.
  apply bind_cong; [done|]. intros j st2 _.
  destruct ((i =? x0) || (i =? x1)) eqn:Ei; [done|].
  destruct ((j =? y0) || (j =? y1)) eqn:Ej; [done|].
  pose proof (general_case_interior _ _ _ Hi Ei) as Hin.
  apply bind_cong; [done|]. intros _ st3 _.
  apply bind_cong; [done|]. intros _ st4 _.
  apply bind_cong; [apply IH; lia|]. intros _ st5 _.
  apply bind_cong; [apply IH; lia|]. intros _ st6 _.
  apply bind_cong; [apply IH; lia|]. intros _ st7 _.
  apply IH; lia.
Qed.



(** ** Reads and writes *)

Lemma elem_of_range (a b y : Z) : y ∈ range a b <-> a <= y < b.
Proof. unfold range. rewrite elem_of_seqZ. lia. Qed.

Lemma getitem_run (x y v : Z) (st : state) :
  grid_get (world_map st) x y = Some v -> getitem x y st = (Ret v, st).
Proof. intros H. unfold getitem. by rewrite H. Qed.

Lemma setitem_run (x y v : Z) (st : state) (g' : list (list Z)) :
  grid_set (world_map st) x y v = Some g' ->
  setitem x y v st = (Ret tt, mkState g' (random_state st)).
Proof. intros H. unfold setitem. by rewrite H. Qed.

Lemma bind_run {A B} (m : M A) (k : A -> M B) (st st' : state) (a : A) :
  m st = (Ret a, st') -> bind m k st = k a st'.
Proof. intros H. unfold bind. by rewrite H. Qed.

(** ** The column-degenerate branch *)

Lemma slope_run (a d t s : Z) (st : state) :
  s <> 0 ->
  slope a d t s st = (Ret (py_int (inject_Z a + inject_Z (d * t) / inject_Z s)), st).
Proof.
  intros Hs. unfold slope, truediv. apply Z.eqb_neq in Hs. by rewrite Hs.
Qed.

Lemma column_assign_run (g : list (list Z)) (rng : RandomSource)
    (i y0 y1 y a b : Z) (row : list Z) :
  0 <= i -> g !! Z.to_nat i = Some row ->
  0 <= y0 -> y0 < y < y1 -> y1 < Z.of_nat (length row) ->
  row !! Z.to_nat y0 = Some a -> row !! Z.to_nat y1 = Some b ->
  column_assign i y0 y1 y (mkState g rng)
  = (Ret tt,
     mkState (<[Z.to_nat i :=
                 <[Z.to_nat y := spec_interpolation a b (y - y0) (y1 - y0)]> row]> g)
             rng).
Proof.
  intros Hi Hrow Hy0 Hy Hy1 Ha Hb. unfold column_assign.
  assert (Ga : grid_get g i y0 = Some a) by (rewrite grid_get_nonneg, Hrow; [done|lia..]).
  assert (Gb : grid_get g i y1 = Some b) by (rewrite grid_get_nonneg, Hrow; [done|lia..]).
  rewrite (bind_run _ _ _ _ _ (getitem_run i y0 a (mkState g rng) Ga)).
  rewrite (bind_run _ _ _ _ _ (getitem_run i y1 b (mkState g rng) Gb)).
  rewrite (bind_run _ _ _ _ _ (getitem_run i y0 a (mkState g rng) Ga)).
  rewrite (bind_run _ _ _ _ _ (slope_run a (b - a) (y - y0) (y1 - y0) _ ltac:(lia))).
  erewrite setitem_run; [reflexivity|].
  simpl. apply grid_set_nonneg; [done | done | lia].
Qed.

Lemma column_loop (i y0 y1 a b : Z) (ys : list Z) :
  forall (g : list (list Z)) (rng : RandomSource) (row : list Z),
    0 <= i -> g !! Z.to_nat i = Some row ->
    0 <= y0 -> y1 < Z.of_nat (length row) ->
    row !! Z.to_nat y0 = Some a -> row !! Z.to_nat y1 = Some b ->
    Forall (fun y => y0 < y < y1) ys ->
    exists row',
      for_ ys (fun y => column_assign i y0 y1 y ;; column_assign i y0 y1 y)
           (mkState g rng)
      = (Ret tt, mkState (<[Z.to_nat i := row']> g) rng)
      /\ length row' = length row
      /\ (forall y, y ∈ ys ->
            row' !! Z.to_nat y = Some (spec_interpolation a b (y - y0) (y1 - y0)))
      /\ (forall k, (forall y, y ∈ ys -> Z.to_nat y <> k) -> row' !! k = row !! k).
Proof.
  induction ys as [|y ys IH]; intros g rng row Hi Hrow Hy0 Hy1 Ha Hb Hys.
  - exists row. simpl. unfold ret. rewrite list_insert_id by done.
    split; [done|]. split; [done|]. split; [|done].
    intros y Hy. by apply elem_of_nil in Hy.
  - apply Forall_cons in Hys as [Hy Hys].
    set (v := spec_interpolation a b (y - y0) (y1 - y0)).
    set (row1 := <[Z.to_nat y := v]> row).
    set (g1 := <[Z.to_nat i := row1]> g).
    assert (Hlt : (Z.to_nat i < length g)%nat) by (by eapply lookup_lt_Some).
    assert (Hrow1 : g1 !! Z.to_nat i = Some row1)
      by (by apply list_lookup_insert_eq).
    assert (Hlen1 : length row1 = length row) by apply length_insert.
    assert (Ha1 : row1 !! Z.to_nat y0 = Some a)
      by (unfold row1; rewrite list_lookup_insert_ne by lia; done).
    assert (Hb1 : row1 !! Z.to_nat y1 = Some b)
      by (unfold row1; rewrite list_lookup_insert_ne by lia; done).
    set (row2 := <[Z.to_nat y := v]> row1).
    set (g2 := <[Z.to_nat i := row2]> g1).
    destruct (IH g2 rng row2) as (row' & Hrun & Hlen & Hin & Hout).
    + done.
    + apply list_lookup_insert_eq. unfold g1. by rewrite length_insert.
    + done.
    + unfold row2. rewrite length_insert. lia.
    + unfold row2. rewrite list_lookup_insert_ne by lia. done.
    + unfold row2. rewrite list_lookup_insert_ne by lia. done.
    + done.
    + exists row'. split; [|split; [|split]].
      * simpl. unfold bind at 1. unfold bind at 1.
        rewrite (column_assign_run g rng i y0 y1 y a b row) by done.
        fold v row1 g1.
        rewrite (column_assign_run g1 rng i y0 y1 y a b row1) by (done || lia).
        fold v row2 g2. rewrite Hrun. unfold g2, g1.
        by rewrite !list_insert_insert_eq.
      * rewrite Hlen. unfold row2. by rewrite !length_insert.
      * intros y' [->|Hy']%elem_of_cons; [|by apply Hin].
        destruct (decide (y ∈ ys)) as [Hyy|Hyy]; [by apply Hin|].
        rewrite Hout.
        -- unfold row2. apply list_lookup_insert_eq. rewrite Hlen1. lia.
        -- intros y' Hy' Heq. apply Hyy.
           rewrite Forall_forall in Hys. specialize (Hys _ Hy').
           by replace y with y' by lia.
      * intros k Hk. rewrite Hout.
        -- unfold row2, row1. rewrite !list_lookup_insert_ne; [done|..];
             apply Hk; left.
        -- intros y' Hy'. apply Hk. by right.
Qed.

(** C4, as stated, fails for heights that a float does not hold
    exactly.  Between the heights [2^53] and [2^53 + 2], at the middle of
    a span of 2, the formula of the claim gives [2^53 + 1]; line 152 adds
    the float 1.0 to [2^53], which rounds back to [2^53]. *)
Lemma column_interpolation_rounds :
  slope_binary64 (2 ^ 53) (2 ^ 53 + 2 - 2 ^ 53) (1 - 0) (2 - 0) = Ret (2 ^ 53)
  /\ spec_interpolation (2 ^ 53) (2 ^ 53 + 2) (1 - 0) (2 - 0) = 2 ^ 53 + 1.
Proof. by vm_compute. Qed.

(** C4, amended to heights and spans whose product stays below 2^50.
    When the driver takes the column-degenerate branch on a region whose
    line [i] holds the endpoint heights [a] at [y0] and [b] at [y1], with
    [(|a| + |b| + 1) * (y1 - y0) <= 2^50], it returns with every cell of
    line [i] strictly between [y0] and [y1] equal to the interpolation of
    [a] and [b], truncated toward zero -- the very integer that line 152
    computes in binary64 -- and with every other cell of the grid, those
    outside line [i] in particular, as it was; the generator is where the
    two index selections left it. *)
Theorem column_degenerate_interpolation
    (fuel : nat) (x0 y0 x1 y1 i j a b : Z) (st st1 st2 : state) :
  (x0 =? x1) && (y0 =? y1) = false ->
  randAugIndex x0 x1 st = (Ret i, st1) ->
  randAugIndex y0 y1 st1 = (Ret j, st2) ->
  i = x0 \/ i = x1 ->
  0 <= i -> 0 <= y0 <= y1 ->
  grid_get (world_map st) i y0 = Some a ->
  grid_get (world_map st) i y1 = Some b ->
  (Z.abs a + Z.abs b + 1) * (y1 - y0) <= 2 ^ 50 ->
  exists st',
    auxRandAugDS (S fuel) x0 y0 x1 y1 st = (Ret tt, st')
    /\ random_state st' = random_state st2
    /\ (forall y, y0 < y < y1 ->
          grid_get (world_map st') i y
          = Some (spec_interpolation a b (y - y0) (y1 - y0))
          /\ slope_binary64 a (b - a) (y - y0) (y1 - y0)
             = Ret (spec_interpolation a b (y - y0) (y1 - y0)))
    /\ (forall x y, 0 <= x -> 0 <= y -> ~ (x = i /\ y0 < y < y1) ->
          grid_get (world_map st') x y = grid_get (world_map st) x y).
Proof.
  intros Hterm Hi Hj Hdeg Hi0 Hy Ha Hb Hmag.
  assert (Hw1 : world_map st1 = world_map st).
  { destruct (randAugIndex_cases x0 x1 st) as (? & ? & E & Hw & _).
    rewrite Hi in E. by simplify_eq. }
  assert (Hw2 : world_map st2 = world_map st).
  { destruct (randAugIndex_cases y0 y1 st1) as (? & ? & E & Hw & _).
    rewrite Hj in E. simplify_eq. congruence. }
  rewrite grid_get_nonneg in Ha, Hb by lia.
  destruct (world_map st !! Z.to_nat i) as [row|] eqn:Hrow; [|done].
  assert (Hlen : y1 < Z.of_nat (length row)).
  { apply lookup_lt_Some in Hb. lia. }
  destruct st2 as [g2 rng2]. simpl in Hw2. subst g2.
  destruct (column_loop i y0 y1 a b (range (y0 + 1) y1) (world_map st) rng2 row)
    as (row' & Hrun & Hlen' & Hin & Hout); try done; try lia.
  { apply Forall_forall. intros y Hy'. apply elem_of_range in Hy'. lia. }
  eexists. split; [|split; [|split]].
  - simpl. rewrite Hterm. rewrite (bind_run _ _ _ _ _ Hi).
    rewrite (bind_run _ _ _ _ _ Hj).
    assert (Hb' : (i =? x0) || (i =? x1) = true).
    { destruct Hdeg as [->| ->]; rewrite Z.eqb_refl; [done|apply orb_true_r]. }
    rewrite Hb'. exact Hrun.
  - done.
  - intros y Hy'. split.
    + simpl. rewrite grid_get_nonneg by lia.
      rewrite list_lookup_insert_eq by (by eapply lookup_lt_Some).
      apply Hin. apply elem_of_range. lia.
    + apply interpolation_binary64_exact; lia.
  - intros x y Hx Hy0 Hne. simpl. rewrite !grid_get_nonneg by lia.
    destruct (decide (Z.to_nat i = Z.to_nat x)) as [Heq|Hneq].
    + rewrite <- Heq, Hrow.
      rewrite list_lookup_insert_eq by (by eapply lookup_lt_Some).
      apply Hout. intros y' Hy' Hyy. apply elem_of_range in Hy'.
      apply Hne. split; lia.
    + by rewrite list_lookup_insert_ne.
Qed.

Lemma column_degenerate_interpolation_witness :
  let st := mkState [[3; 0; 0; 0; 9]] (replay [0] 0) in
  (0 <= 0 <= 4) /\ (Z.abs 3 + Z.abs 9 + 1) * (4 - 0) <= 2 ^ 50 /\
  exists st',
    auxRandAugDS 1 0 0 0 4 st = (Ret tt, st')
    /\ (forall y, 0 < y < 4 ->
          grid_get (world_map st') 0 y = Some (spec_interpolation 3 9 (y - 0) (4 - 0))
          /\ slope_binary64 3 (9 - 3) (y - 0) (4 - 0)
             = Ret (spec_interpolation 3 9 (y - 0) (4 - 0))).
Proof.
  intros st.
  assert (Hm : (Z.abs 3 + Z.abs 9 + 1) * (4 - 0) <= 2 ^ 50) by (vm_compute; discriminate).
  split; [lia|]. split; [exact Hm|].
  destruct (column_degenerate_interpolation 0 0 0 0 4 0 2 3 9 st st
              (mkState [[3; 0; 0; 0; 9]] (mkSource (entropy (replay [0] 0)) 1)))
    as (st' & Hrun & _ & Hin & _);
    [reflexivity | reflexivity | reflexivity | left; reflexivity | lia | lia
    | reflexivity | reflexivity | exact Hm |].
  exists st'. split; [exact Hrun | exact Hin].
Defined.

(** ** The row-degenerate branch *)

(** C1. On a 3 by 1 grid whose two ends hold 0 and 2 the driver selects
    [i = 1], [j = 0] and takes the row-degenerate branch; it writes -1 in
    the middle cell, where interpolating between the ends gives 1: the
    loop adds the difference [grid[x0][j] - grid[x1][j]], with the sign
    opposite to the one of the column loop. *)
Theorem row_degenerate_extrapolates :
  randAugIndex 0 2 (mkState [[0]; [0]; [2]] (replay [] 0))
  = (Ret 1, mkState [[0]; [0]; [2]] (replay [] 0))
  /\ randAugIndex 0 0 (mkState [[0]; [0]; [2]] (replay [] 0))
     = (Ret 0, mkState [[0]; [0]; [2]] (replay [] 0))
  /\ auxRandAugDS (enough_fuel 0 0 2 0) 0 0 2 0 (mkState [[0]; [0]; [2]] (replay [] 0))
     = (Ret tt, mkState [[0]; [-1]; [2]] (replay [] 0))
  /\ spec_interpolation 0 2 (1 - 0) (2 - 0) = 1
  /\ run (randAugDS (replay [1; 0; 1; 2]) 7) (zeros 3 1)
     = (Ret [[0]; [-1]; [2]], [[0]; [-1]; [2]]).
Proof. repeat split. Qed.

(** ** Grids with a single line *)

(** C10. On a 1 by 3 grid of zeros whose two ends draw 0, the interpolated
    middle cell is 0 and Edge Cleanup, repairing it, reads [world_map[1][1]]
    in a grid that has one row: the run stops on [IndexError].  The same
    happens on the 3 by 1 grid with [world_map[1][1]] in a row of one cell. *)
Theorem edgeCleanup_single_line_out_of_range :
  run (randAugDS (replay [1; 1; 0; 0]) 41) (zeros 1 3)
  = (Raise IndexError, [[0; 0; 0]])
  /\ run edgeCleanup [[0; 0; 0]] = (Raise IndexError, [[0; 0; 0]])
  /\ grid_get [[0; 0; 0]] 1 1 = None
  /\ run (randAugDS (replay [0; 0; 0; 0]) 0) (zeros 3 1)
     = (Raise IndexError, [[0]; [0]; [0]]).
Proof. repeat split. Qed.

(** ** Inputs outside the contract *)

(** C5, as stated, fails: a jagged grid is accepted and filled without any
    error. *)
Lemma jagged_grid_accepted :
  run (randAugDS (replay [1; 0; 1; 0]) 0) [[0; 0]; [0; 0; 0]]
  = (Ret [[1; 0]; [1; 0; 0]], [[1; 0]; [1; 0; 0]]).
Proof. reflexivity. Qed.

Lemma norm_nonneg (n k : Z) : 0 <= k -> norm n k = k.
Proof. intros Hk. unfold norm. destruct (Z.ltb_spec k 0); lia. Qed.

Lemma randint_run (a b : Z) (st : state) :
  a <= b ->
  randint a b st
  = (Ret (nth_randint (random_state st) 0 a b),
     mkState (world_map st) (snd (next_word (random_state st)))).
Proof.
  intros Hab. unfold randint, nth_randint. destruct (Z.ltb_spec b a); [lia|].
  simpl. by rewrite Nat.add_0_r.
Qed.

Lemma nth_randint_next (s : RandomSource) (k : nat) (a b : Z) :
  nth_randint (snd (next_word s)) k a b = nth_randint s (S k) a b.
Proof. unfold nth_randint. simpl. do 3 f_equal. lia. Qed.

Lemma nth_randint_range (s : RandomSource) (k : nat) (a b : Z) :
  a <= b -> a <= nth_randint s k a b <= b.
Proof.
  intros Hab. unfold nth_randint.
  pose proof (Z.mod_pos_bound (entropy s (cursor s + k)) (b - a + 1)). lia.
Qed.

(** *** No exception but [IndexError] *)

Lemma benign_ret {A} (a : A) (Q : A -> Prop) : Q a -> benign (ret a) Q.
Proof. intros HQ st. by split. Qed.

Lemma benign_bind {A B} (m : M A) (k : A -> M B) (Q : A -> Prop) (R : B -> Prop) :
  benign m Q -> (forall a, Q a -> benign (k a) R) -> benign (bind m k) R.
Proof.
  intros Hm Hk st. specialize (Hm st). unfold bind.
  destruct (m st) as [[a|e|] st1]; simpl in *; [|done|done].
  destruct Hm as [Hc HQ]. destruct (Hk a HQ st1) as [Hc' HR].
  split; [lia | done].
Qed.

Lemma benign_for {A} (xs : list A) (body : A -> M unit) :
  (forall x, x ∈ xs -> benign (body x) (fun _ => True)) ->
  benign (for_ xs body) (fun _ => True).
Proof.
  induction xs as [|x xs IH]; intros Hb; simpl.
  - by apply benign_ret.
  - eapply benign_bind; [apply Hb; by left|]. intros _ _.
    apply IH. intros x' Hx'. apply Hb. by right.
Qed.

Lemma benign_weaken {A} (m : M A) (Q R : A -> Prop) :
  benign m Q -> (forall a, Q a -> R a) -> benign m R.
Proof.
  intros Hm HQR st. destruct (Hm st) as [Hc Ho]. split; [done|].
  destruct (fst (m st)); auto.
Qed.

Lemma benign_len_world : benign len_world (fun _ => True).
Proof. intros st. by split. Qed.

Lemma benign_len_row (x : Z) : benign (len_row x) (fun _ => True).
Proof. intros st. unfold len_row. by destruct (py_get (world_map st) x). Qed.

Lemma benign_getitem (x y : Z) : benign (getitem x y) (fun _ => True).
Proof. intros st. unfold getitem. by destruct (grid_get (world_map st) x y). Qed.

Lemma benign_setitem (x y v : Z) : benign (setitem x y v) (fun _ => True).
Proof. intros st. unfold setitem. by destruct (grid_set (world_map st) x y v). Qed.

Lemma benign_randint (a b : Z) :
  a <= b -> benign (randint a b) (fun v => a <= v <= b).
Proof.
  intros Hab st. unfold randint. destruct (Z.ltb_spec b a); [lia|]. simpl.
  split; [lia|].
  pose proof (Z.mod_pos_bound (entropy (random_state st) (cursor (random_state st)))
                (b - a + 1)). lia.
Qed.

Lemma benign_randAugIndex (i0 i1 : Z) :
  benign (randAugIndex i0 i1) (fun i => i = i0 \/ i0 < i < i1).
Proof.
  intros st.
  destruct (randAugIndex_cases i0 i1 st) as (i & st' & Hrun & _ & Hi).
  rewrite Hrun. simpl. split; [|done].
  revert Hrun. unfold randAugIndex, ret.
  destruct ((i0 =? i1) || (i1 <? i0)); [intros ?; by simplify_eq|].
  destruct (i0 + 1 =? i1); [intros ?; by simplify_eq|].
  destruct (i0 + 2 =? i1); [intros ?; by simplify_eq|].
  destruct (random_unit_interval st) as (r & Hr & _).
  rewrite (bind_run _ _ _ _ _ Hr). intros ?. simplify_eq. simpl. lia.
Qed.

Lemma benign_truediv (n d : Z) : d <> 0 -> benign (truediv n d) (fun _ => True).
Proof.
  intros Hd. unfold truediv. apply Z.eqb_neq in Hd. rewrite Hd.
  by apply benign_ret.
Qed.

Lemma benign_slope (a d t s : Z) : s <> 0 -> benign (slope a d t s) (fun _ => True).
Proof.
  intros Hs. unfold slope. eapply benign_bind; [by apply benign_truediv|].
  intros q _. by apply benign_ret.
Qed.

Lemma benign_dev (x0 y0 x1 y1 : Z) :
  0 <= Z.max (x1 - x0) (y1 - y0) -> benign (dev x0 y0 x1 y1) (fun _ => True).
Proof.
  intros Hm. unfold dev. eapply benign_bind; [apply benign_randint; lia|].
  intros d _. by apply benign_ret.
Qed.

Ltac benign_prim :=
  first [ apply benign_getitem
        | apply benign_setitem
        | apply benign_dev; lia
        | apply benign_slope; lia
        | apply benign_len_world
        | apply benign_len_row
        | apply benign_ret; exact I ].

Ltac benign_seq :=
  repeat first [ benign_prim
               | eapply benign_bind; [benign_prim | intros ? ?] ].

Lemma benign_Diamond (x0 y0 x1 y1 i j : Z) :
  x0 <= x1 -> benign (Diamond x0 y0 x1 y1 i j) (fun _ => True).
Proof. intros. unfold Diamond. benign_seq. Qed.

Lemma benign_Square (x0 y0 x1 y1 i j : Z) :
  x0 <= x1 -> y0 <= y1 -> benign (Square x0 y0 x1 y1 i j) (fun _ => True).
Proof. intros. unfold Square. benign_seq. Qed.

Lemma benign_column_assign (i y0 y1 y : Z) :
  y0 < y1 -> benign (column_assign i y0 y1 y) (fun _ => True).
Proof. intros. unfold column_assign. benign_seq. Qed.

Lemma benign_row_assign (x0 x1 j x : Z) :
  x0 < x1 -> benign (row_assign x0 x1 j x) (fun _ => True).
Proof. intros. unfold row_assign. benign_seq. Qed.

(** On a grid of any shape the driver divides by no zero, draws from no
    empty range and does not exhaust its fuel: it can only fail on an
    index. *)
Lemma benign_auxRandAugDS (fuel : nat) :
  forall x0 y0 x1 y1,
    x0 <= x1 -> (Z.to_nat (x1 - x0) < fuel)%nat ->
    benign (auxRandAugDS fuel x0 y0 x1 y1) (fun _ => True).
Proof.
  induction fuel as [|fuel IH]; intros x0 y0 x1 y1 Hx Hf; [lia|].
  simpl. destruct ((x0 =? x1) && (y0 =? y1)); [by apply benign_ret|].
  eapply benign_bind; [apply benign_randAugIndex|]. intros i Hi.
  eapply benign_bind; [apply benign_randAugIndex|]. intros j Hj.
  destruct ((i =? x0) || (i =? x1)) eqn:Ei.
  { apply benign_for. intros y Hy'%elem_of_range.
    (eapply benign_bind; [|intros ? ?]); apply benign_column_assign; lia. }
  pose proof (general_case_interior _ _ _ Hi Ei) as Hin.
  destruct ((j =? y0) || (j =? y1)) eqn:Ej.
  { apply benign_for. intros x Hx'%elem_of_range.
    (eapply benign_bind; [|intros ? ?]); apply benign_row_assign; lia. }
  pose proof (general_case_interior _ _ _ Hj Ej) as Hjn.
  eapply benign_bind; [apply benign_Diamond; lia|]. intros _ _.
  eapply benign_bind; [apply benign_Square; lia|]. intros _ _.
  eapply benign_bind; [apply IH; lia|]. intros _ _.
  eapply benign_bind; [apply IH; lia|]. intros _ _.
  eapply benign_bind; [apply IH; lia|]. intros _ _.
  apply IH; lia.
Qed.

Lemma benign_cleanup_row (x : Z) : benign (cleanup_row x) (fun _ => True).
Proof.
  unfold cleanup_row.
  eapply benign_bind; [benign_prim|]. intros v _.
  eapply benign_bind with (Q := fun _ => True).
  { destruct (v =? 0); [|benign_prim]. destruct (0 <? x); [|benign_prim].
    eapply benign_bind; [benign_prim|]. intros n _.
    destruct (x <? n - 1); [|benign_prim]. benign_seq. }
  intros _ _. eapply benign_bind; [benign_prim|]. intros v' _.
  destruct (v' =? 0); [|benign_prim]. destruct (0 <? x); [|benign_prim].
  eapply benign_bind; [benign_prim|]. intros n _.
  destruct (x <? n - 1); [|benign_prim]. benign_seq.
Qed.

Lemma benign_cleanup_column (y : Z) : benign (cleanup_column y) (fun _ => True).
Proof.
  unfold cleanup_column.
  eapply benign_bind; [benign_prim|]. intros v _.
  eapply benign_bind with (Q := fun _ => True).
  { destruct (v =? 0); [|benign_prim]. destruct (0 <? y); [|benign_prim].
    eapply benign_bind; [benign_prim|]. intros h _.
    destruct (y <? h - 1); [|benign_prim]. benign_seq. }
  intros _ _. eapply benign_bind; [benign_prim|]. intros v' _.
  destruct (v' =? 0); [|benign_prim]. destruct (0 <? y); [|benign_prim].
  eapply benign_bind; [benign_prim|]. intros h _.
  destruct (y <? h - 1); [|benign_prim]. benign_seq.
Qed.

Lemma benign_edgeCleanup : benign edgeCleanup (fun _ => True).
Proof.
  unfold edgeCleanup.
  eapply benign_bind; [benign_prim|]. intros n _.
  eapply benign_bind.
  { apply benign_for. intros x _. apply benign_cleanup_row. }
  intros _ _. eapply benign_bind; [benign_prim|]. intros h _.
  apply benign_for. intros y _. apply benign_cleanup_column.
Qed.

(** What is left of the entry point once the first two corners are
    written: the third draw is made before anything can fail. *)
Lemma benign_after_two_corners (x1 y1 : Z) (st : state) :
  0 <= x1 ->
  let rest :=
    (v <- randint 0 (Z.max x1 y1) ;; setitem x1 0 v ;;
     v <- randint 0 (Z.max x1 y1) ;; setitem x1 y1 v ;;
     auxRandAugDS (enough_fuel 0 0 x1 y1) 0 0 x1 y1 ;;
     edgeCleanup ;;
     fun st => (Ret (world_map st), st)) in
  (S (cursor (random_state st)) <= cursor (random_state (snd (rest st))))%nat
  /\ ((exists g', fst (rest st) = Ret g') \/ fst (rest st) = Raise IndexError).
Proof.
  intros Hx1 rest.
  assert (Hm : 0 <= Z.max x1 y1) by lia.
  unfold rest. rewrite (bind_run _ _ _ _ _ (randint_run 0 _ st Hm)).
  match goal with
  | |- context [snd (?k ?s)] => set (m := k); set (st1 := s)
  end.
  assert (Hb : benign m (fun _ => True)).
  { unfold m. eapply benign_bind; [benign_prim|]. intros _ _.
    eapply benign_bind; [by apply benign_randint|]. intros v _.
    eapply benign_bind; [benign_prim|]. intros _ _.
    eapply benign_bind.
    { apply benign_auxRandAugDS; [lia | unfold enough_fuel; lia]. }
    intros _ _. eapply benign_bind; [apply benign_edgeCleanup|]. intros _ _.
    intros st'. by split. }
  destruct (Hb st1) as [Hc Ho].
  assert (E : cursor (random_state st1) = S (cursor (random_state st))) by reflexivity.
  split; [lia|].
  destruct (fst (m st1)) as [g'|e|]; [left; by exists g' | by right; subst | done].
Qed.

Lemma grid_set_first (row0 : list Z) (rest : list (list Z)) (y v : Z) :
  0 <= y < Z.of_nat (length row0) ->
  grid_set (row0 :: rest) 0 y v = Some (<[Z.to_nat y := v]> row0 :: rest).
Proof.
  intros Hy. unfold grid_set.
  rewrite py_get_nonneg by lia. change (Z.to_nat 0) with 0%nat.
  cbn [lookup list_lookup]. rewrite py_set_nonneg by lia.
  rewrite py_set_nonneg by (simpl; lia). reflexivity.
Qed.

(** The entry point up to the second corner, on any grid whose first row
    is not empty: the two draws are written into the first row whatever
    the other rows are. *)
Lemma randAugDS_two_corners (seed_source : Z -> RandomSource) (seed : Z)
    (rng : RandomSource) (row0 : list Z) (rest : list (list Z)) :
  row0 <> [] ->
  let s := seed_source seed in
  let x1 := Z.of_nat (length (row0 :: rest)) - 1 in
  let y1 := Z.of_nat (length row0) - 1 in
  let m := Z.max x1 y1 in
  let row0' := <[Z.to_nat y1 := nth_randint s 1 0 m]> (<[0%nat := nth_randint s 0 0 m]> row0) in
  randAugDS seed_source seed (mkState (row0 :: rest) rng)
  = (v <- randint 0 m ;; setitem x1 0 v ;;
     v <- randint 0 m ;; setitem x1 y1 v ;;
     auxRandAugDS (enough_fuel 0 0 x1 y1) 0 0 x1 y1 ;;
     edgeCleanup ;;
     fun st => (Ret (world_map st), st))
      (mkState (row0' :: rest) (snd (next_word (snd (next_word s))))).
Proof.
  intros Hne s x1 y1 m row0'.
  assert (Hlen : 0 < Z.of_nat (length row0)) by (destruct row0; [done | simpl; lia]).
  assert (Hm : 0 <= m) by (unfold m, x1; simpl; lia).
  unfold randAugDS. cbv zeta.
  rewrite (bind_run _ _ (mkState (row0 :: rest) rng) (mkState (row0 :: rest) s) tt)
    by reflexivity.
  rewrite (bind_run _ _ _ (mkState (row0 :: rest) s)
             (Z.of_nat (length (row0 :: rest)))) by reflexivity.
  rewrite (bind_run _ _ _ (mkState (row0 :: rest) s)
             (Z.of_nat (length row0))) by reflexivity.
  fold x1. fold y1. fold m.
  set (d0 := nth_randint s 0 0 m) in *. set (d1 := nth_randint s 1 0 m) in *.
  assert (S1 : grid_set (row0 :: rest) 0 0 d0 = Some (<[0%nat := d0]> row0 :: rest)).
  { apply (grid_set_first row0 rest 0). lia. }
  assert (S2 : grid_set (<[0%nat := d0]> row0 :: rest) 0 y1 d1 = Some (row0' :: rest)).
  { apply (grid_set_first _ rest y1). rewrite length_insert. unfold y1. lia. }
  rewrite (bind_run _ _ _ _ _ (randint_run 0 m _ Hm)). cbn [world_map random_state].
  fold d0.
  rewrite (bind_run _ _ _ _ _ (setitem_run 0 0 d0 (mkState (row0 :: rest) _) _ S1)).
  cbn [world_map random_state].
  rewrite (bind_run _ _ _ _ _ (randint_run 0 m _ Hm)). cbn [world_map random_state].
  rewrite nth_randint_next. fold d1.
  rewrite (bind_run _ _ _ _ _ (setitem_run 0 y1 d1 (mkState (_ :: rest) _) _ S2)).
  reflexivity.
Qed.

(** C5, amended. The entry point validates nothing.  With no row at all it
    raises [IndexError] on [len(world_map[0])], before any draw and any
    write; with an empty first row it raises [IndexError] on the first
    corner write, after one draw, and the grid is as it was.  On every
    other grid, jagged or not, the run first writes two draws into the
    first row, whatever the other rows are, and goes on from there with
    the third corner; when the heights are within 2^52 it makes a third
    draw at least and returns or raises [IndexError], never another
    exception.  In particular, when the last row is empty it raises
    [IndexError] on the third corner write and leaves the grid with the
    two draws in its first row. *)
Theorem randAugDS_unvalidated (seed_source : Z -> RandomSource) (seed : Z)
    (rng : RandomSource) (row0 : list Z) (rows : list (list Z)) :
  randAugDS seed_source seed (mkState [] rng)
  = (Raise IndexError, mkState [] (seed_source seed))
  /\ randAugDS seed_source seed (mkState ([] :: rows) rng)
     = (Raise IndexError,
        mkState ([] :: rows) (snd (next_word (seed_source seed))))
  /\ (row0 <> [] ->
      let s := seed_source seed in
      let x1 := Z.of_nat (length (row0 :: rows)) - 1 in
      let y1 := Z.of_nat (length row0) - 1 in
      let m := Z.max x1 y1 in
      randAugDS seed_source seed (mkState (row0 :: rows) rng)
      = (v <- randint 0 m ;; setitem x1 0 v ;;
         v <- randint 0 m ;; setitem x1 y1 v ;;
         auxRandAugDS (enough_fuel 0 0 x1 y1) 0 0 x1 y1 ;;
         edgeCleanup ;;
         fun st => (Ret (world_map st), st))
          (mkState (<[Z.to_nat y1 := nth_randint s 1 0 m]>
                      (<[0%nat := nth_randint s 0 0 m]> row0) :: rows)
                   (snd (next_word (snd (next_word s))))))
  /\ (row0 <> [] -> heights_below (2 ^ 52) (row0 :: rows) ->
      ((exists g', fst (randAugDS seed_source seed (mkState (row0 :: rows) rng)) = Ret g')
       \/ fst (randAugDS seed_source seed (mkState (row0 :: rows) rng))
          = Raise IndexError)
      /\ (cursor (seed_source seed) + 3
          <= cursor (random_state
                       (snd (randAugDS seed_source seed (mkState (row0 :: rows) rng)))))%nat)
  /\ (row0 <> [] -> heights_below (2 ^ 52) (row0 :: rows ++ [[]]) ->
      let s := seed_source seed in
      let m := Z.max (Z.of_nat (length (row0 :: rows ++ [[]])) - 1)
                     (Z.of_nat (length row0) - 1) in
      randAugDS seed_source seed (mkState (row0 :: rows ++ [[]]) rng)
      = (Raise IndexError,
         mkState (<[Z.to_nat (Z.of_nat (length row0) - 1) := nth_randint s 1 0 m]>
                    (<[0%nat := nth_randint s 0 0 m]> row0) :: rows ++ [[]])
                 (mkSource (entropy s) (cursor s + 3))))
  /\ run (randAugDS (replay [1; 2; 1; 2]) 0) [[0; 0; 0]; [0]; [0; 0; 0]]
     = (Raise IndexError, [[1; 0; 2]; [0]; [1; 0; 2]]).
Proof.
  split; [reflexivity|]. split; [|split; [|split; [|split; [|reflexivity]]]].
  - unfold randAugDS. unfold bind at 1. simpl. unfold bind at 1. simpl.
    unfold bind at 1. simpl. unfold bind at 1. unfold randint. simpl world_map.
    match goal with
    | |- context [?b <? 0] => destruct (Z.ltb_spec b 0); [lia|]
    end.
    reflexivity.
  - intros Hne. exact (randAugDS_two_corners seed_source seed rng row0 rows Hne).
  - intros Hne _. rewrite (randAugDS_two_corners seed_source seed rng row0 rows Hne).
    match goal with
    | |- context [fst (_ ?st2)] =>
        destruct (benign_after_two_corners
                    (Z.of_nat (length (row0 :: rows)) - 1)
                    (Z.of_nat (length row0) - 1) st2 ltac:(simpl; lia)) as [Hc Ho]
    end.
    split; [exact Ho|]. simpl in Hc. simpl. lia.
  - intros Hne _ s m.
    rewrite (randAugDS_two_corners seed_source seed rng row0 (rows ++ [[]]) Hne).
    fold s. fold m.
    assert (Hm : 0 <= m) by (unfold m; simpl; lia).
    rewrite (bind_run _ _ _ _ _ (randint_run 0 m _ Hm)). cbn [world_map random_state].
    unfold bind at 1. unfold setitem at 1. cbn [world_map random_state].
    match goal with
    | |- context [grid_set ?g ?x 0 ?v] =>
        assert (Hset : grid_set g x 0 v = None)
    end.
    { unfold grid_set. rewrite py_get_nonneg by (simpl; lia).
      replace (Z.to_nat (Z.of_nat (length (row0 :: rows ++ [[]])) - 1))
        with (S (length rows)) by (simpl; rewrite length_app; simpl; lia).
      match goal with
      | |- context [(?r :: rows ++ [[]]) !! S (length rows)] =>
          rewrite (list_lookup_middle (r :: rows) [] ([] : list Z)
                     (S (length rows)) eq_refl : (r :: rows ++ [[]]) !! S (length rows) = Some [])
      end.
      reflexivity. }
    rewrite Hset. do 2 f_equal. unfold next_word. simpl. f_equal. lia.
Qed.

Lemma randAugDS_unvalidated_witness :
  [5; 6] <> [] /\ heights_below (2 ^ 52) ([5; 6] :: [[7]] ++ [[]])
  /\ randAugDS (replay [1; 2; 1; 2]) 0 (mkState ([5; 6] :: [[7]] ++ [[]]) (replay [] 0))
     = (Raise IndexError,
        mkState ([1; 2] :: [[7]] ++ [[]]) (mkSource (entropy (replay [1; 2; 1; 2] 0)) 3)).
Proof.
  assert (Hne : [5; 6] <> ([] : list Z)) by discriminate.
  assert (Hh : heights_below (2 ^ 52) ([5; 6] :: [[7]] ++ [[]])).
  { repeat constructor; vm_compute; discriminate. }
  split; [exact Hne|]. split; [exact Hh|].
  destruct (randAugDS_unvalidated (replay [1; 2; 1; 2]) 0 (replay [] 0) [5; 6] [[7]])
    as (_ & _ & _ & _ & Hrun & _).
  exact (Hrun Hne Hh).
Defined.

(** ** Determinism *)

Lemma zero_grid_zeros (W H : nat) (g : list (list Z)) :
  zero_grid W H g -> g = zeros W H.
Proof.
  intros [Hlen Hrows]. subst W. unfold zeros.
  induction Hrows as [|row g [Hrow Hcells] _ IH]; [done|].
  simpl. f_equal; [|done]. subst H. clear -Hcells.
  induction Hcells as [|v row -> _ IH]; [done|]. simpl. by f_equal.
Qed.

Lemma randAugDS_reseeds (seed_source : Z -> RandomSource) (seed : Z)
    (g : list (list Z)) (rng rng' : RandomSource) :
  randAugDS seed_source seed (mkState g rng)
  = randAugDS seed_source seed (mkState g rng').
Proof. unfold randAugDS. unfold bind at 1. unfold bind at 6. reflexivity. Qed.

(** C7. Whatever the generator did before, two runs with one seed on
    zero-initialized grids of the same dimensions end alike: same outcome,
    same grid cell for cell, same generator state. *)
Theorem randAugDS_deterministic (seed_source : Z -> RandomSource) (seed : Z)
    (W H : nat) (st1 st2 : state) :
  zero_grid W H (world_map st1) -> zero_grid W H (world_map st2) ->
  randAugDS seed_source seed st1 = randAugDS seed_source seed st2.
Proof.
  intros H1 H2. apply zero_grid_zeros in H1, H2.
  destruct st1 as [g1 rng1], st2 as [g2 rng2]. simpl in *. subst.
  apply randAugDS_reseeds.
Qed.

Lemma randAugDS_deterministic_witness :
  zero_grid 2 2 [[0; 0]; [0; 0]] /\
  randAugDS (replay [3; 1; 4; 1; 5]) 9 (mkState [[0; 0]; [0; 0]] (replay [2; 7] 0))
  = randAugDS (replay [3; 1; 4; 1; 5]) 9
      (mkState [[0; 0]; [0; 0]] (mkSource (fun n => Z.of_nat n) 8)).
Proof.
  assert (Hz : zero_grid 2 2 [[0; 0]; [0; 0]]).
  { split; [reflexivity|]. repeat constructor. }
  split; [exact Hz|].
  apply (randAugDS_deterministic (replay [3; 1; 4; 1; 5]) 9 2 2
           (mkState [[0; 0]; [0; 0]] (replay [2; 7] 0))
           (mkState [[0; 0]; [0; 0]] (mkSource (fun n => Z.of_nat n) 8)));
    exact Hz.
Defined.

(** ** Rectangular grids *)

Lemma norm_range (n k : Z) : - n <= k < n -> 0 <= norm n k < n.
Proof. unfold norm. destruct (Z.ltb_spec k 0); lia. Qed.

Lemma py_index_norm (n : nat) (k : Z) :
  - Z.of_nat n <= k < Z.of_nat n ->
  py_index n k = Some (Z.to_nat (norm (Z.of_nat n) k)).
Proof.
  intros Hk. unfold norm. destruct (Z.ltb_spec k 0).
  - apply py_index_negative. lia.
  - apply py_index_nonneg. lia.
Qed.

Lemma rect_row (W H : Z) (g : list (list Z)) (x : Z) :
  rect W H g -> 0 <= x < W ->
  exists row, g !! Z.to_nat x = Some row /\ Z.of_nat (length row) = H.
Proof.
  intros [Hlen Hrows] Hx.
  destruct (lookup_lt_is_Some_2 g (Z.to_nat x)) as [row Hrow]; [lia|].
  exists row. split; [done|].
  rewrite Forall_lookup in Hrows. by eapply Hrows.
Qed.

Lemma rect_get (W H : Z) (g : list (list Z)) (x y : Z) :
  rect W H g -> - W <= x < W -> - H <= y < H ->
  exists v, grid_get g x y = Some v
            /\ grid_get g (norm W x) (norm H y) = Some v.
Proof.
  intros Hg Hx Hy.
  pose proof (norm_range W x Hx) as Hnx. pose proof (norm_range H y Hy) as Hny.
  destruct (rect_row W H g (norm W x) Hg Hnx) as (row & Hrow & Hlen).
  destruct Hg as [HW _].
  destruct (lookup_lt_is_Some_2 row (Z.to_nat (norm H y))) as [v Hv]; [lia|].
  exists v. split.
  - unfold grid_get, py_get. rewrite py_index_norm by lia. rewrite HW, Hrow.
    rewrite py_index_norm by lia. by rewrite Hlen.
  - rewrite grid_get_nonneg by lia. by rewrite Hrow.
Qed.

Lemma rect_set (W H : Z) (g : list (list Z)) (x y v : Z) :
  rect W H g -> - W <= x < W -> - H <= y < H ->
  exists g', grid_set g x y v = Some g'
             /\ rect W H g'
             /\ grid_get g' (norm W x) (norm H y) = Some v
             /\ forall x' y', 0 <= x' -> 0 <= y' ->
                  x' <> norm W x \/ y' <> norm H y ->
                  grid_get g' x' y' = grid_get g x' y'.
Proof.
  intros Hg Hx Hy.
  pose proof (norm_range W x Hx) as Hnx. pose proof (norm_range H y Hy) as Hny.
  destruct (rect_row W H g (norm W x) Hg Hnx) as (row & Hrow & Hlen).
  destruct Hg as [HW Hrows].
  set (X := Z.to_nat (norm W x)) in *. set (Y := Z.to_nat (norm H y)) in *.
  exists (<[X := <[Y := v]> row]> g). split; [|split; [|split]].
  - unfold grid_set, py_get, py_set. rewrite py_index_norm by lia.
    rewrite HW. fold X. rewrite Hrow. rewrite py_index_norm by lia.
    by rewrite Hlen.
  - split; [by rewrite length_insert|].
    apply Forall_insert; [done|]. by rewrite length_insert.
  - rewrite grid_get_nonneg by lia. fold X Y.
    rewrite list_lookup_insert_eq by lia.
    apply list_lookup_insert_eq. lia.
  - intros x' y' Hx' Hy' Hne. rewrite !grid_get_nonneg by lia.
    destruct (decide (X = Z.to_nat x')) as [Heq|Hxx].
    + rewrite <- Heq. rewrite list_lookup_insert_eq by lia. rewrite Hrow.
      apply list_lookup_insert_ne. subst X Y. lia.
    + by rewrite list_lookup_insert_ne.
Qed.

(** ** Runs that stay inside the grid and off its corners *)

Section Safe.

Variables (W H : Z) (g0 : list (list Z)).

Local Abbreviation Safe := (safe W H g0).

Lemma safe_ret {A} (a : A) (Q : A -> Prop) : Q a -> Safe (ret a) Q.
Proof. intros HQ st Hst. by exists a, st. Qed.

Lemma safe_bind {A B} (m : M A) (k : A -> M B) (Q : A -> Prop) (R : B -> Prop) :
  Safe m Q -> (forall a, Q a -> Safe (k a) R) -> Safe (bind m k) R.
Proof.
  intros Hm Hk st Hst.
  destruct (Hm st Hst) as (a & st' & Hrun & Hst' & HQ).
  destruct (Hk a HQ st' Hst') as (b & st'' & Hrun' & Hpost).
  exists b, st''. split; [|done]. by rewrite (bind_run _ _ _ _ _ Hrun).
Qed.

Lemma safe_for {A} (xs : list A) (body : A -> M unit) :
  (forall x, x ∈ xs -> Safe (body x) (fun _ => True)) ->
  Safe (for_ xs body) (fun _ => True).
Proof.
  induction xs as [|x xs IH]; intros Hb; simpl.
  - by apply safe_ret.
  - eapply safe_bind; [apply Hb; by left|]. intros _ _.
    apply IH. intros x' Hx'. apply Hb. by right.
Qed.

Lemma safe_len_world : Safe len_world (fun n => n = W).
Proof.
  intros st Hst. exists (Z.of_nat (length (world_map st))), st.
  split; [done|]. split; [done|]. by destruct Hst as [[HW _] _].
Qed.

Lemma safe_len_row (x : Z) : - W <= x < W -> Safe (len_row x) (fun h => h = H).
Proof.
  intros Hx st Hst. pose proof Hst as [Hg _].
  destruct (rect_row W H _ (norm W x) Hg (norm_range W x Hx)) as (row & Hrow & Hlen).
  exists H, st. split; [|done].
  unfold len_row, py_get. destruct Hg as [HW _].
  rewrite py_index_norm by lia. by rewrite HW, Hrow, Hlen.
Qed.

Lemma safe_getitem (x y : Z) :
  - W <= x < W -> - H <= y < H -> Safe (getitem x y) (fun _ => True).
Proof.
  intros Hx Hy st Hst. pose proof Hst as [Hg _].
  destruct (rect_get W H _ x y Hg Hx Hy) as (v & Hv & _).
  exists v, st. split; [by apply getitem_run|done].
Qed.

Lemma safe_setitem (x y v : Z) :
  - W <= x < W -> - H <= y < H -> ~ corner W H (norm W x) (norm H y) ->
  Safe (setitem x y v) (fun _ => True).
Proof.
  intros Hx Hy Hc st [Hg Hk].
  destruct (rect_set W H _ x y v Hg Hx Hy) as (g' & Hset & Hg' & _ & Hother).
  eexists tt, _. split; [by apply setitem_run|]. split; [|done].
  split; [done|]. simpl. intros x' y' Hc'. rewrite <- Hk by done.
  pose proof Hg as [HW _].
  apply Hother.
  - destruct Hc' as [[-> | ->] _]; lia.
  - destruct Hc' as [_ [-> | ->]]; lia.
  - destruct (decide (x' = norm W x)) as [->|]; [|by left].
    destruct (decide (y' = norm H y)) as [->|]; [|by right]. done.
Qed.

Lemma safe_randint (a b : Z) :
  a <= b -> Safe (randint a b) (fun v => a <= v <= b).
Proof.
  intros Hab st Hst. unfold randint.
  destruct (Z.ltb_spec b a); [lia|]. simpl. eexists _, _.
  split; [reflexivity|]. split; [done|].
  pose proof (Z.mod_pos_bound (entropy (random_state st) (cursor (random_state st)))
                (b - a + 1)). lia.
Qed.

Lemma safe_randAugIndex (i0 i1 : Z) :
  Safe (randAugIndex i0 i1) (fun i => i = i0 \/ i0 < i < i1).
Proof.
  intros st Hst.
  destruct (randAugIndex_cases i0 i1 st) as (i & st' & Hrun & Hw & Hi).
  exists i, st'. split; [done|]. split; [|done].
  unfold keeps_corners. by rewrite Hw.
Qed.

Lemma safe_truediv (n d : Z) : d <> 0 -> Safe (truediv n d) (fun _ => True).
Proof.
  intros Hd. unfold truediv. apply Z.eqb_neq in Hd. rewrite Hd.
  by apply safe_ret.
Qed.

Lemma safe_dev (x0 y0 x1 y1 : Z) :
  0 <= Z.max (x1 - x0) (y1 - y0) -> Safe (dev x0 y0 x1 y1) (fun _ => True).
Proof.
  intros Hm. unfold dev. eapply safe_bind; [apply safe_randint; lia|].
  intros d _. by apply safe_ret.
Qed.

Ltac safe_side :=
  unfold corner, norm;
  repeat match goal with
         | |- context [?k <? 0] => destruct (Z.ltb_spec k 0)
         end;
  lia.

Lemma safe_slope (a d t s : Z) : s <> 0 -> Safe (slope a d t s) (fun _ => True).
Proof.
  intros Hs. unfold slope. eapply safe_bind; [by apply safe_truediv|].
  intros q _. by apply safe_ret.
Qed.

Ltac safe_prim :=
  first [ apply safe_getitem; safe_side
        | apply safe_setitem; safe_side
        | apply safe_dev; lia
        | apply safe_slope; lia
        | apply safe_len_world
        | apply safe_len_row; lia
        | apply safe_ret; exact I ].

Ltac safe_seq :=
  repeat first [ safe_prim
               | eapply safe_bind; [safe_prim | intros ? ?] ].

Lemma safe_Diamond (x0 y0 x1 y1 i j : Z) :
  0 <= x0 -> x0 < i < x1 -> x1 < W -> 0 <= y0 -> y0 < j < y1 -> y1 < H ->
  Safe (Diamond x0 y0 x1 y1 i j) (fun _ => True).
Proof. intros. unfold Diamond. safe_seq. Qed.

Lemma safe_Square (x0 y0 x1 y1 i j : Z) :
  0 <= x0 -> x0 < i < x1 -> x1 < W -> 0 <= y0 -> y0 < j < y1 -> y1 < H ->
  Safe (Square x0 y0 x1 y1 i j) (fun _ => True).
Proof. intros. unfold Square. safe_seq. Qed.

Lemma safe_column_assign (i y0 y1 y : Z) :
  0 <= i < W -> 0 <= y0 -> y0 < y < y1 -> y1 < H ->
  Safe (column_assign i y0 y1 y) (fun _ => True).
Proof. intros. unfold column_assign. safe_seq. Qed.

Lemma safe_row_assign (x0 x1 j x : Z) :
  0 <= x0 -> x0 < x < x1 -> x1 < W -> 0 <= j < H ->
  Safe (row_assign x0 x1 j x) (fun _ => True).
Proof. intros. unfold row_assign. safe_seq. Qed.

(** On a region inside the grid the driver returns: every access is in
    range, no division is by zero, no range of [randint] is empty, and
    the corners of the grid are never written. *)
Lemma safe_auxRandAugDS (fuel : nat) :
  forall x0 y0 x1 y1,
    0 <= x0 <= x1 -> x1 < W -> 0 <= y0 <= y1 -> y1 < H ->
    (Z.to_nat (x1 - x0) < fuel)%nat ->
    Safe (auxRandAugDS fuel x0 y0 x1 y1) (fun _ => True).
Proof.
  induction fuel as [|fuel IH]; intros x0 y0 x1 y1 Hx Hx1 Hy Hy1 Hf; [lia|].
  simpl. destruct ((x0 =? x1) && (y0 =? y1)); [by apply safe_ret|].
  eapply safe_bind; [apply safe_randAugIndex|]. intros i Hi.
  eapply safe_bind; [apply safe_randAugIndex|]. intros j Hj.
  destruct ((i =? x0) || (i =? x1)) eqn:Ei.
  { apply safe_for. intros y Hy'%elem_of_range.
    apply orb_true_iff in Ei as [Ei|Ei]; apply Z.eqb_eq in Ei; subst i;
      (eapply safe_bind; [|intros ? ?]); apply safe_column_assign; lia. }
  pose proof (general_case_interior _ _ _ Hi Ei) as Hin.
  destruct ((j =? y0) || (j =? y1)) eqn:Ej.
  { apply safe_for. intros x Hx'%elem_of_range.
    (eapply safe_bind; [|intros ? ?]); apply safe_row_assign; lia. }
  pose proof (general_case_interior _ _ _ Hj Ej) as Hjn.
  eapply safe_bind; [apply safe_Diamond; lia|]. intros _ _.
  eapply safe_bind; [apply safe_Square; lia|]. intros _ _.
  eapply safe_bind; [apply IH; lia|]. intros _ _.
  eapply safe_bind; [apply IH; lia|]. intros _ _.
  eapply safe_bind; [apply IH; lia|]. intros _ _.
  apply IH; lia.
Qed.

Lemma safe_cleanup_row (x : Z) :
  2 <= H -> 0 <= x < W -> Safe (cleanup_row x) (fun _ => True).
Proof.
  intros HH Hx. unfold cleanup_row.
  eapply safe_bind; [safe_prim|]. intros v _.
  eapply safe_bind with (Q := fun _ => True).
  { destruct (v =? 0); [|safe_prim].
    destruct (Z.ltb_spec 0 x); [|safe_prim].
    eapply safe_bind; [safe_prim|]. intros n ->.
    destruct (Z.ltb_spec x (W - 1)); [|safe_prim].
    safe_seq. }
  intros _ _. eapply safe_bind; [safe_prim|]. intros v' _.
  destruct (v' =? 0); [|safe_prim].
  destruct (Z.ltb_spec 0 x); [|safe_prim].
  eapply safe_bind; [safe_prim|]. intros n ->.
  destruct (Z.ltb_spec x (W - 1)); [|safe_prim].
  safe_seq.
Qed.

Lemma safe_cleanup_column (y : Z) :
  2 <= W -> 0 <= y < H -> Safe (cleanup_column y) (fun _ => True).
Proof.
  intros HW Hy. unfold cleanup_column.
  eapply safe_bind; [safe_prim|]. intros v _.
  eapply safe_bind with (Q := fun _ => True).
  { destruct (v =? 0); [|safe_prim].
    destruct (Z.ltb_spec 0 y); [|safe_prim].
    eapply safe_bind; [safe_prim|]. intros h ->.
    destruct (Z.ltb_spec y (H - 1)); [|safe_prim].
    safe_seq. }
  intros _ _. eapply safe_bind; [safe_prim|]. intros v' _.
  destruct (v' =? 0); [|safe_prim].
  destruct (Z.ltb_spec 0 y); [|safe_prim].
  eapply safe_bind; [safe_prim|]. intros h ->.
  destruct (Z.ltb_spec y (H - 1)); [|safe_prim].
  safe_seq.
Qed.

Lemma safe_edgeCleanup :
  2 <= W -> 2 <= H -> Safe edgeCleanup (fun _ => True).
Proof.
  intros HW HH. unfold edgeCleanup.
  eapply safe_bind; [safe_prim|]. intros n ->.
  eapply safe_bind.
  { apply safe_for. intros x Hx%elem_of_range. apply safe_cleanup_row; lia. }
  intros _ _. eapply safe_bind; [safe_prim|]. intros h ->.
  apply safe_for. intros y Hy%elem_of_range. apply safe_cleanup_column; lia.
Qed.

End Safe.

(** ** The corners of the grid *)

(** C9, as stated, fails on a grid with a single row: the two left corners
    are one cell, which ends with the third draw, not the first. *)
Lemma single_row_corner_redrawn :
  run (randAugDS (replay [1; 1; 0; 1]) 0) (zeros 1 2) = (Ret [[0; 1]], [[0; 1]])
  /\ nth_randint (replay [1; 1; 0; 1] 0) 0 0 (Z.max (1 - 1) (2 - 1)) = 1
  /\ grid_get [[0; 1]] 0 0 <> Some 1.
Proof. repeat split. discriminate. Qed.

(** *** Edge Cleanup on a single line *)

Lemma idle_ret {A} (a : A) (st : state) : idle (ret a) st.
Proof. left. by exists a. Qed.

Lemma idle_bind {A B} (m : M A) (k : A -> M B) (st : state) :
  idle m st -> (forall a, m st = (Ret a, st) -> idle (k a) st) -> idle (bind m k) st.
Proof.
  intros [(a & Hm)|Hm] Hk.
  - destruct (Hk a Hm) as [(b & Hb)|Hb].
    + left. exists b. by rewrite (bind_run _ _ _ _ _ Hm).
    + right. by rewrite (bind_run _ _ _ _ _ Hm).
  - right. unfold bind. by rewrite Hm.
Qed.

Lemma idle_for {A} (xs : list A) (body : A -> M unit) (st : state) :
  (forall x, x ∈ xs -> idle (body x) st) -> idle (for_ xs body) st.
Proof.
  induction xs as [|x xs IH]; intros Hb; simpl; [apply idle_ret|].
  apply idle_bind; [apply Hb; by left|]. intros _ _.
  apply IH. intros x' Hx'. apply Hb. by right.
Qed.

Lemma idle_getitem (x y : Z) (st : state) : idle (getitem x y) st.
Proof.
  unfold idle, getitem. destruct (grid_get (world_map st) x y) as [v|]; [left|right]; eauto.
Qed.

Lemma idle_len_world (st : state) : idle len_world st.
Proof. left. by eexists. Qed.

Lemma idle_len_row (x : Z) (st : state) : idle (len_row x) st.
Proof.
  unfold idle, len_row. destruct (py_get (world_map st) x) as [row|]; [left|right]; eauto.
Qed.

(** A repair whose second read is out of range never writes. *)
Lemma idle_repair (x1 y1 x2 y2 x3 y3 x y : Z) (st : state) :
  grid_get (world_map st) x2 y2 = None ->
  idle (a <- getitem x1 y1 ;; b <- getitem x2 y2 ;; c <- getitem x3 y3 ;;
        setitem x y (mean3 a b c)) st.
Proof.
  intros Hnone. apply idle_bind; [apply idle_getitem|]. intros a _.
  apply idle_bind; [apply idle_getitem|]. intros b Hb.
  unfold getitem in Hb. by rewrite Hnone in Hb.
Qed.

Lemma idle_guarded (v x : Z) (len : M Z) (body : M unit) (st : state) :
  idle len st ->
  (forall n, len st = (Ret n, st) -> 0 < x < n - 1 -> idle body st) ->
  idle (if v =? 0 then
          if 0 <? x then n <- len ;; if x <? n - 1 then body else ret tt
          else ret tt
        else ret tt) st.
Proof.
  intros Hlen Hbody.
  destruct (v =? 0); [|apply idle_ret].
  destruct (Z.ltb_spec 0 x); [|apply idle_ret].
  apply idle_bind; [done|]. intros n Hn.
  destruct (Z.ltb_spec x (n - 1)); [|apply idle_ret]. by apply (Hbody n).
Qed.

Lemma py_index_below (n : nat) (k : Z) : k < - Z.of_nat n -> py_index n k = None.
Proof.
  intros Hk. unfold py_index.
  destruct (Z.leb_spec 0 k); [lia|]. destruct (Z.leb_spec (- Z.of_nat n) k); [lia|done].
Qed.

Lemma py_index_out (n : nat) (k : Z) :
  Z.of_nat n <= k \/ k < - Z.of_nat n -> py_index n k = None.
Proof. intros [?|?]; [by apply py_index_above | by apply py_index_below]. Qed.

Lemma rect_no_row (W H : Z) (g : list (list Z)) (x y : Z) :
  rect W H g -> W <= x \/ x < - W -> grid_get g x y = None.
Proof.
  intros [HW _] Hx. unfold grid_get, py_get.
  rewrite py_index_out by lia. done.
Qed.

Lemma rect_no_cell (W H : Z) (g : list (list Z)) (x y : Z) :
  rect W H g -> H <= y \/ y < - H -> grid_get g x y = None.
Proof.
  intros [HW Hrows] Hy. unfold grid_get.
  destruct (py_get g x) as [row|] eqn:Hrow; [|done].
  assert (Hlen : Z.of_nat (length row) = H).
  { unfold py_get in Hrow. destruct (py_index (length g) x) as [k|]; [|done].
    rewrite Forall_lookup in Hrows. by eapply Hrows. }
  unfold py_get. rewrite py_index_out by lia. done.
Qed.

(** On a grid of a single row or column Edge Cleanup never writes: every
    repair reads one neighbour outside the grid.  It returns or raises
    [IndexError], and the state is the one it started from. *)
Lemma idle_edgeCleanup (W H : Z) (st : state) :
  rect W H (world_map st) -> W = 1 \/ H = 1 -> idle edgeCleanup st.
Proof.
  intros Hg Hline. pose proof Hg as [HW Hrows]. unfold edgeCleanup.
  apply idle_bind; [apply idle_len_world|]. intros n Hn.
  assert (n = W) as ->.
  { unfold len_world in Hn. simplify_eq. done. }
  apply idle_bind.
  { apply idle_for. intros x Hx%elem_of_range. unfold cleanup_row.
    apply idle_bind; [apply idle_getitem|]. intros v _.
    apply idle_bind.
    { apply idle_guarded; [apply idle_len_world|]. intros n Hn' Hxn.
      assert (n = W) as -> by (unfold len_world in Hn'; by simplify_eq).
      apply idle_repair. apply (rect_no_cell W H); [done|]. lia. }
    intros _ _. apply idle_bind; [apply idle_getitem|]. intros v' _.
    apply idle_guarded; [apply idle_len_world|]. intros n Hn' Hxn.
    assert (n = W) as -> by (unfold len_world in Hn'; by simplify_eq).
    apply idle_repair. apply (rect_no_cell W H); [done|]. lia. }
  intros _ _. apply idle_bind; [apply idle_len_row|]. intros h Hh.
  assert (h = H) as ->.
  { unfold len_row in Hh. destruct (py_get (world_map st) 0) as [row|] eqn:Hrow; [|done].
    simplify_eq. unfold py_get in Hrow.
    destruct (py_index (length (world_map st)) 0) as [k|]; [|done].
    rewrite Forall_lookup in Hrows. by eapply Hrows. }
  apply idle_for. intros y Hy%elem_of_range. unfold cleanup_column.
  assert (Hlen : forall n, len_row 0 st = (Ret n, st) -> n = H).
  { intros n Hn'. rewrite Hh in Hn'. by simplify_eq. }
  apply idle_bind; [apply idle_getitem|]. intros v _.
  apply idle_bind.
  { apply idle_guarded; [apply idle_len_row|]. intros n Hn' Hyn.
    rewrite (Hlen n Hn') in Hyn.
    apply idle_repair. apply (rect_no_row W H); [done|]. lia. }
  intros _ _. apply idle_bind; [apply idle_getitem|]. intros v' _.
  apply idle_guarded; [apply idle_len_row|]. intros n Hn' Hyn.
  rewrite (Hlen n Hn') in Hyn.
  apply idle_repair. apply (rect_no_row W H); [done|]. lia.
Qed.

(** C9, amended. On a grid of [W >= 1] rows and [H >= 1] columns of
    heights within 2^52, whatever the seed, the run leaves in each corner
    the last of the four initial draws written to it, each in
    [0, max(W-1, H-1)]: neither the driver nor Edge Cleanup writes a
    corner.  With at least two rows and two columns the run returns and
    the corners (0, 0), (0, H-1), (W-1, 0), (W-1, H-1) hold the first,
    second, third and fourth draw; with a single row or column corners
    coincide, the later draw overwrites the earlier one, and the run
    returns or stops on [IndexError] in Edge Cleanup, the grid being the
    one that the driver left. *)
Theorem randAugDS_corners (seed_source : Z -> RandomSource) (seed : Z)
    (W H : Z) (st : state) :
  1 <= W -> 1 <= H -> rect W H (world_map st) ->
  heights_below (2 ^ 52) (world_map st) ->
  exists o st',
    randAugDS seed_source seed st = (o, st')
    /\ rect W H (world_map st')
    /\ (o = Ret (world_map st') \/ (o = Raise IndexError /\ (W = 1 \/ H = 1)))
    /\ (forall x y, corner W H x y ->
          grid_get (world_map st') x y
          = Some (nth_randint (seed_source seed) (corner_draw W H x y) 0
                    (Z.max (W - 1) (H - 1))))
    /\ (2 <= W -> 2 <= H ->
        o = Ret (world_map st')
        /\ grid_get (world_map st') 0 0
           = Some (nth_randint (seed_source seed) 0 0 (Z.max (W - 1) (H - 1)))
        /\ grid_get (world_map st') 0 (H - 1)
           = Some (nth_randint (seed_source seed) 1 0 (Z.max (W - 1) (H - 1)))
        /\ grid_get (world_map st') (W - 1) 0
           = Some (nth_randint (seed_source seed) 2 0 (Z.max (W - 1) (H - 1)))
        /\ grid_get (world_map st') (W - 1) (H - 1)
           = Some (nth_randint (seed_source seed) 3 0 (Z.max (W - 1) (H - 1))))
    /\ forall k, 0 <= nth_randint (seed_source seed) k 0 (Z.max (W - 1) (H - 1))
                 <= Z.max (W - 1) (H - 1).
Proof.
  intros HW HH Hg _. destruct st as [g rng]. simpl in Hg.
  set (s := seed_source seed). set (m := Z.max (W - 1) (H - 1)).
  assert (Hm : 0 <= m) by lia.
  unfold randAugDS. cbv zeta.
  rewrite (bind_run _ _ (mkState g rng) (mkState g s) tt) by reflexivity.
  assert (Hlw : len_world (mkState g s) = (Ret W, mkState g s)).
  { unfold len_world. simpl. by destruct Hg as [-> _]. }
  rewrite (bind_run _ _ _ _ _ Hlw).
  assert (Hlr : len_row 0 (mkState g s) = (Ret H, mkState g s)).
  { destruct (rect_row W H g 0 Hg ltac:(lia)) as (row & Hrow & Hlen).
    unfold len_row. simpl. rewrite py_get_nonneg by lia. by rewrite Hrow, Hlen. }
  rewrite (bind_run _ _ _ _ _ Hlr).
  replace (0 - 0) with 0 by lia. fold m.
  (* first corner *)
  rewrite (bind_run _ _ _ _ _ (randint_run 0 m _ Hm)). cbn [world_map random_state].
  destruct (rect_set W H g 0 0 (nth_randint s 0 0 m) Hg ltac:(lia) ltac:(lia))
    as (g1 & Hs1 & Hg1 & Hv1 & Ho1).
  rewrite (bind_run _ _ _ _ _ (setitem_run _ _ _ (mkState g _) g1 Hs1)).
  cbn [world_map random_state].
  (* second corner *)
  rewrite (bind_run _ _ _ _ _ (randint_run 0 m _ Hm)). cbn [world_map random_state].
  rewrite nth_randint_next.
  destruct (rect_set W H g1 0 (H - 1) (nth_randint s 1 0 m) Hg1 ltac:(lia) ltac:(lia))
    as (g2 & Hs2 & Hg2 & Hv2 & Ho2).
  rewrite (bind_run _ _ _ _ _ (setitem_run _ _ _ (mkState g1 _) g2 Hs2)).
  cbn [world_map random_state].
  (* third corner *)
  rewrite (bind_run _ _ _ _ _ (randint_run 0 m _ Hm)). cbn [world_map random_state].
  rewrite !nth_randint_next.
  destruct (rect_set W H g2 (W - 1) 0 (nth_randint s 2 0 m) Hg2 ltac:(lia) ltac:(lia))
    as (g3 & Hs3 & Hg3 & Hv3 & Ho3).
  rewrite (bind_run _ _ _ _ _ (setitem_run _ _ _ (mkState g2 _) g3 Hs3)).
  cbn [world_map random_state].
  (* fourth corner *)
  rewrite (bind_run _ _ _ _ _ (randint_run 0 m _ Hm)). cbn [world_map random_state].
  rewrite !nth_randint_next.
  destruct (rect_set W H g3 (W - 1) (H - 1) (nth_randint s 3 0 m) Hg3
              ltac:(lia) ltac:(lia))
    as (g4 & Hs4 & Hg4 & Hv4 & Ho4).
  rewrite (bind_run _ _ _ _ _ (setitem_run _ _ _ (mkState g3 _) g4 Hs4)).
  cbn [world_map random_state].
  rewrite !norm_nonneg in * by lia.
  (* what the four writes leave in the corners *)
  assert (Hc4 : forall x y, corner W H x y ->
            grid_get g4 x y = Some (nth_randint s (corner_draw W H x y) 0 m)).
  { assert (Hstep : forall (g g' : list (list Z)) (cx cy v : Z),
              grid_get g' cx cy = Some v ->
              (forall x' y', 0 <= x' -> 0 <= y' -> x' <> cx \/ y' <> cy ->
                             grid_get g' x' y' = grid_get g x' y') ->
              forall x y, 0 <= x -> 0 <= y ->
                grid_get g' x y
                = if (x =? cx) && (y =? cy) then Some v else grid_get g x y).
    { intros ga gb cx cy v Hv Ho x y Hx Hy.
      destruct (Z.eqb_spec x cx) as [->|]; destruct (Z.eqb_spec y cy) as [->|];
        cbn [andb]; first [exact Hv | apply Ho; lia]. }
    intros x y [Hx Hy].
    rewrite (Hstep g3 g4 _ _ _ Hv4 Ho4) by lia.
    rewrite (Hstep g2 g3 _ _ _ Hv3 Ho3) by lia.
    rewrite (Hstep g1 g2 _ _ _ Hv2 Ho2) by lia.
    rewrite (Hstep g g1 _ _ _ Hv1 Ho1) by lia.
    unfold corner_draw.
    repeat match goal with
           | |- context [?a =? ?b] => destruct (Z.eqb_spec a b)
           end; cbn [andb]; first [done | lia]. }
  (* the driver keeps the corners of [g4] *)
  match goal with
  | |- context [bind _ _ ?st] => set (st4 := st)
  end.
  assert (Hk4 : keeps_corners W H g4 st4) by (by split).
  destruct (safe_auxRandAugDS W H g4 (enough_fuel 0 0 (W - 1) (H - 1))
              0 0 (W - 1) (H - 1) ltac:(lia) ltac:(lia) ltac:(lia) ltac:(lia)
              ltac:(unfold enough_fuel; lia) st4 Hk4)
    as ([] & st5 & Hrun5 & Hk5 & _).
  rewrite (bind_run _ _ _ _ _ Hrun5).
  assert (Hrange : forall k, 0 <= nth_randint s k 0 m <= m).
  { intros k. by apply nth_randint_range. }
  assert (Hexpl : forall g', (forall x y, corner W H x y ->
              grid_get g' x y = Some (nth_randint s (corner_draw W H x y) 0 m)) ->
            2 <= W -> 2 <= H ->
            grid_get g' 0 0 = Some (nth_randint s 0 0 m)
            /\ grid_get g' 0 (H - 1) = Some (nth_randint s 1 0 m)
            /\ grid_get g' (W - 1) 0 = Some (nth_randint s 2 0 m)
            /\ grid_get g' (W - 1) (H - 1) = Some (nth_randint s 3 0 m)).
  { intros g' Hc HW2 HH2.
    assert (C00 : corner W H 0 0) by (unfold corner; lia).
    assert (C01 : corner W H 0 (H - 1)) by (unfold corner; lia).
    assert (C10 : corner W H (W - 1) 0) by (unfold corner; lia).
    assert (C11 : corner W H (W - 1) (H - 1)) by (unfold corner; lia).
    rewrite (Hc _ _ C00), (Hc _ _ C01), (Hc _ _ C10), (Hc _ _ C11).
    unfold corner_draw.
    repeat match goal with
           | |- context [?a =? ?b] => destruct (Z.eqb_spec a b); try lia
           end; done. }
  destruct (Z.le_gt_cases 2 W) as [HW2|HW1];
    [destruct (Z.le_gt_cases 2 H) as [HH2|HH1]|].
  - (* at least two rows and two columns: the cleanup returns *)
    destruct (safe_edgeCleanup W H g4 HW2 HH2 st5 Hk5) as ([] & st6 & Hrun6 & Hk6 & _).
    rewrite (bind_run _ _ _ _ _ Hrun6).
    destruct Hk6 as [Hg6 Hc6].
    assert (Hc : forall x y, corner W H x y ->
              grid_get (world_map st6) x y
              = Some (nth_randint s (corner_draw W H x y) 0 m)).
    { intros x y C. rewrite (Hc6 _ _ C). by apply Hc4. }
    exists (Ret (world_map st6)), st6.
    split; [done|]. split; [done|]. split; [by left|]. split; [done|].
    split; [|done]. intros _ _. split; [done|]. by apply Hexpl.
  - (* a single column *)
    destruct Hk5 as [Hg5 Hc5].
    assert (Hc : forall x y, corner W H x y ->
              grid_get (world_map st5) x y
              = Some (nth_randint s (corner_draw W H x y) 0 m)).
    { intros x y C. rewrite (Hc5 _ _ C). by apply Hc4. }
    destruct (idle_edgeCleanup W H st5 Hg5 ltac:(lia)) as [([] & Hrun6)|Hrun6].
    + rewrite (bind_run _ _ _ _ _ Hrun6).
      exists (Ret (world_map st5)), st5.
      split; [done|]. split; [done|]. split; [by left|]. split; [done|].
      split; [intros; lia | done].
    + unfold bind at 1. rewrite Hrun6.
      exists (Raise IndexError), st5.
      split; [done|]. split; [done|]. split; [right; split; [done|lia]|].
      split; [done|]. split; [intros; lia | done].
  - (* a single row *)
    destruct Hk5 as [Hg5 Hc5].
    assert (Hc : forall x y, corner W H x y ->
              grid_get (world_map st5) x y
              = Some (nth_randint s (corner_draw W H x y) 0 m)).
    { intros x y C. rewrite (Hc5 _ _ C). by apply Hc4. }
    destruct (idle_edgeCleanup W H st5 Hg5 ltac:(lia)) as [([] & Hrun6)|Hrun6].
    + rewrite (bind_run _ _ _ _ _ Hrun6).
      exists (Ret (world_map st5)), st5.
      split; [done|]. split; [done|]. split; [by left|]. split; [done|].
      split; [intros; lia | done].
    + unfold bind at 1. rewrite Hrun6.
      exists (Raise IndexError), st5.
      split; [done|]. split; [done|]. split; [right; split; [done|lia]|].
      split; [done|]. split; [intros; lia | done].
Qed.

Lemma randAugDS_corners_witness :
  1 <= 4 /\ 1 <= 5 /\ rect 4 5 (zeros 4 5) /\ heights_below (2 ^ 52) (zeros 4 5) /\
  exists o st',
    randAugDS (replay [9; 3; 7; 12; 4; 1; 0; 2; 2; 6; 1; 3; 3; 8]) 0
      (mkState (zeros 4 5) (replay [] 0)) = (o, st')
    /\ (2 <= 4 -> 2 <= 5 ->
        o = Ret (world_map st')
        /\ grid_get (world_map st') 0 0 = Some 4
        /\ grid_get (world_map st') 0 4 = Some 3
        /\ grid_get (world_map st') 3 0 = Some 2
        /\ grid_get (world_map st') 3 4 = Some 2).
Proof.
  assert (Hr : rect 4 5 (zeros 4 5)).
  { split; [reflexivity|]. repeat constructor. }
  assert (Hh : heights_below (2 ^ 52) (zeros 4 5)).
  { repeat constructor; vm_compute; discriminate. }
  split; [lia|]. split; [lia|]. split; [exact Hr|]. split; [exact Hh|].
  destruct (randAugDS_corners (replay [9; 3; 7; 12; 4; 1; 0; 2; 2; 6; 1; 3; 3; 8]) 0
              4 5 (mkState (zeros 4 5) (replay [] 0)) ltac:(lia) ltac:(lia) Hr Hh)
    as (o & st' & Hrun & _ & _ & _ & Hexpl & _).
  exists o, st'. split; [exact Hrun | exact Hexpl].
Defined.

(** ** The 3 by 3 grid *)

Lemma dev_run (x0 y0 x1 y1 : Z) (st : state) :
  0 <= Z.max (x1 - x0) (y1 - y0) ->
  dev x0 y0 x1 y1 st
  = (Ret (deviation_of (nth_randint (random_state st) 0
                          (- Z.max (x1 - x0) (y1 - y0)) (Z.max (x1 - x0) (y1 - y0)))),
     mkState (world_map st) (snd (next_word (random_state st)))).
Proof.
  intros Hm. unfold dev. cbv zeta.
  assert (Hr : - Z.max (x1 - x0) (y1 - y0) <= Z.max (x1 - x0) (y1 - y0)) by lia.
  rewrite (bind_run _ _ _ _ _ (randint_run _ _ st Hr)). reflexivity.
Qed.

Lemma deviation_of_small (d : Z) : -2 <= d <= 2 -> deviation_of d = 0.
Proof.
  intros Hd.
  assert (d = -2 \/ d = -1 \/ d = 0 \/ d = 1 \/ d = 2) as Hc by lia.
  destruct Hc as [->|[->|[->|[->| ->]]]]; reflexivity.
Qed.

Lemma mean3_swap (a b c : Z) : mean3 a c b = mean3 a b c.
Proof. unfold mean3. by replace (a + c + b) with (a + b + c) by lia. Qed.

(** A region of span 1 on both axes is left as it is, without a draw. *)
Lemma auxRandAugDS_unit_region (fuel : nat) (x y : Z) (st : state) :
  auxRandAugDS (S fuel) x y (x + 1) (y + 1) st = (Ret tt, st).
Proof.
  simpl. destruct (Z.eqb_spec x (x + 1)); [lia|]. simpl.
  unfold randAugIndex.
  destruct (Z.eqb_spec x (x + 1)); [lia|].
  destruct (Z.ltb_spec (x + 1) x); [lia|].
  destruct (Z.eqb_spec y (y + 1)); [lia|].
  destruct (Z.ltb_spec (y + 1) y); [lia|].
  simpl. rewrite !Z.eqb_refl.
  unfold bind at 1. unfold ret at 1. unfold bind at 1. unfold ret at 1.
  rewrite Z.eqb_refl. simpl.
  unfold range. replace (y + 1 - (y + 1)) with 0 by lia. reflexivity.
Qed.

Lemma bind_unit_noop (m k : M unit) (st : state) :
  (forall st', k st' = (Ret tt, st')) -> bind m (fun _ => k) st = m st.
Proof.
  intros Hk. unfold bind. destruct (m st) as [[[]| |] st']; auto.
Qed.

(** On the region (0, 0, 2, 2) the driver is one Diamond Step and one
    Square Step at (1, 1). *)
Lemma auxRandAugDS_3x3 (st : state) :
  auxRandAugDS (enough_fuel 0 0 2 2) 0 0 2 2 st
  = (Diamond 0 0 2 2 1 1 ;; Square 0 0 2 2 1 1) st.
Proof.
  change (enough_fuel 0 0 2 2) with 3%nat.
  change (auxRandAugDS 3 0 0 2 2 st)
    with ((Diamond 0 0 2 2 1 1 ;; Square 0 0 2 2 1 1 ;;
           auxRandAugDS 2 0 0 1 1 ;; auxRandAugDS 2 0 1 1 2 ;;
           auxRandAugDS 2 1 0 2 1 ;; auxRandAugDS 2 1 1 2 2) st).
  apply bind_cong; [done|]. intros _ st1 _.
  apply bind_unit_noop. intros st2.
  rewrite (bind_run _ _ _ _ _ (auxRandAugDS_unit_region 1 0 0 st2)).
  rewrite (bind_run _ _ _ _ _ (auxRandAugDS_unit_region 1 0 1 st2)).
  rewrite (bind_run _ _ _ _ _ (auxRandAugDS_unit_region 1 1 0 st2)).
  apply (auxRandAugDS_unit_region 1 1 1 st2).
Qed.

Lemma bind_ret_l {A B} (a : A) (k : A -> M B) (st : state) :
  bind (ret a) k st = k a st.
Proof. reflexivity. Qed.

Lemma guarded_noop (v : Z) (body : M unit) (st : state) :
  body st = (Ret tt, st) -> (if v =? 0 then body else ret tt) st = (Ret tt, st).
Proof. intros Hb. by destruct (v =? 0). Qed.

Lemma bind_assoc {A B C} (m : M A) (k : A -> M B) (k' : B -> M C) (st : state) :
  bind (bind m k) k' st = bind m (fun a => bind (k a) k') st.
Proof. unfold bind. by destruct (m st) as [[a| |] st']. Qed.

(** Symbolic execution of the statement at the head of a run, on a grid
    given cell by cell.  A written value is named first, so that the cells
    stay variables and evaluation touches the list structure only. *)
Ltac run_head := rewrite ?bind_assoc; cbv beta.

Ltac run_get :=
  run_head;
  lazymatch goal with
  | |- bind (getitem ?x ?y) ?k ?st = _ =>
      let r := eval vm_compute in (grid_get (world_map st) x y) in
      lazymatch r with
      | Some ?v =>
          rewrite (bind_run (getitem x y) k st st v (getitem_run x y v st eq_refl))
      end
  end.

Ltac run_set :=
  run_head;
  lazymatch goal with
  | |- bind (setitem ?x ?y ?v) ?k ?st = _ =>
      let w := fresh "cell" in
      remember v as w;
      let r := eval vm_compute in (grid_set (world_map st) x y w) in
      lazymatch r with
      | Some ?g =>
          rewrite (bind_run (setitem x y w) k st _ tt (setitem_run x y w st g eq_refl))
      end
  | |- setitem ?x ?y ?v ?st = _ =>
      let w := fresh "cell" in
      remember v as w;
      let r := eval vm_compute in (grid_set (world_map st) x y w) in
      lazymatch r with
      | Some ?g => rewrite (setitem_run x y w st g eq_refl)
      end
  end;
  cbn [world_map random_state].

Ltac run_dev :=
  run_head;
  lazymatch goal with
  | |- bind (dev ?x0 ?y0 ?x1 ?y1) ?k ?st = _ =>
      rewrite (bind_run _ k st _ _ (dev_run x0 y0 x1 y1 st ltac:(vm_compute; discriminate)));
      cbn [world_map random_state]
  end.

Lemma Diamond_Square_3x3 (a b c d e f g h i : Z) (r : RandomSource) :
  let dv k := deviation_of (nth_randint r k (-2) 2) in
  let centre := dv 0%nat + mean4 a g c i in
  (Diamond 0 0 2 2 1 1 ;; Square 0 0 2 2 1 1)
    (mkState [[a; b; c]; [d; e; f]; [g; h; i]] r)
  = (Ret tt,
     mkState [[a; dv 1%nat + mean3 a c centre; c];
              [dv 3%nat + mean3 a g centre; centre; dv 4%nat + mean3 c i centre];
              [g; dv 2%nat + mean3 g i centre; i]]
             (mkSource (entropy r) (cursor r + 5))).
Proof.
  intros dv centre. unfold Diamond, Square.
  run_dev. run_get. run_get. run_get. run_get. run_set.
  run_dev. run_get. run_get. run_get. run_set.
  run_dev. run_get. run_get. run_get. run_set.
  run_dev. run_get. run_get. run_get. run_set.
  run_dev. run_get. run_get. run_get. run_set.
  subst. rewrite !nth_randint_next.
  change (Z.max (2 - 0) (2 - 0)) with 2. change (- (2)) with (-2).
  unfold next_word. cbn [snd entropy cursor].
  replace (cursor r + 5)%nat with (S (S (S (S (S (cursor r)))))) by lia.
  reflexivity.
Qed.

Ltac run_len :=
  run_head;
  lazymatch goal with
  | |- bind len_world ?k ?st = _ =>
      let n := eval vm_compute in (Z.of_nat (length (world_map st))) in
      rewrite (bind_run len_world k st st n eq_refl)
  | |- bind (len_row ?x) ?k ?st = _ =>
      let r := eval vm_compute in (fst (len_row x st)) in
      lazymatch r with
      | Ret ?n => rewrite (bind_run (len_row x) k st st n eq_refl)
      end
  end.

Ltac run_if :=
  lazymatch goal with
  | |- (if ?b then _ else _) _ = _ =>
      let b' := eval vm_compute in b in
      change b with b'; cbv iota
  | |- bind (if ?b then _ else _) _ _ = _ =>
      let b' := eval vm_compute in b in
      change b with b'; cbv iota
  end.

(** A guarded repair whose body leaves the state as it is. *)
Ltac run_guarded tac :=
  run_head;
  lazymatch goal with
  | |- bind (if ?v =? 0 then ?body else ret tt) ?k ?st = _ =>
      let Hb := fresh "Hb" in
      assert (Hb : body st = (Ret tt, st));
      [ tac
      | rewrite (bind_run _ k st st tt (guarded_noop v body st Hb)); clear Hb ]
  | |- (if ?v =? 0 then ?body else ret tt) ?st = _ =>
      apply guarded_noop; tac
  end.

Ltac repair_noop :=
  run_if;
  first [ reflexivity
        | run_len; run_if;
          first [ reflexivity
                | run_get; run_get; run_get; run_set; subst; reflexivity ] ].

Lemma cleanup_row_3x3 (a b c d e f g h i : Z) (r : RandomSource) (x : Z) :
  x = 0 \/ x = 1 \/ x = 2 ->
  d = mean3 a e g -> f = mean3 c e i ->
  cleanup_row x (mkState [[a; b; c]; [d; e; f]; [g; h; i]] r)
  = (Ret tt, mkState [[a; b; c]; [d; e; f]; [g; h; i]] r).
Proof.
  intros Hx Hd Hf. unfold cleanup_row.
  destruct Hx as [->|[->| ->]];
    run_get; run_guarded repair_noop; run_get; run_guarded repair_noop.
Qed.

Lemma cleanup_column_3x3 (a b c d e f g h i : Z) (r : RandomSource) (y : Z) :
  y = 0 \/ y = 1 \/ y = 2 ->
  b = mean3 a e c -> h = mean3 g e i ->
  cleanup_column y (mkState [[a; b; c]; [d; e; f]; [g; h; i]] r)
  = (Ret tt, mkState [[a; b; c]; [d; e; f]; [g; h; i]] r).
Proof.
  intros Hy Hb Hh. unfold cleanup_column.
  destruct Hy as [->|[->| ->]];
    run_get; run_guarded repair_noop; run_get; run_guarded repair_noop.
Qed.

(** Edge Cleanup changes nothing in a 3 by 3 grid whose four edge
    midpoints are the means it would write. *)
Lemma edgeCleanup_3x3_settled (a b c d e f g h i : Z) (r : RandomSource) :
  b = mean3 a e c -> d = mean3 a e g -> f = mean3 c e i -> h = mean3 g e i ->
  edgeCleanup (mkState [[a; b; c]; [d; e; f]; [g; h; i]] r)
  = (Ret tt, mkState [[a; b; c]; [d; e; f]; [g; h; i]] r).
Proof.
  intros Hb Hd Hf Hh. unfold edgeCleanup. run_len.
  change (range 0 3) with [0; 1; 2]. cbn [for_]. run_head.
  rewrite (bind_run _ _ _ _ _ (cleanup_row_3x3 a b c d e f g h i r 0 ltac:(auto) Hd Hf)).
  run_head.
  rewrite (bind_run _ _ _ _ _ (cleanup_row_3x3 a b c d e f g h i r 1 ltac:(auto) Hd Hf)).
  run_head.
  rewrite (bind_run _ _ _ _ _ (cleanup_row_3x3 a b c d e f g h i r 2 ltac:(auto) Hd Hf)).
  rewrite bind_ret_l. run_len.
  change (range 0 3) with [0; 1; 2]. cbn [for_]. run_head.
  rewrite (bind_run _ _ _ _ _ (cleanup_column_3x3 a b c d e f g h i r 0 ltac:(auto) Hb Hh)).
  run_head.
  rewrite (bind_run _ _ _ _ _ (cleanup_column_3x3 a b c d e f g h i r 1 ltac:(auto) Hb Hh)).
  run_head.
  rewrite (bind_run _ _ _ _ _ (cleanup_column_3x3 a b c d e f g h i r 2 ltac:(auto) Hb Hh)).
  reflexivity.
Qed.

Lemma rect_3x3_cells (g0 : list (list Z)) :
  rect 3 3 g0 ->
  exists a b c d e f g h i, g0 = [[a; b; c]; [d; e; f]; [g; h; i]].
Proof.
  intros [Hlen Hrows].
  destruct g0 as [|r0 [|r1 [|r2 [|]]]]; simpl in Hlen; try lia.
  apply Forall_cons in Hrows as [H0 Hrows].
  apply Forall_cons in Hrows as [H1 Hrows].
  apply Forall_cons in Hrows as [H2 _].
  destruct r0 as [|a [|b [|c [|]]]]; simpl in H0; try lia.
  destruct r1 as [|d [|e [|f [|]]]]; simpl in H1; try lia.
  destruct r2 as [|g [|h [|i [|]]]]; simpl in H2; try lia.
  by exists a, b, c, d, e, f, g, h, i.
Qed.

(** C3. On a 3 by 3 grid, whatever it holds, for every seed: the midpoint
    of 0..2 is 1 without a draw; the driver on (0, 0, 2, 2) is exactly one
    Diamond Step followed by one Square Step at (1, 1), its four sub-calls
    changing neither the grid nor the generator; and the whole run returns
    the grid whose corners are the first four draws (of 0..2), whose
    centre and edge midpoints are the averages of the captured values plus
    the deviations of the next five draws (of -2..2), taken in the order
    centre, (0,1), (2,1), (1,0), (1,2), with the generator advanced by
    exactly nine draws. *)
Theorem three_by_three_run (seed_source : Z -> RandomSource) (seed : Z) (st : state) :
  rect 3 3 (world_map st) ->
  let s := seed_source seed in
  let c00 := nth_randint s 0 0 2 in
  let c02 := nth_randint s 1 0 2 in
  let c20 := nth_randint s 2 0 2 in
  let c22 := nth_randint s 3 0 2 in
  let dv k := deviation_of (nth_randint s k (-2) 2) in
  let centre := dv 4%nat + mean4 c00 c20 c02 c22 in
  let g' := [[c00; dv 5%nat + mean3 c00 c02 centre; c02];
             [dv 7%nat + mean3 c00 c20 centre; centre; dv 8%nat + mean3 c02 c22 centre];
             [c20; dv 6%nat + mean3 c20 c22 centre; c22]] in
  (forall st', randAugIndex 0 2 st' = (Ret 1, st'))
  /\ (forall st',
        auxRandAugDS (enough_fuel 0 0 2 2) 0 0 2 2 st'
        = (Diamond 0 0 2 2 1 1 ;; Square 0 0 2 2 1 1) st')
  /\ (forall st',
        auxRandAugDS 2 0 0 1 1 st' = (Ret tt, st')
        /\ auxRandAugDS 2 0 1 1 2 st' = (Ret tt, st')
        /\ auxRandAugDS 2 1 0 2 1 st' = (Ret tt, st')
        /\ auxRandAugDS 2 1 1 2 2 st' = (Ret tt, st'))
  /\ randAugDS seed_source seed st
     = (Ret g', mkState g' (mkSource (entropy s) (cursor s + 9))).
Proof.
  intros Hz s c00 c02 c20 c22 dv centre g'.
  destruct st as [g0 rng]. simpl in Hz.
  destruct (rect_3x3_cells g0 Hz) as (a0 & b0 & c0 & d0 & e0 & f0 & g1 & h0 & i0 & ->).
  clear Hz.
  split; [reflexivity|]. split; [apply auxRandAugDS_3x3|].
  split.
  { intros st'. split; [|split; [|split]].
    - apply (auxRandAugDS_unit_region 1 0 0).
    - apply (auxRandAugDS_unit_region 1 0 1).
    - apply (auxRandAugDS_unit_region 1 1 0).
    - apply (auxRandAugDS_unit_region 1 1 1). }
  assert (Hdev : forall r k, deviation_of (nth_randint r k (-2) 2) = 0).
  { intros r k. apply deviation_of_small. apply nth_randint_range. lia. }
  unfold randAugDS. cbv zeta.
  rewrite (bind_run (random_seed seed_source seed) _
             (mkState [[a0; b0; c0]; [d0; e0; f0]; [g1; h0; i0]] rng)
             (mkState [[a0; b0; c0]; [d0; e0; f0]; [g1; h0; i0]] s) tt eq_refl).
  run_len. run_len.
  change (3 - 1) with 2. change (Z.max 2 2) with 2.
  assert (H02 : 0 <= 2) by lia.
  rewrite (bind_run _ _ _ _ _ (randint_run 0 2 _ H02)). cbn [world_map random_state].
  run_set.
  rewrite (bind_run _ _ _ _ _ (randint_run 0 2 _ H02)). cbn [world_map random_state].
  run_set.
  rewrite (bind_run _ _ _ _ _ (randint_run 0 2 _ H02)). cbn [world_map random_state].
  run_set.
  rewrite (bind_run _ _ _ _ _ (randint_run 0 2 _ H02)). cbn [world_map random_state].
  run_set.
  lazymatch goal with
  | |- bind (auxRandAugDS _ _ _ _ _) ?k
         (mkState [[?a; ?b; ?c]; [?d; ?e; ?f]; [?g; ?h; ?i]] ?r) = _ =>
      rewrite (bind_run _ k _ _ _
                 (eq_trans (auxRandAugDS_3x3 _)
                           (Diamond_Square_3x3 a b c d e f g h i r)))
  end.
  rewrite !Hdev, !Z.add_0_l.
  lazymatch goal with
  | |- bind edgeCleanup ?k
         (mkState [[?a; _; ?c]; [_; ?e; _]; [?g; _; ?i]] ?r) = _ =>
      rewrite (bind_run _ k _ _ _
                 (edgeCleanup_3x3_settled a _ c _ e _ g _ i r
                    (mean3_swap a e c) (mean3_swap a e g)
                    (mean3_swap c e i) (mean3_swap g e i)))
  end.
  subst. subst g' centre dv c00 c02 c20 c22. cbv beta.
  rewrite !nth_randint_next, !Hdev, !Z.add_0_l.
  unfold next_word. cbn [snd entropy cursor world_map].
  do 3 f_equal. lia.
Qed.

Lemma three_by_three_run_witness :
  rect 3 3 (zeros 3 3) /\
  randAugDS (replay [2; 1; 0; 2; 4; 0; 1; 3; 2]) 0 (mkState (zeros 3 3) (replay [] 0))
  = (Ret [[2; 1; 1]; [1; 1; 1]; [0; 1; 2]],
     mkState [[2; 1; 1]; [1; 1; 1]; [0; 1; 2]]
             (mkSource (entropy (replay [2; 1; 0; 2; 4; 0; 1; 3; 2] 0)) 9)).
Proof.
  assert (Hz : rect 3 3 (zeros 3 3)).
  { split; [reflexivity|]. repeat constructor. }
  split; [exact Hz|].
  exact (proj2 (proj2 (proj2
    (three_by_three_run (replay [2; 1; 0; 2; 4; 0; 1; 3; 2]) 0
       (mkState (zeros 3 3) (replay [] 0)) Hz)))).
Defined.

(** ** The 2 by 7 grid *)

(** With two rows the x axis has no interior index: whatever the index
    drawn on the y axis, the driver runs the column loop on line 0 and
    nothing else. *)
Lemma auxRandAugDS_two_rows (fuel : nat) (g : list (list Z)) (r : RandomSource) :
  auxRandAugDS (S fuel) 0 0 1 6 (mkState g r)
  = for_ (range (0 + 1) 6)
         (fun y => column_assign 0 0 6 y ;; column_assign 0 0 6 y)
         (mkState g (snd (next_word r))).
Proof. reflexivity. Qed.

Lemma small_cases (v : Z) :
  0 <= v <= 6 -> v = 0 \/ v = 1 \/ v = 2 \/ v = 3 \/ v = 4 \/ v = 5 \/ v = 6.
Proof. lia. Qed.

Lemma two_by_seven_fill (a b c d : Z) (r : RandomSource) :
  0 <= a <= 6 -> 0 <= b <= 6 -> 0 <= c <= 6 -> 0 <= d <= 6 ->
  (auxRandAugDS (enough_fuel 0 0 1 6) 0 0 1 6 ;; edgeCleanup)
    (mkState [[a; 0; 0; 0; 0; 0; b]; [c; 0; 0; 0; 0; 0; d]] r)
  = (Ret tt, mkState (two_by_seven_output a b c d) (snd (next_word r))).
Proof.
  intros Ha Hb Hc Hd. unfold bind.
  change (enough_fuel 0 0 1 6) with 2%nat. rewrite auxRandAugDS_two_rows.
  generalize (snd (next_word r)). intros r'.
  apply small_cases in Ha, Hb, Hc, Hd.
  destruct Ha as [->|[->|[->|[->|[->|[->| ->]]]]]];
  destruct Hb as [->|[->|[->|[->|[->|[->| ->]]]]]];
  destruct Hc as [->|[->|[->|[->|[->|[->| ->]]]]]];
  destruct Hd as [->|[->|[->|[->|[->|[->| ->]]]]]];
  vm_compute; reflexivity.
Qed.

(** C8, as stated, fails: with the corner draws 6, 6, 0, 0 the line
    x = 1 runs from 0 to 0 and would be a ramp of zeros, but it holds the
    means written by Edge Cleanup. *)
Lemma two_by_seven_second_line_not_ramp :
  run (randAugDS (replay [6; 6; 0; 0]) 2) (zeros 2 7)
  = (Ret [[6; 6; 6; 6; 6; 6; 6]; [0; 2; 2; 2; 2; 2; 0]],
     [[6; 6; 6; 6; 6; 6; 6]; [0; 2; 2; 2; 2; 2; 0]])
  /\ spec_interpolation 0 0 (1 - 0) (6 - 0) = 0
  /\ grid_get [[6; 6; 6; 6; 6; 6; 6]; [0; 2; 2; 2; 2; 2; 0]] 1 1 <> Some 0.
Proof. repeat split. discriminate. Qed.

(** C8, amended. On a zero-initialized 2 by 7 grid, for every seed: the
    midpoint of 0..1 is 0 without a draw, so that the first call of the
    driver, whatever index the y axis draws, is the column loop on line 0
    and nothing else; the run returns the grid whose corners are the
    first four draws (of 0..6), whose line x = 0 is the linear ramp
    between its two corners, and whose line x = 1, which the driver leaves
    at zero between its corners, holds the three-neighbour means of Edge
    Cleanup; five draws are consumed. *)
Theorem two_by_seven_run (seed_source : Z -> RandomSource) (seed : Z) (st : state) :
  zero_grid 2 7 (world_map st) ->
  let s := seed_source seed in
  let a := nth_randint s 0 0 6 in
  let b := nth_randint s 1 0 6 in
  let c := nth_randint s 2 0 6 in
  let d := nth_randint s 3 0 6 in
  (forall st', randAugIndex 0 1 st' = (Ret 0, st'))
  /\ (forall g r,
        auxRandAugDS (enough_fuel 0 0 1 6) 0 0 1 6 (mkState g r)
        = for_ (range (0 + 1) 6)
               (fun y => column_assign 0 0 6 y ;; column_assign 0 0 6 y)
               (mkState g (snd (next_word r))))
  /\ randAugDS seed_source seed st
     = (Ret (two_by_seven_output a b c d),
        mkState (two_by_seven_output a b c d) (mkSource (entropy s) (cursor s + 5)))
  /\ (forall y, 0 <= y <= 6 ->
        grid_get (two_by_seven_output a b c d) 0 y
        = Some (spec_interpolation a b (y - 0) (6 - 0))).
Proof.
  intros Hz s a b c d.
  apply zero_grid_zeros in Hz. destruct st as [g0 rng]. simpl in Hz. subst g0.
  assert (Hr : forall k, 0 <= nth_randint s k 0 6 <= 6).
  { intros k. apply nth_randint_range. lia. }
  split; [reflexivity|]. split; [intros g r; apply auxRandAugDS_two_rows|].
  split.
  - unfold randAugDS. cbv zeta.
    rewrite (bind_run (random_seed seed_source seed) _ (mkState (zeros 2 7) rng)
               (mkState (zeros 2 7) s) tt eq_refl).
    run_len. run_len.
    change (2 - 1) with 1. change (7 - 1) with 6. change (Z.max 1 6) with 6.
    assert (H06 : 0 <= 6) by lia.
    rewrite (bind_run _ _ _ _ _ (randint_run 0 6 _ H06)). cbn [world_map random_state].
    run_set.
    rewrite (bind_run _ _ _ _ _ (randint_run 0 6 _ H06)). cbn [world_map random_state].
    run_set.
    rewrite (bind_run _ _ _ _ _ (randint_run 0 6 _ H06)). cbn [world_map random_state].
    run_set.
    rewrite (bind_run _ _ _ _ _ (randint_run 0 6 _ H06)). cbn [world_map random_state].
    run_set.
    rewrite <- bind_assoc.
    lazymatch goal with
    | |- bind _ ?k (mkState [[?a'; _; _; _; _; _; ?b']; [?c'; _; _; _; _; _; ?d']] ?r) = _ =>
        rewrite (bind_run _ k _ _ _ (two_by_seven_fill a' b' c' d' r
                   ltac:(subst; rewrite ?nth_randint_next; apply Hr)
                   ltac:(subst; rewrite ?nth_randint_next; apply Hr)
                   ltac:(subst; rewrite ?nth_randint_next; apply Hr)
                   ltac:(subst; rewrite ?nth_randint_next; apply Hr)))
    end.
    subst. subst a b c d. rewrite !nth_randint_next.
    unfold next_word. cbn [snd entropy cursor world_map].
    do 3 f_equal. lia.
  - intros y Hy.
    assert (y = 0 \/ y = 1 \/ y = 2 \/ y = 3 \/ y = 4 \/ y = 5 \/ y = 6) as Hc by lia.
    pose proof (small_cases a (Hr _)) as Ha. pose proof (small_cases b (Hr _)) as Hb.
    clearbody a b.
    destruct Hc as [->|[->|[->|[->|[->|[->| ->]]]]]]; try reflexivity;
      destruct Ha as [->|[->|[->|[->|[->|[->| ->]]]]]];
      destruct Hb as [->|[->|[->|[->|[->|[->| ->]]]]]]; reflexivity.
Qed.

Lemma two_by_seven_run_witness :
  zero_grid 2 7 (zeros 2 7) /\
  randAugDS (replay [1; 4; 6; 6; 0]) 1 (mkState (zeros 2 7) (replay [] 0))
  = (Ret [[1; 1; 2; 2; 3; 3; 4]; [6; 2; 1; 1; 1; 3; 6]],
     mkState [[1; 1; 2; 2; 3; 3; 4]; [6; 2; 1; 1; 1; 3; 6]]
             (mkSource (entropy (replay [1; 4; 6; 6; 0] 1)) 5)).
Proof.
  assert (Hz : zero_grid 2 7 (zeros 2 7)).
  { split; [reflexivity|]. repeat constructor. }
  split; [exact Hz|].
  exact (proj1 (proj2 (proj2
    (two_by_seven_run (replay [1; 4; 6; 6; 0]) 1
       (mkState (zeros 2 7) (replay [] 0)) Hz)))).
Defined.

(** * Further properties of the code *)

(** ** The deviation generator *)

(** [dev] on a region whose larger span [m] is not negative and has at
    most 50 bits draws once, an integer [d] of [-m..m], leaves the grid
    alone and returns [d] over 5 truncated toward zero -- the integer
    that line 76 computes in binary64, although the float 0.2 is not a
    fifth: a deviation of magnitude at most [m / 5].  When both spans are
    negative the range of the draw is empty and [dev] raises [ValueError]
    before drawing. *)
Theorem dev_magnitude (x0 y0 x1 y1 : Z) (st : state) :
  0 <= Z.max (x1 - x0) (y1 - y0) <= 2 ^ 50 ->
  exists d,
    d = nth_randint (random_state st) 0
          (- Z.max (x1 - x0) (y1 - y0)) (Z.max (x1 - x0) (y1 - y0))
    /\ - Z.max (x1 - x0) (y1 - y0) <= d <= Z.max (x1 - x0) (y1 - y0)
    /\ dev x0 y0 x1 y1 st
       = (Ret (Z.quot d 5), mkState (world_map st) (snd (next_word (random_state st))))
    /\ deviation_binary64 d = Ret (Z.quot d 5)
    /\ 5 * Z.abs (Z.quot d 5) <= Z.max (x1 - x0) (y1 - y0)
    /\ forall x0' y0' x1' y1',
         Z.max (x1' - x0') (y1' - y0') < 0 ->
         dev x0' y0' x1' y1' st = (Raise ValueError, st).
Proof.
  intros Hm.
  pose proof (nth_randint_range (random_state st) 0
                (- Z.max (x1 - x0) (y1 - y0)) (Z.max (x1 - x0) (y1 - y0))
                ltac:(lia)) as Hr.
  eexists. split; [reflexivity|]. split; [exact Hr|].
  split; [|split; [|split]].
  - rewrite <- deviation_of_quot. apply dev_run. lia.
  - rewrite <- deviation_of_quot. apply deviation_binary64_exact. lia.
  - set (d := nth_randint _ _ _ _) in *. clearbody d.
    destruct (Z.le_gt_cases 0 d) as [Hd|Hd].
    + pose proof (Z.quot_pos d 5 Hd ltac:(lia)).
      pose proof (Z.mul_quot_le d 5 Hd ltac:(lia)). lia.
    + replace d with (- (- d)) by lia. rewrite Z.quot_opp_l by lia.
      pose proof (Z.quot_pos (- d) 5 ltac:(lia) ltac:(lia)).
      pose proof (Z.mul_quot_le (- d) 5 ltac:(lia) ltac:(lia)). lia.
  - intros x0' y0' x1' y1' Hneg. unfold dev, randint, bind. cbv zeta.
    destruct (Z.ltb_spec (Z.max (x1' - x0') (y1' - y0'))
                (- Z.max (x1' - x0') (y1' - y0'))); [done|lia].
Qed.

Lemma dev_magnitude_witness :
  0 <= Z.max (7 - 0) (4 - 1) <= 2 ^ 50 /\
  exists d,
    dev 0 1 7 4 (mkState [[0]] (replay [13] 0))
    = (Ret (Z.quot d 5), mkState [[0]] (snd (next_word (replay [13] 0))))
    /\ deviation_binary64 d = Ret (Z.quot d 5)
    /\ 5 * Z.abs (Z.quot d 5) <= Z.max (7 - 0) (4 - 1).
Proof.
  assert (Hm : 0 <= Z.max (7 - 0) (4 - 1) <= 2 ^ 50).
  { split; vm_compute; discriminate. }
  split; [exact Hm|].
  destruct (dev_magnitude 0 1 7 4 (mkState [[0]] (replay [13] 0)) Hm)
    as (d & _ & _ & Hrun & Hcode & Hb & _).
  exists d. split; [exact Hrun|]. split; [exact Hcode | exact Hb].
Defined.

(** ** The bias of the midpoint selector *)

Lemma scaled_midpoint_upper_half (a D r : Q) :
  (0 <= r)%Q -> (r < 1)%Q -> (3 <= D)%Q ->
  (a + D * (1 # 2) <= a + (RANDOMIZATION_SCALE_FACTOR * r + 1) * D / 2)%Q /\
  (a + (RANDOMIZATION_SCALE_FACTOR * r + 1) * D / 2 < a + D * (3 # 5))%Q.
Proof.
  intros Hr0 Hr1 HD.
  assert (HrD : (0 <= r * D)%Q) by (apply Qmult_le_0_compat; lra).
  assert (HrD' : (0 < (1 - r) * D)%Q) by (apply Qmult_lt_0_compat; lra).
  unfold RANDOMIZATION_SCALE_FACTOR, Qdiv. change (/ 2)%Q with (1 # 2)%Q.
  split; lra.
Qed.

Lemma aug_index_upper_half (i0 i1 : Z) (r : Q) :
  0 <= i0 -> 3 <= i1 - i0 -> (0 <= r)%Q -> (r < 1)%Q ->
  aug_index i0 i1 r
  = py_int (inject_Z i0
            + (RANDOMIZATION_SCALE_FACTOR * r + 1) * inject_Z (i1 - i0) / 2)
  /\ i0 + (i1 - i0) / 2 <= aug_index i0 i1 r
  /\ 5 * (aug_index i0 i1 r - i0) < 3 * (i1 - i0).
Proof.
  intros Hi0 Hd Hr0 Hr1.
  assert (HD : (3 <= inject_Z (i1 - i0))%Q).
  { change 3%Q with (inject_Z 3). rewrite <- Zle_Qle. lia. }
  destruct (scaled_midpoint_upper_half (inject_Z i0) (inject_Z (i1 - i0)) r Hr0 Hr1 HD)
    as [Hlo Hhi].
  pose proof (aug_index_raw_bounds i0 i1 r Hr0 Hr1 Hd) as Hraw.
  set (q := (inject_Z i0
             + (RANDOMIZATION_SCALE_FACTOR * r + 1) * inject_Z (i1 - i0) / 2)%Q) in *.
  assert (Hi : aug_index i0 i1 r = py_int q).
  { unfold aug_index. fold q. cbv zeta.
    destruct (Z.eqb_spec (py_int q) i0); [lia|].
    destruct (Z.eqb_spec (py_int q) i1); [lia|]. done. }
  rewrite Hi. split; [done|]. split.
  - assert (Hhalf : (inject_Z (i0 + (i1 - i0) / 2) <= q)%Q).
    { eapply Qle_trans; [|exact Hlo]. rewrite inject_Z_plus.
      apply Qplus_le_r. unfold Qle. simpl.
      pose proof (Z.mul_div_le (i1 - i0) 2 ltac:(lia)). lia. }
    apply (py_int_bounds q _ i1 Hhalf).
    eapply Qle_trans; [apply Qlt_le_weak, Hhi|].
    assert (E : (inject_Z i1 == inject_Z i0 + inject_Z (i1 - i0))%Q).
    { rewrite <- inject_Z_plus. apply inject_Z_injective. lia. }
    rewrite E. lra.
  - assert (Hq0 : (0 <= q)%Q).
    { eapply Qle_trans; [|exact Hlo].
      assert (0 <= inject_Z i0)%Q by (change 0%Q with (inject_Z 0); by rewrite <- Zle_Qle).
      lra. }
    pose proof (py_int_floor q Hq0) as Hfl.
    assert (Hlt : (inject_Z (py_int q) < inject_Z i0 + inject_Z (i1 - i0) * (3 # 5))%Q)
      by (eapply Qle_lt_trans; [exact Hfl | exact Hhi]).
    clear -Hlt. unfold Qlt in Hlt. simpl in Hlt. lia.
Qed.

(** On its random path the selector never selects an index of the lower
    half: between list indices [0 <= i0] and [i0 + 3 <= i1 <= 2^48],
    whatever the draw, the index it returns is at least the midpoint
    [i0 + (i1 - i0) / 2] and at most three fifths of the span above
    [i0].  So is the index that lines 94 to 98 compute in binary64 from
    that draw. *)
Theorem randAugIndex_upper_half (i0 i1 : Z) (st : state) :
  0 <= i0 -> 3 <= i1 - i0 -> i1 <= 2 ^ 48 ->
  exists i r st',
    randAugIndex i0 i1 st = (Ret i, st')
    /\ random st = (Ret r, st')
    /\ i0 + (i1 - i0) / 2 <= i
    /\ 5 * (i - i0) <= 3 * (i1 - i0)
    /\ exists i', aug_index_binary64 i0 i1 r = Ret i'
         /\ i0 + (i1 - i0) / 2 <= i'
         /\ 5 * (i' - i0) <= 3 * (i1 - i0).
Proof.
  intros Hi0 Hd Hi1.
  destruct (random_unit_interval st) as (r & Hr & Hr0 & Hr1).
  destruct (aug_index_upper_half i0 i1 r Hi0 Hd Hr0 Hr1) as (Hi & Hlo & Hhi).
  destruct (aug_index_binary64_inside i0 i1 r Hr0 Hr1 Hd ltac:(lia) ltac:(lia))
    as (i' & Hi' & _ & Hcode).
  exists (aug_index i0 i1 r), r,
    (mkState (world_map st) (snd (next_word (random_state st)))).
  split; [|split; [done|split; [done|split; [lia|]]]].
  - unfold randAugIndex.
    destruct (Z.eqb_spec i0 i1); [lia|]. destruct (Z.ltb_spec i1 i0); [lia|].
    destruct (Z.eqb_spec (i0 + 1) i1); [lia|].
    destruct (Z.eqb_spec (i0 + 2) i1); [lia|].
    simpl. by rewrite (bind_run _ _ _ _ _ Hr).
  - exists i'. split; [done|]. by apply Hcode.
Qed.

Lemma randAugIndex_upper_half_witness :
  0 <= 10 /\ 3 <= 30 - 10 /\ 30 <= 2 ^ 48 /\
  exists i r st',
    randAugIndex 10 30 (mkState [[0]] (replay [4503599627370496] 0)) = (Ret i, st')
    /\ random (mkState [[0]] (replay [4503599627370496] 0)) = (Ret r, st')
    /\ 10 + (30 - 10) / 2 <= i
    /\ 5 * (i - 10) <= 3 * (30 - 10).
Proof.
  assert (Hb : 30 <= 2 ^ 48) by (vm_compute; discriminate).
  split; [lia|]. split; [lia|]. split; [exact Hb|].
  destruct (randAugIndex_upper_half 10 30
              (mkState [[0]] (replay [4503599627370496] 0)) ltac:(lia) ltac:(lia) Hb)
    as (i & r & st' & H1 & H2 & H3 & H4 & _).
  exists i, r, st'. split; [exact H1|]. split; [exact H2|].
  split; [exact H3 | exact H4].
Defined.

(** ** The depth of the recursion *)

Lemma randAugIndex_two_thirds (i0 i1 : Z) (st st' : state) (i : Z) :
  0 <= i0 ->
  randAugIndex i0 i1 st = (Ret i, st') ->
  i = i0
  \/ (i0 < i < i1 /\ 3 * (i - i0) <= 2 * (i1 - i0) /\ 3 * (i1 - i) <= 2 * (i1 - i0)).
Proof.
  intros Hi0. unfold randAugIndex, ret.
  destruct (Z.eqb_spec i0 i1); [simpl; intros Hrun; simplify_eq; by left|].
  destruct (Z.ltb_spec i1 i0); [simpl; intros Hrun; simplify_eq; by left|]. simpl.
  destruct (Z.eqb_spec (i0 + 1) i1); [intros Hrun; simplify_eq; by left|].
  destruct (Z.eqb_spec (i0 + 2) i1).
  { intros Hrun. simplify_eq. right. lia. }
  destruct (random_unit_interval st) as (r & Hr & Hr0 & Hr1).
  rewrite (bind_run _ _ _ _ _ Hr). intros Hrun. simplify_eq.
  destruct (aug_index_upper_half i0 i1 r Hi0 ltac:(lia) Hr0 Hr1) as (_ & Hlo & Hhi).
  pose proof (aug_index_interior i0 i1 r Hr0 Hr1 ltac:(lia)).
  pose proof (Z.mul_succ_div_gt (i1 - i0) 2 ltac:(lia)).
  right. lia.
Qed.

Lemma bind_fuel_inv {A B} (m : M A) (k : A -> M B) (st : state) :
  fst (bind m k st) <> OutOfFuel ->
  fst (m st) <> OutOfFuel
  /\ forall a st', m st = (Ret a, st') -> fst (k a st') <> OutOfFuel.
Proof.
  unfold bind. destruct (m st) as [[a| |] st'] eqn:E; simpl; intros H.
  - split; [done|]. intros a' st'' ?. by simplify_eq.
  - split; [done|]. intros; simplify_eq.
  - done.
Qed.

(** More fuel does not change a run that did not run out of fuel. *)
Lemma auxRandAugDS_fuel_monotone (fuel : nat) :
  forall fuel' x0 y0 x1 y1 st,
    (fuel <= fuel')%nat ->
    fst (auxRandAugDS fuel x0 y0 x1 y1 st) <> OutOfFuel ->
    auxRandAugDS fuel' x0 y0 x1 y1 st = auxRandAugDS fuel x0 y0 x1 y1 st.
Proof.
  induction fuel as [|fuel IH]; intros fuel' x0 y0 x1 y1 st Hle Hrun; [done|].
  destruct fuel' as [|fuel']; [lia|].
  simpl in *. destruct ((x0 =? x1) && (y0 =? y1)); [done|].
  apply bind_fuel_inv in Hrun as [_ Hrun].
  apply bind_cong; [done|]. intros i st1 Hi. specialize (Hrun _ _ Hi).
  apply bind_fuel_inv in Hrun as [_ Hrun].
  apply bind_cong; [done|]. intros j st2 Hj. specialize (Hrun _ _ Hj).
  destruct ((i =? x0) || (i =? x1)); [done|].
  destruct ((j =? y0) || (j =? y1)); [done|].
  apply bind_fuel_inv in Hrun as [_ Hrun].
  apply bind_cong; [done|]. intros [] st3 H3. specialize (Hrun _ _ H3).
  apply bind_fuel_inv in Hrun as [_ Hrun].
  apply bind_cong; [done|]. intros [] st4 H4. specialize (Hrun _ _ H4).
  apply bind_fuel_inv in Hrun as [Hr5 Hrun].
  pose proof (IH fuel' _ _ _ _ _ ltac:(lia) Hr5) as E5.
  apply bind_cong; [done|]. intros [] st5 H5. rewrite E5 in H5.
  specialize (Hrun _ _ H5).
  apply bind_fuel_inv in Hrun as [Hr6 Hrun].
  pose proof (IH fuel' _ _ _ _ _ ltac:(lia) Hr6) as E6.
  apply bind_cong; [done|]. intros [] st6 H6. rewrite E6 in H6.
  specialize (Hrun _ _ H6).
  apply bind_fuel_inv in Hrun as [Hr7 Hrun].
  pose proof (IH fuel' _ _ _ _ _ ltac:(lia) Hr7) as E7.
  apply bind_cong; [done|]. intros [] st7 H7. rewrite E7 in H7.
  specialize (Hrun _ _ H7).
  apply IH; [lia|done].
Qed.

Lemma auxRandAugDS_depth_fuel_free (fuel : nat) :
  forall x0 y0 x1 y1,
    0 <= x0 -> (1 <= fuel)%nat ->
    (x1 - x0) * 2 ^ Z.of_nat fuel <= 3 ^ Z.of_nat fuel ->
    fuel_free (auxRandAugDS fuel x0 y0 x1 y1).
Proof.
  induction fuel as [|fuel IH]; intros x0 y0 x1 y1 Hx0 Hf Hd; [lia|].
  simpl. destruct ((x0 =? x1) && (y0 =? y1)); [auto with fuel|].
  apply fuel_free_bind_post
    with (Q := fun i => i = x0 \/ (x0 < i < x1 /\ 3 * (i - x0) <= 2 * (x1 - x0)
                                   /\ 3 * (x1 - i) <= 2 * (x1 - x0)));
    [auto with fuel | intros st i st'; by apply randAugIndex_two_thirds |].
  intros i Hi. apply fuel_free_bind; [auto with fuel|]. intros j.
  destruct ((i =? x0) || (i =? x1)) eqn:Ei.
  { apply fuel_free_for. intros y. auto with fuel. }
  destruct ((j =? y0) || (j =? y1)) eqn:Ej.
  { apply fuel_free_for. intros x. auto with fuel. }
  apply orb_false_elim in Ei as [Ei _]. apply Z.eqb_neq in Ei.
  destruct Hi as [?|(Hin & Hl & Hr)]; [done|].
  rewrite Nat2Z.inj_succ, !Z.pow_succ_r in Hd by lia.
  assert (H2 : 0 < 2 ^ Z.of_nat fuel) by (apply Z.pow_pos_nonneg; lia).
  assert (H3 : 0 < 3 ^ Z.of_nat fuel) by (apply Z.pow_pos_nonneg; lia).
  assert (Hf' : (1 <= fuel)%nat).
  { destruct fuel; [simpl in Hd; lia | lia]. }
  set (A := 2 ^ Z.of_nat fuel) in *. set (B := 3 ^ Z.of_nat fuel) in *.
  clearbody A B.
  assert (Hleft : (i - x0) * A <= B) by nia.
  assert (Hright : (x1 - i) * A <= B) by nia.
  repeat (apply fuel_free_bind; [|intros ?]); auto with fuel; apply IH; (lia || done).
Qed.

(** The recursion is logarithmically deep.  From a region that starts at
    a list index [0 <= x0], a depth [n >= 1] with [(3/2)^n] at least the
    x span is never exceeded, whatever the grid and the draws: the run
    limited to [n] nested calls does not run out, and is the run of the
    entry point. *)
Theorem auxRandAugDS_logarithmic_depth (n : nat) (x0 y0 x1 y1 : Z) (st : state) :
  0 <= x0 -> (1 <= n)%nat ->
  (x1 - x0) * 2 ^ Z.of_nat n <= 3 ^ Z.of_nat n ->
  fst (auxRandAugDS n x0 y0 x1 y1 st) <> OutOfFuel
  /\ auxRandAugDS (enough_fuel x0 y0 x1 y1) x0 y0 x1 y1 st
     = auxRandAugDS n x0 y0 x1 y1 st.
Proof.
  intros Hx0 Hn Hd.
  pose proof (auxRandAugDS_depth_fuel_free n x0 y0 x1 y1 Hx0 Hn Hd st) as Hfree.
  split; [done|].
  destruct (Nat.le_gt_cases n (enough_fuel x0 y0 x1 y1)) as [Hle|Hgt].
  - by apply auxRandAugDS_fuel_monotone.
  - unfold enough_fuel in *. apply auxRandAugDS_fuel_irrelevant; lia.
Qed.

Lemma auxRandAugDS_logarithmic_depth_witness :
  0 <= 0 /\ (1 <= 12)%nat /\ (100 - 0) * 2 ^ Z.of_nat 12 <= 3 ^ Z.of_nat 12 /\
  fst (auxRandAugDS 12 0 0 100 60 (mkState (zeros 101 61) (replay [3; 1; 4] 0)))
  <> OutOfFuel.
Proof.
  split; [lia|]. split; [lia|]. split; [vm_compute; discriminate|].
  apply (auxRandAugDS_logarithmic_depth 12 0 0 100 60
           (mkState (zeros 101 61) (replay [3; 1; 4] 0)));
    [lia | lia | vm_compute; discriminate].
Defined.

(** ** Runs that change only the cells they may *)

Section Frame.

Variables (W H : Z) (keep : Z -> Z -> Prop) (g0 : list (list Z)).

Local Abbreviation Framed := (framed_run W H keep g0).

Lemma frame_ret {A} (a : A) (Q : A -> Prop) : Q a -> Framed (ret a) Q.
Proof. intros HQ st Hst. by exists a, st. Qed.

Lemma frame_bind {A B} (m : M A) (k : A -> M B) (Q : A -> Prop) (R : B -> Prop) :
  Framed m Q -> (forall a, Q a -> Framed (k a) R) -> Framed (bind m k) R.
Proof.
  intros Hm Hk st Hst.
  destruct (Hm st Hst) as (a & st' & Hrun & Hst' & HQ).
  destruct (Hk a HQ st' Hst') as (b & st'' & Hrun' & Hpost).
  exists b, st''. split; [|done]. by rewrite (bind_run _ _ _ _ _ Hrun).
Qed.

Lemma frame_for {A} (xs : list A) (body : A -> M unit) :
  (forall x, x ∈ xs -> Framed (body x) (fun _ => True)) ->
  Framed (for_ xs body) (fun _ => True).
Proof.
  induction xs as [|x xs IH]; intros Hb; simpl.
  - by apply frame_ret.
  - eapply frame_bind; [apply Hb; by left|]. intros _ _.
    apply IH. intros x' Hx'. apply Hb. by right.
Qed.

Lemma frame_len_world : Framed len_world (fun n => n = W).
Proof.
  intros st Hst. exists (Z.of_nat (length (world_map st))), st.
  split; [done|]. split; [done|]. by destruct Hst as [[HW _] _].
Qed.

Lemma frame_len_row (x : Z) : - W <= x < W -> Framed (len_row x) (fun h => h = H).
Proof.
  intros Hx st Hst. pose proof Hst as [Hg _].
  destruct (rect_row W H _ (norm W x) Hg (norm_range W x Hx)) as (row & Hrow & Hlen).
  exists H, st. split; [|done].
  unfold len_row, py_get. destruct Hg as [HW _].
  rewrite py_index_norm by lia. by rewrite HW, Hrow, Hlen.
Qed.

(** A read returns the height that [g0] holds there, if the cell is kept. *)
Lemma frame_getitem (x y : Z) :
  - W <= x < W -> - H <= y < H ->
  Framed (getitem x y)
    (fun v => keep (norm W x) (norm H y) ->
              grid_get g0 (norm W x) (norm H y) = Some v).
Proof.
  intros Hx Hy st Hst. pose proof Hst as [Hg Hk].
  destruct (rect_get W H _ x y Hg Hx Hy) as (v & Hv & Hv').
  exists v, st. split; [by apply getitem_run|]. split; [done|].
  intros Hkeep. rewrite <- Hk; [done|by apply norm_range..|done].
Qed.

Lemma frame_setitem (x y v : Z) :
  - W <= x < W -> - H <= y < H -> ~ keep (norm W x) (norm H y) ->
  Framed (setitem x y v) (fun _ => True).
Proof.
  intros Hx Hy Hc st [Hg Hk].
  destruct (rect_set W H _ x y v Hg Hx Hy) as (g' & Hset & Hg' & _ & Hother).
  eexists tt, _. split; [by apply setitem_run|]. split; [|done].
  split; [done|]. simpl. intros x' y' Hx' Hy' Hkeep. rewrite <- Hk by done.
  apply Hother; [lia..|].
  destruct (decide (x' = norm W x)) as [->|]; [|by left].
  destruct (decide (y' = norm H y)) as [->|]; [|by right]. done.
Qed.

Lemma frame_randint (a b : Z) :
  a <= b -> Framed (randint a b) (fun v => a <= v <= b).
Proof.
  intros Hab st Hst. rewrite (randint_run a b st Hab). eexists _, _.
  split; [reflexivity|]. split; [done|]. by apply nth_randint_range.
Qed.

Lemma frame_randAugIndex (i0 i1 : Z) :
  Framed (randAugIndex i0 i1) (fun i => i = i0 \/ i0 < i < i1).
Proof.
  intros st Hst.
  destruct (randAugIndex_cases i0 i1 st) as (i & st' & Hrun & Hw & Hi).
  exists i, st'. split; [done|]. split; [|done].
  unfold framed. by rewrite Hw.
Qed.

Lemma frame_slope (a d t s : Z) : s <> 0 -> Framed (slope a d t s) (fun _ => True).
Proof.
  intros Hs st Hst. rewrite (slope_run a d t s st Hs). by eexists _, _.
Qed.

Lemma frame_dev (x0 y0 x1 y1 : Z) :
  0 <= Z.max (x1 - x0) (y1 - y0) -> Framed (dev x0 y0 x1 y1) (fun _ => True).
Proof.
  intros Hm st Hst. rewrite (dev_run x0 y0 x1 y1 st Hm). by eexists _, _.
Qed.

End Frame.

Ltac frame_side :=
  unfold norm;
  repeat match goal with
         | |- context [?k <? 0] => destruct (Z.ltb_spec k 0)
         end;
  lia.

Ltac frame_read :=
  eapply frame_bind; [apply frame_getitem; frame_side | intros ? _].

Lemma frame_Diamond (W H : Z) (keep : Z -> Z -> Prop) (g0 : list (list Z))
    (x0 y0 x1 y1 i j : Z) :
  0 <= x0 -> x0 < i < x1 -> x1 < W -> 0 <= y0 -> y0 < j < y1 -> y1 < H ->
  ~ keep i j ->
  framed_run W H keep g0 (Diamond x0 y0 x1 y1 i j) (fun _ => True).
Proof.
  intros ? ? ? ? ? ? Hk. unfold Diamond.
  eapply frame_bind; [apply frame_dev; lia | intros ? _].
  do 4 frame_read.
  apply frame_setitem; [lia | lia |]. by rewrite !norm_nonneg by lia.
Qed.

Lemma frame_Square (W H : Z) (keep : Z -> Z -> Prop) (g0 : list (list Z))
    (x0 y0 x1 y1 i j : Z) :
  0 <= x0 -> x0 < i < x1 -> x1 < W -> 0 <= y0 -> y0 < j < y1 -> y1 < H ->
  ~ keep x0 j -> ~ keep x1 j -> ~ keep i y0 -> ~ keep i y1 ->
  framed_run W H keep g0 (Square x0 y0 x1 y1 i j) (fun _ => True).
Proof.
  intros ? ? ? ? ? ? K1 K2 K3 K4. unfold Square.
  eapply frame_bind; [apply frame_dev; lia | intros ? _]. do 3 frame_read.
  eapply frame_bind;
    [apply frame_setitem; [lia | lia | by rewrite !norm_nonneg by lia] | intros _ _].
  eapply frame_bind; [apply frame_dev; lia | intros ? _]. do 3 frame_read.
  eapply frame_bind;
    [apply frame_setitem; [lia | lia | by rewrite !norm_nonneg by lia] | intros _ _].
  eapply frame_bind; [apply frame_dev; lia | intros ? _]. do 3 frame_read.
  eapply frame_bind;
    [apply frame_setitem; [lia | lia | by rewrite !norm_nonneg by lia] | intros _ _].
  eapply frame_bind; [apply frame_dev; lia | intros ? _]. do 3 frame_read.
  apply frame_setitem; [lia | lia |]. by rewrite !norm_nonneg by lia.
Qed.

Lemma frame_column_assign (W H : Z) (keep : Z -> Z -> Prop) (g0 : list (list Z))
    (i y0 y1 y : Z) :
  0 <= i < W -> 0 <= y0 -> y0 < y < y1 -> y1 < H -> ~ keep i y ->
  framed_run W H keep g0 (column_assign i y0 y1 y) (fun _ => True).
Proof.
  intros ? ? ? ? Hk. unfold column_assign. do 3 frame_read.
  eapply frame_bind; [apply frame_slope; lia | intros ? _].
  apply frame_setitem; [lia | lia |]. by rewrite !norm_nonneg by lia.
Qed.

Lemma frame_row_assign (W H : Z) (keep : Z -> Z -> Prop) (g0 : list (list Z))
    (x0 x1 j x : Z) :
  0 <= x0 -> x0 < x < x1 -> x1 < W -> 0 <= j < H -> ~ keep x j ->
  framed_run W H keep g0 (row_assign x0 x1 j x) (fun _ => True).
Proof.
  intros ? ? ? ? Hk. unfold row_assign. do 3 frame_read.
  eapply frame_bind; [apply frame_slope; lia | intros ? _].
  apply frame_setitem; [lia | lia |]. by rewrite !norm_nonneg by lia.
Qed.

(** ** The cells that the driver writes *)

Lemma frame_auxRandAugDS (W H : Z) (g0 : list (list Z)) (X0 Y0 X1 Y1 : Z)
    (fuel : nat) :
  forall x0 y0 x1 y1,
    0 <= X0 -> X0 <= x0 -> x0 <= x1 -> x1 <= X1 -> X1 < W ->
    0 <= Y0 -> Y0 <= y0 -> y0 <= y1 -> y1 <= Y1 -> Y1 < H ->
    (Z.to_nat (x1 - x0) < fuel)%nat ->
    framed_run W H (off_region X0 Y0 X1 Y1) g0
      (auxRandAugDS fuel x0 y0 x1 y1) (fun _ => True).
Proof.
  induction fuel as [|fuel IH];
    intros x0 y0 x1 y1 HX0 Hx0 Hx Hx1 HX1 HY0 Hy0 Hy Hy1 HY1 Hf; [lia|].
  simpl. destruct ((x0 =? x1) && (y0 =? y1)); [by apply frame_ret|].
  eapply frame_bind; [apply frame_randAugIndex|]. intros i Hi.
  eapply frame_bind; [apply frame_randAugIndex|]. intros j Hj.
  destruct ((i =? x0) || (i =? x1)) eqn:Ei.
  { apply frame_for. intros y Hy'%elem_of_range.
    apply orb_true_iff in Ei as [Ei|Ei]; apply Z.eqb_eq in Ei; subst i;
      (eapply frame_bind; [|intros ? ?]); apply frame_column_assign;
      try lia; unfold off_region; lia. }
  pose proof (general_case_interior _ _ _ Hi Ei) as Hin.
  destruct ((j =? y0) || (j =? y1)) eqn:Ej.
  { apply frame_for. intros x Hx'%elem_of_range.
    (eapply frame_bind; [|intros ? ?]); apply frame_row_assign;
      try lia; unfold off_region; lia. }
  pose proof (general_case_interior _ _ _ Hj Ej) as Hjn.
  eapply frame_bind; [apply frame_Diamond; try lia; unfold off_region; lia|].
  intros _ _.
  eapply frame_bind; [apply frame_Square; try lia; unfold off_region; lia|].
  intros _ _.
  eapply frame_bind; [apply IH; lia|]. intros _ _.
  eapply frame_bind; [apply IH; lia|]. intros _ _.
  eapply frame_bind; [apply IH; lia|]. intros _ _.
  apply IH; lia.
Qed.

(** On a region that lies inside a rectangular grid whose heights are at
    most 2^52 in absolute value the driver returns, keeps the shape of
    the grid, and writes inside the region only, never on one of its
    four corners: every cell outside the region, and each corner of the
    region, is as it was. *)
Theorem auxRandAugDS_writes_inside (W H x0 y0 x1 y1 : Z) (st : state) :
  rect W H (world_map st) ->
  heights_below (2 ^ 52) (world_map st) ->
  0 <= x0 <= x1 -> x1 < W -> 0 <= y0 <= y1 -> y1 < H ->
  exists st',
    auxRandAugDS (enough_fuel x0 y0 x1 y1) x0 y0 x1 y1 st = (Ret tt, st')
    /\ rect W H (world_map st')
    /\ forall x y, 0 <= x < W -> 0 <= y < H ->
         off_region x0 y0 x1 y1 x y ->
         grid_get (world_map st') x y = grid_get (world_map st) x y.
Proof.
  intros Hg _ Hx Hx1 Hy Hy1.
  destruct (frame_auxRandAugDS W H (world_map st) x0 y0 x1 y1
              (enough_fuel x0 y0 x1 y1) x0 y0 x1 y1
              ltac:(lia) ltac:(lia) ltac:(lia) ltac:(lia) ltac:(lia)
              ltac:(lia) ltac:(lia) ltac:(lia) ltac:(lia) ltac:(lia)
              ltac:(unfold enough_fuel; lia) st)
    as ([] & st' & Hrun & [Hg' Hk] & _); [by split|].
  by exists st'.
Qed.

Lemma auxRandAugDS_writes_inside_witness :
  rect 6 5 (zeros 6 5) /\ heights_below (2 ^ 52) (zeros 6 5) /\
  0 <= 1 <= 4 /\ 4 < 6 /\ 0 <= 1 <= 3 /\ 3 < 5 /\
  exists st',
    auxRandAugDS (enough_fuel 1 1 4 3) 1 1 4 3
      (mkState (zeros 6 5) (replay [5; 2; 8; 1; 9; 3] 0)) = (Ret tt, st')
    /\ rect 6 5 (world_map st').
Proof.
  assert (Hr : rect 6 5 (zeros 6 5)).
  { split; [reflexivity|]. repeat constructor. }
  assert (Hh : heights_below (2 ^ 52) (zeros 6 5)).
  { repeat constructor; vm_compute; discriminate. }
  split; [exact Hr|]. split; [exact Hh|].
  split; [lia|]. split; [lia|]. split; [lia|]. split; [lia|].
  destruct (auxRandAugDS_writes_inside 6 5 1 1 4 3
              (mkState (zeros 6 5) (replay [5; 2; 8; 1; 9; 3] 0)))
    as (st' & Hrun & Hg & _); [exact Hr | exact Hh | lia | lia | lia | lia |].
  exists st'. split; [exact Hrun | exact Hg].
Defined.

(** ** The cells that Edge Cleanup writes *)

Lemma draw_free_ret {A} (a : A) : draw_free (ret a).
Proof. by intros st. Qed.

Lemma draw_free_bind {A B} (m : M A) (k : A -> M B) :
  draw_free m -> (forall a, draw_free (k a)) -> draw_free (bind m k).
Proof.
  intros Hm Hk st. unfold bind. specialize (Hm st).
  destruct (m st) as [[a| |] st'] eqn:E; simpl in *; [|done..].
  rewrite <- Hm. apply Hk.
Qed.

Lemma draw_free_getitem (x y : Z) : draw_free (getitem x y).
Proof. intros st. unfold getitem. by case_match. Qed.

Lemma draw_free_setitem (x y v : Z) : draw_free (setitem x y v).
Proof. intros st. unfold setitem. by case_match. Qed.

Lemma draw_free_len_world : draw_free len_world.
Proof. by intros st. Qed.

Lemma draw_free_len_row (x : Z) : draw_free (len_row x).
Proof. intros st. unfold len_row. by case_match. Qed.

Lemma draw_free_for {A} (xs : list A) (body : A -> M unit) :
  (forall x, draw_free (body x)) -> draw_free (for_ xs body).
Proof.
  intros Hb. induction xs as [|x xs IH]; simpl.
  - apply draw_free_ret.
  - apply draw_free_bind; auto.
Qed.

Create HintDb draws.
#[local] Hint Resolve draw_free_ret draw_free_getitem draw_free_setitem
  draw_free_len_world draw_free_len_row draw_free_for : draws.
#[local] Hint Extern 2 (draw_free (bind _ _)) =>
  apply draw_free_bind; [|intros ?] : draws.
#[local] Hint Extern 3 (draw_free (if ?b then _ else _)) => destruct b : draws.

Lemma draw_free_cleanup_row (x : Z) : draw_free (cleanup_row x).
Proof. unfold cleanup_row. auto 30 with draws. Qed.

Lemma draw_free_cleanup_column (y : Z) : draw_free (cleanup_column y).
Proof. unfold cleanup_column. auto 30 with draws. Qed.

Lemma draw_free_edgeCleanup : draw_free edgeCleanup.
Proof.
  unfold edgeCleanup.
  repeat (apply draw_free_bind; [|intros ?]); auto with draws;
    apply draw_free_for; intros ?;
    [apply draw_free_cleanup_row | apply draw_free_cleanup_column].
Qed.

Lemma norm_negative (n k : Z) : k < 0 -> norm n k = n + k.
Proof. intros Hk. unfold norm. destruct (Z.ltb_spec k 0); lia. Qed.

(** A repair: the cell just read as 0 is an edge cell, hence not settled. *)
Lemma frame_repair (W H : Z) (g0 : list (list Z)) (x y x1 y1 x2 y2 x3 y3 : Z) :
  - W <= x < W -> - H <= y < H ->
  - W <= x1 < W -> - H <= y1 < H ->
  - W <= x2 < W -> - H <= y2 < H ->
  - W <= x3 < W -> - H <= y3 < H ->
  edge_cell W H (norm W x) (norm H y) ->
  (settled W H g0 (norm W x) (norm H y) ->
   grid_get g0 (norm W x) (norm H y) = Some 0) ->
  framed_run W H (settled W H g0) g0
    (a <- getitem x1 y1 ;; b <- getitem x2 y2 ;; c <- getitem x3 y3 ;;
     setitem x y (mean3 a b c))
    (fun _ => True).
Proof.
  intros Hx Hy Hx1 Hy1 Hx2 Hy2 Hx3 Hy3 He Hv.
  eapply frame_bind; [by apply frame_getitem | intros a _].
  eapply frame_bind; [by apply frame_getitem | intros b _].
  eapply frame_bind; [by apply frame_getitem | intros c _].
  apply frame_setitem; [done..|].
  intros Hs. specialize (Hv Hs).
  destruct Hs as [(v0 & Hv0 & Hne)|Hne]; [congruence|done].
Qed.

Lemma frame_cleanup_row (W H : Z) (g0 : list (list Z)) (x : Z) :
  2 <= H -> 0 <= x < W ->
  framed_run W H (settled W H g0) g0 (cleanup_row x) (fun _ => True).
Proof.
  intros HH Hx. unfold cleanup_row.
  eapply frame_bind; [apply frame_getitem; lia|]. intros v Hv.
  eapply frame_bind with (Q := fun _ => True).
  { destruct (Z.eqb_spec v 0) as [->|]; [|by apply frame_ret].
    destruct (Z.ltb_spec 0 x); [|by apply frame_ret].
    eapply frame_bind; [apply frame_len_world|]. intros n ->.
    destruct (Z.ltb_spec x (W - 1)); [|by apply frame_ret].
    apply frame_repair; try lia; try done.
    rewrite !norm_nonneg by lia. unfold edge_cell. lia. }
  intros _ _. eapply frame_bind; [apply frame_getitem; lia|]. intros v' Hv'.
  destruct (Z.eqb_spec v' 0) as [->|]; [|by apply frame_ret].
  destruct (Z.ltb_spec 0 x); [|by apply frame_ret].
  eapply frame_bind; [apply frame_len_world|]. intros n ->.
  destruct (Z.ltb_spec x (W - 1)); [|by apply frame_ret].
  apply frame_repair; try lia; try done.
  rewrite (norm_nonneg W), (norm_negative H) by lia. unfold edge_cell. lia.
Qed.

Lemma frame_cleanup_column (W H : Z) (g0 : list (list Z)) (y : Z) :
  2 <= W -> 0 <= y < H ->
  framed_run W H (settled W H g0) g0 (cleanup_column y) (fun _ => True).
Proof.
  intros HW Hy. unfold cleanup_column.
  eapply frame_bind; [apply frame_getitem; lia|]. intros v Hv.
  eapply frame_bind with (Q := fun _ => True).
  { destruct (Z.eqb_spec v 0) as [->|]; [|by apply frame_ret].
    destruct (Z.ltb_spec 0 y); [|by apply frame_ret].
    eapply frame_bind; [apply frame_len_row; lia|]. intros h ->.
    destruct (Z.ltb_spec y (H - 1)); [|by apply frame_ret].
    apply frame_repair; try lia; try done.
    rewrite !norm_nonneg by lia. unfold edge_cell. lia. }
  intros _ _. eapply frame_bind; [apply frame_getitem; lia|]. intros v' Hv'.
  destruct (Z.eqb_spec v' 0) as [->|]; [|by apply frame_ret].
  destruct (Z.ltb_spec 0 y); [|by apply frame_ret].
  eapply frame_bind; [apply frame_len_row; lia|]. intros h ->.
  destruct (Z.ltb_spec y (H - 1)); [|by apply frame_ret].
  apply frame_repair; try lia; try done.
  rewrite (norm_negative W), (norm_nonneg H) by lia. unfold edge_cell. lia.
Qed.

(** On a rectangular grid of at least two rows and two columns whose
    heights are at most 2^52 in absolute value Edge Cleanup returns
    without drawing, keeps the shape of the grid, and changes nothing
    but edge cells that held 0: every cell that held another height,
    every corner and every cell off the border is as it was. *)
Theorem edgeCleanup_repairs_zero_edges (W H : Z) (st : state) :
  rect W H (world_map st) -> heights_below (2 ^ 52) (world_map st) ->
  2 <= W -> 2 <= H ->
  exists st',
    edgeCleanup st = (Ret tt, st')
    /\ rect W H (world_map st')
    /\ random_state st' = random_state st
    /\ forall x y, 0 <= x < W -> 0 <= y < H ->
         settled W H (world_map st) x y ->
         grid_get (world_map st') x y = grid_get (world_map st) x y.
Proof.
  intros Hg _ HW HH.
  assert (Hrun : framed_run W H (settled W H (world_map st)) (world_map st)
                   edgeCleanup (fun _ => True)).
  { unfold edgeCleanup.
    eapply frame_bind; [apply frame_len_world|]. intros n ->.
    eapply frame_bind.
    { apply frame_for. intros x Hx%elem_of_range. apply frame_cleanup_row; lia. }
    intros _ _. eapply frame_bind; [apply frame_len_row; lia|]. intros h ->.
    apply frame_for. intros y Hy%elem_of_range. apply frame_cleanup_column; lia. }
  destruct (Hrun st) as ([] & st' & Hst' & [Hg' Hk] & _); [by split|].
  exists st'. split; [done|]. split; [done|]. split; [|done].
  pose proof (draw_free_edgeCleanup st) as Hd. by rewrite Hst' in Hd.
Qed.

Lemma edgeCleanup_repairs_zero_edges_witness :
  rect 3 4 [[5; 0; 7; 1]; [0; 0; 0; 2]; [3; 4; 0; 0]] /\
  heights_below (2 ^ 52) [[5; 0; 7; 1]; [0; 0; 0; 2]; [3; 4; 0; 0]] /\
  2 <= 3 /\ 2 <= 4 /\
  exists st',
    edgeCleanup (mkState [[5; 0; 7; 1]; [0; 0; 0; 2]; [3; 4; 0; 0]] (replay [] 0))
    = (Ret tt, st')
    /\ random_state st' = replay [] 0.
Proof.
  assert (Hr : rect 3 4 [[5; 0; 7; 1]; [0; 0; 0; 2]; [3; 4; 0; 0]]).
  { split; [reflexivity|]. repeat constructor. }
  assert (Hh : heights_below (2 ^ 52) [[5; 0; 7; 1]; [0; 0; 0; 2]; [3; 4; 0; 0]]).
  { repeat constructor; vm_compute; discriminate. }
  split; [exact Hr|]. split; [exact Hh|]. split; [lia|]. split; [lia|].
  destruct (edgeCleanup_repairs_zero_edges 3 4
              (mkState [[5; 0; 7; 1]; [0; 0; 0; 2]; [3; 4; 0; 0]] (replay [] 0)))
    as (st' & Hrun & _ & Hrng & _); [exact Hr | exact Hh | lia | lia |].
  exists st'. split; [exact Hrun | exact Hrng].
Defined.

Lemma for_identity {A} (xs : list A) (body : A -> M unit) (st : state) :
  (forall x, x ∈ xs -> body x st = (Ret tt, st)) -> for_ xs body st = (Ret tt, st).
Proof.
  induction xs as [|x xs IH]; intros Hb; simpl; [done|].
  rewrite (bind_run _ _ _ _ _ (Hb x ltac:(by left))).
  apply IH. intros x' Hx'. apply Hb. by right.
Qed.

(** A guarded repair does nothing when the cell read is not 0 or the
    index is not strictly inside. *)
Lemma guarded_repair_skip (v x n : Z) (len : M Z) (body : M unit) (st : state) :
  len st = (Ret n, st) ->
  (v = 0 -> 0 < x < n - 1 -> False) ->
  (if v =? 0 then
     if 0 <? x then n' <- len ;; if x <? n' - 1 then body else ret tt
     else ret tt
   else ret tt) st = (Ret tt, st).
Proof.
  intros Hlen Hskip.
  destruct (Z.eqb_spec v 0); [|done]. destruct (Z.ltb_spec 0 x); [|done].
  rewrite (bind_run _ _ _ _ _ Hlen).
  destruct (Z.ltb_spec x (n - 1)); [|done]. exfalso. by apply Hskip.
Qed.

Lemma cleanup_row_settled (W H x : Z) (st : state) :
  rect W H (world_map st) -> 1 <= H -> 0 <= x < W ->
  (forall y, edge_cell W H x y ->
             exists v, grid_get (world_map st) x y = Some v /\ v <> 0) ->
  cleanup_row x st = (Ret tt, st).
Proof.
  intros Hg HH Hx Hne. unfold cleanup_row.
  assert (Hlen : len_world st = (Ret W, st)).
  { unfold len_world. by destruct Hg as [-> _]. }
  destruct (rect_get W H _ x 0 Hg ltac:(lia) ltac:(lia)) as (v & Hv & Hv').
  destruct (rect_get W H _ x (-1) Hg ltac:(lia) ltac:(lia)) as (v' & Hw & Hw').
  rewrite norm_nonneg in Hv', Hw' by lia.
  rewrite norm_nonneg in Hv' by lia. rewrite norm_negative in Hw' by lia.
  rewrite (bind_run _ _ _ _ _ (getitem_run x 0 v st Hv)).
  erewrite bind_run; cycle 1.
  { apply (guarded_repair_skip v x W len_world _ st Hlen). intros -> Hin.
    destruct (Hne 0) as (v0 & Hv0 & Hnz); [unfold edge_cell; lia|]. congruence. }
  rewrite (bind_run _ _ _ _ _ (getitem_run x (-1) v' st Hw)).
  apply (guarded_repair_skip v' x W len_world _ st Hlen). intros -> Hin.
  destruct (Hne (H + -1)) as (v0 & Hv0 & Hnz); [unfold edge_cell; lia|]. congruence.
Qed.

Lemma cleanup_column_settled (W H y : Z) (st : state) :
  rect W H (world_map st) -> 1 <= W -> 0 <= y < H ->
  (forall x, edge_cell W H x y ->
             exists v, grid_get (world_map st) x y = Some v /\ v <> 0) ->
  cleanup_column y st = (Ret tt, st).
Proof.
  intros Hg HW Hy Hne. unfold cleanup_column.
  assert (Hlen : len_row 0 st = (Ret H, st)).
  { destruct (rect_row W H _ 0 Hg ltac:(lia)) as (row & Hrow & Hl).
    unfold len_row. rewrite py_get_nonneg by lia. by rewrite Hrow, Hl. }
  destruct (rect_get W H _ 0 y Hg ltac:(lia) ltac:(lia)) as (v & Hv & Hv').
  destruct (rect_get W H _ (-1) y Hg ltac:(lia) ltac:(lia)) as (v' & Hw & Hw').
  rewrite (norm_nonneg H) in Hv', Hw' by lia.
  rewrite norm_nonneg in Hv' by lia. rewrite norm_negative in Hw' by lia.
  rewrite (bind_run _ _ _ _ _ (getitem_run 0 y v st Hv)).
  erewrite bind_run; cycle 1.
  { apply (guarded_repair_skip v y H (len_row 0) _ st Hlen). intros -> Hin.
    destruct (Hne 0) as (v0 & Hv0 & Hnz); [unfold edge_cell; lia|]. congruence. }
  rewrite (bind_run _ _ _ _ _ (getitem_run (-1) y v' st Hw)).
  apply (guarded_repair_skip v' y H (len_row 0) _ st Hlen). intros -> Hin.
  destruct (Hne (W + -1)) as (v0 & Hv0 & Hnz); [unfold edge_cell; lia|]. congruence.
Qed.

Lemma edgeCleanup_identity (W H : Z) (st : state) :
  rect W H (world_map st) -> 1 <= W -> 1 <= H ->
  (forall x y, edge_cell W H x y ->
               exists v, grid_get (world_map st) x y = Some v /\ v <> 0) ->
  edgeCleanup st = (Ret tt, st).
Proof.
  intros Hg HW HH Hne. unfold edgeCleanup.
  assert (Hlw : len_world st = (Ret W, st)).
  { unfold len_world. by destruct Hg as [-> _]. }
  assert (Hlr : len_row 0 st = (Ret H, st)).
  { destruct (rect_row W H _ 0 Hg ltac:(lia)) as (row & Hrow & Hl).
    unfold len_row. rewrite py_get_nonneg by lia. by rewrite Hrow, Hl. }
  rewrite (bind_run _ _ _ _ _ Hlw).
  erewrite bind_run; cycle 1.
  { apply for_identity. intros x Hx%elem_of_range.
    apply (cleanup_row_settled W H); [done | done | lia | auto]. }
  rewrite (bind_run _ _ _ _ _ Hlr).
  apply for_identity. intros y Hy%elem_of_range.
  apply (cleanup_column_settled W H); [done | done | lia | auto].
Qed.

(** Edge Cleanup is the identity on a rectangular grid, of a single row
    or column too, none of whose edge cells holds 0: it returns and the
    state is the one it started from.  In particular a second cleanup
    after one that left no zero on the border changes nothing. *)
Theorem edgeCleanup_nonzero_edges (W H : Z) (st : state) :
  rect W H (world_map st) -> 1 <= W -> 1 <= H ->
  (forall x y, edge_cell W H x y ->
               exists v, grid_get (world_map st) x y = Some v /\ v <> 0) ->
  edgeCleanup st = (Ret tt, st).
Proof. apply edgeCleanup_identity. Qed.

Lemma edgeCleanup_nonzero_edges_witness :
  rect 1 4 [[0; 2; 3; 0]] /\ 1 <= 1 /\ 1 <= 4 /\
  edgeCleanup (mkState [[0; 2; 3; 0]] (replay [] 0))
  = (Ret tt, mkState [[0; 2; 3; 0]] (replay [] 0)).
Proof.
  assert (Hr : rect 1 4 [[0; 2; 3; 0]]).
  { split; [reflexivity|]. repeat constructor. }
  split; [exact Hr|]. split; [lia|]. split; [lia|].
  apply (edgeCleanup_nonzero_edges 1 4 (mkState [[0; 2; 3; 0]] (replay [] 0)));
    [exact Hr | lia | lia |].
  intros x y [[Hy Hx]|[Hx Hy]]; [lia|].
  assert (x = 0) as -> by lia.
  assert (y = 1 \/ y = 2) as [-> | ->] by lia; eexists; (split; [reflexivity|lia]).
Defined.

(** ** One subdivision step *)

Lemma rect_set_nonneg (W H : Z) (g : list (list Z)) (x y v : Z) :
  rect W H g -> 0 <= x < W -> 0 <= y < H ->
  exists g', grid_set g x y v = Some g'
             /\ rect W H g'
             /\ grid_get g' x y = Some v
             /\ forall x' y', 0 <= x' -> 0 <= y' -> x' <> x \/ y' <> y ->
                  grid_get g' x' y' = grid_get g x' y'.
Proof.
  intros Hg Hx Hy.
  destruct (rect_set W H g x y v Hg ltac:(lia) ltac:(lia)) as (g' & H1 & H2 & H3 & H4).
  rewrite !norm_nonneg in * by lia. by exists g'.
Qed.

Lemma heights_below_get (B : Z) (g : list (list Z)) (x y v : Z) :
  heights_below B g -> grid_get g x y = Some v -> Z.abs v <= B.
Proof.
  intros Hh Hv. unfold grid_get, py_get in Hv.
  destruct (py_index (length g) x) as [p|]; [|done].
  destruct (g !! p) as [row|] eqn:Er; [|done].
  destruct (py_index (length row) y) as [q|]; [|done].
  eapply Forall_lookup_1 in Hh; [|exact Er].
  eapply Forall_lookup_1 in Hh; [|exact Hv]. done.
Qed.

(** The Diamond Step on a region inside a rectangular grid of at most
    2^50 rows and columns, with heights of at most 2^50 in absolute
    value, draws once and writes one cell: the centre [(i, j)] becomes
    the deviation of the draw plus the truncated mean of the four corners
    of the region, and the binary64 arithmetic of lines 76 and 132 yields
    these two integers; the shape of the grid and every other cell are as
    they were. *)
Theorem Diamond_step (W H x0 y0 x1 y1 i j c00 c10 c01 c11 : Z) (st : state) :
  rect W H (world_map st) ->
  heights_below (2 ^ 50) (world_map st) -> W <= 2 ^ 50 -> H <= 2 ^ 50 ->
  0 <= x0 <= x1 -> x1 < W -> 0 <= y0 <= y1 -> y1 < H ->
  0 <= i < W -> 0 <= j < H ->
  grid_get (world_map st) x0 y0 = Some c00 ->
  grid_get (world_map st) x1 y0 = Some c10 ->
  grid_get (world_map st) x0 y1 = Some c01 ->
  grid_get (world_map st) x1 y1 = Some c11 ->
  let d := nth_randint (random_state st) 0
             (- Z.max (x1 - x0) (y1 - y0)) (Z.max (x1 - x0) (y1 - y0)) in
  exists st',
    Diamond x0 y0 x1 y1 i j st = (Ret tt, st')
    /\ rect W H (world_map st')
    /\ random_state st' = snd (next_word (random_state st))
    /\ grid_get (world_map st') i j
       = Some (deviation_of d + mean4 c00 c10 c01 c11)
    /\ deviation_binary64 d = Ret (deviation_of d)
    /\ mean4_binary64 c00 c10 c01 c11 = Ret (mean4 c00 c10 c01 c11)
    /\ forall x y, 0 <= x -> 0 <= y -> x <> i \/ y <> j ->
         grid_get (world_map st') x y = grid_get (world_map st) x y.
Proof.
  intros Hg Hh HW HH Hx Hx1 Hy Hy1 Hi Hj H00 H10 H01 H11 d.
  assert (Hd : deviation_binary64 d = Ret (deviation_of d)).
  { apply deviation_binary64_exact. unfold d.
    pose proof (nth_randint_range (random_state st) 0
                  (- Z.max (x1 - x0) (y1 - y0)) (Z.max (x1 - x0) (y1 - y0))
                  ltac:(lia)).
    eval_pow. lia. }
  assert (Hm : mean4_binary64 c00 c10 c01 c11 = Ret (mean4 c00 c10 c01 c11)).
  { apply mean4_binary64_exact.
    pose proof (heights_below_get _ _ _ _ _ Hh H00).
    pose proof (heights_below_get _ _ _ _ _ Hh H10).
    pose proof (heights_below_get _ _ _ _ _ Hh H01).
    pose proof (heights_below_get _ _ _ _ _ Hh H11).
    eval_pow. lia. }
  clear Hh. subst d.
  destruct st as [g rng]. simpl in *. unfold Diamond.
  rewrite (bind_run _ _ _ _ _ (dev_run x0 y0 x1 y1 _ ltac:(lia))).
  cbn [world_map random_state].
  set (st1 := mkState g (snd (next_word rng))).
  rewrite (bind_run _ _ _ _ _ (getitem_run x0 y0 c00 st1 H00)).
  rewrite (bind_run _ _ _ _ _ (getitem_run x1 y0 c10 st1 H10)).
  rewrite (bind_run _ _ _ _ _ (getitem_run x0 y1 c01 st1 H01)).
  rewrite (bind_run _ _ _ _ _ (getitem_run x1 y1 c11 st1 H11)).
  set (v := deviation_of _ + mean4 c00 c10 c01 c11).
  destruct (rect_set_nonneg W H g i j v Hg Hi Hj) as (g' & Hset & Hg' & Hv & Ho).
  rewrite (setitem_run i j v st1 g' Hset).
  eexists. split; [reflexivity|]. by simpl.
Qed.

Lemma Diamond_step_witness :
  rect 3 3 [[4; 0; 8]; [0; 0; 0]; [2; 0; 6]] /\
  heights_below (2 ^ 50) [[4; 0; 8]; [0; 0; 0]; [2; 0; 6]] /\
  exists st',
    Diamond 0 0 2 2 1 1 (mkState [[4; 0; 8]; [0; 0; 0]; [2; 0; 6]] (replay [4] 0))
    = (Ret tt, st')
    /\ grid_get (world_map st') 1 1 = Some 5.
Proof.
  assert (Hr : rect 3 3 [[4; 0; 8]; [0; 0; 0]; [2; 0; 6]]).
  { split; [reflexivity|]. repeat constructor. }
  assert (Hh : heights_below (2 ^ 50) [[4; 0; 8]; [0; 0; 0]; [2; 0; 6]]).
  { repeat constructor; vm_compute; discriminate. }
  split; [exact Hr|]. split; [exact Hh|].
  destruct (Diamond_step 3 3 0 0 2 2 1 1 4 2 8 6
              (mkState [[4; 0; 8]; [0; 0; 0]; [2; 0; 6]] (replay [4] 0)))
    as (st' & Hrun & _ & _ & Hc & _);
    [exact Hr | exact Hh | apply Z.leb_le; vm_compute; reflexivity
    | apply Z.leb_le; vm_compute; reflexivity | lia | lia | lia | lia | lia | lia
    | reflexivity | reflexivity | reflexivity | reflexivity |].
  exists st'. split; [exact Hrun | exact Hc].
Defined.

(** The Square Step at a point strictly inside a region of a rectangular
    grid of at most 2^50 rows and columns, with heights of at most 2^50
    in absolute value, draws four times and writes the four edge
    midpoints.  None of its writes is read back: each midpoint becomes
    the deviation of its own draw plus the truncated mean of the two
    corners beside it and of the centre, all three as they were before
    the step, and the binary64 arithmetic of lines 76 and 112 to 118
    yields these integers; the shape of the grid and every other cell are
    as they were. *)
Theorem Square_step (W H x0 y0 x1 y1 i j c00 c01 c10 c11 cc : Z) (st : state) :
  rect W H (world_map st) ->
  heights_below (2 ^ 50) (world_map st) -> W <= 2 ^ 50 -> H <= 2 ^ 50 ->
  0 <= x0 -> x0 < i < x1 -> x1 < W -> 0 <= y0 -> y0 < j < y1 -> y1 < H ->
  grid_get (world_map st) x0 y0 = Some c00 ->
  grid_get (world_map st) x0 y1 = Some c01 ->
  grid_get (world_map st) x1 y0 = Some c10 ->
  grid_get (world_map st) x1 y1 = Some c11 ->
  grid_get (world_map st) i j = Some cc ->
  let s := random_state st in
  let dy k := deviation_of (nth_randint s k (- (y1 - y0)) (y1 - y0)) in
  let dx k := deviation_of (nth_randint s k (- (x1 - x0)) (x1 - x0)) in
  exists st',
    Square x0 y0 x1 y1 i j st = (Ret tt, st')
    /\ rect W H (world_map st')
    /\ random_state st' = mkSource (entropy s) (cursor s + 4)
    /\ grid_get (world_map st') x0 j = Some (dy 0%nat + mean3 c00 c01 cc)
    /\ grid_get (world_map st') x1 j = Some (dy 1%nat + mean3 c10 c11 cc)
    /\ grid_get (world_map st') i y0 = Some (dx 2%nat + mean3 c00 c10 cc)
    /\ grid_get (world_map st') i y1 = Some (dx 3%nat + mean3 c01 c11 cc)
    /\ (forall k, deviation_binary64 (nth_randint s k (- (y1 - y0)) (y1 - y0))
                  = Ret (dy k))
    /\ (forall k, deviation_binary64 (nth_randint s k (- (x1 - x0)) (x1 - x0))
                  = Ret (dx k))
    /\ mean3_binary64 c00 c01 cc = Ret (mean3 c00 c01 cc)
    /\ mean3_binary64 c10 c11 cc = Ret (mean3 c10 c11 cc)
    /\ mean3_binary64 c00 c10 cc = Ret (mean3 c00 c10 cc)
    /\ mean3_binary64 c01 c11 cc = Ret (mean3 c01 c11 cc)
    /\ forall x y, 0 <= x -> 0 <= y ->
         ~ (x = x0 /\ y = j) -> ~ (x = x1 /\ y = j) ->
         ~ (x = i /\ y = y0) -> ~ (x = i /\ y = y1) ->
         grid_get (world_map st') x y = grid_get (world_map st) x y.
Proof.
  intros Hg Hh HW HH Hx0 Hi Hx1 Hy0 Hj Hy1 H00 H01 H10 H11 Hcc s dy dx.
  assert (Hdy : forall k, deviation_binary64 (nth_randint s k (- (y1 - y0)) (y1 - y0))
                          = Ret (dy k)).
  { intros k. apply deviation_binary64_exact.
    pose proof (nth_randint_range s k (- (y1 - y0)) (y1 - y0) ltac:(lia)).
    eval_pow. lia. }
  assert (Hdx : forall k, deviation_binary64 (nth_randint s k (- (x1 - x0)) (x1 - x0))
                          = Ret (dx k)).
  { intros k. apply deviation_binary64_exact.
    pose proof (nth_randint_range s k (- (x1 - x0)) (x1 - x0) ltac:(lia)).
    eval_pow. lia. }
  pose proof (heights_below_get _ _ _ _ _ Hh H00) as B00.
  pose proof (heights_below_get _ _ _ _ _ Hh H01) as B01.
  pose proof (heights_below_get _ _ _ _ _ Hh H10) as B10.
  pose proof (heights_below_get _ _ _ _ _ Hh H11) as B11.
  pose proof (heights_below_get _ _ _ _ _ Hh Hcc) as Bcc.
  assert (Hm : mean3_binary64 c00 c01 cc = Ret (mean3 c00 c01 cc)
               /\ mean3_binary64 c10 c11 cc = Ret (mean3 c10 c11 cc)
               /\ mean3_binary64 c00 c10 cc = Ret (mean3 c00 c10 cc)
               /\ mean3_binary64 c01 c11 cc = Ret (mean3 c01 c11 cc)).
  { repeat split; apply mean3_binary64_exact; eval_pow; lia. }
  destruct Hm as (Hm1 & Hm2 & Hm3 & Hm4).
  clear Hh B00 B01 B10 B11 Bcc.
  revert Hdy Hdx. generalize (deviation_binary64). intros dev64 Hdy Hdx.
  destruct st as [g rng]. simpl in *. subst s. unfold Square.
  (* first midpoint *)
  rewrite (bind_run _ _ _ _ _ (dev_run y0 y0 y1 y1 _ ltac:(lia))).
  cbn [world_map random_state]. rewrite !Z.max_id.
  set (r1 := snd (next_word rng)).
  rewrite (bind_run _ _ _ _ _ (getitem_run x0 y0 c00 (mkState g r1) H00)).
  rewrite (bind_run _ _ _ _ _ (getitem_run x0 y1 c01 (mkState g r1) H01)).
  rewrite (bind_run _ _ _ _ _ (getitem_run i j cc (mkState g r1) Hcc)).
  destruct (rect_set_nonneg W H g x0 j (dy 0%nat + mean3 c00 c01 cc) Hg
              ltac:(lia) ltac:(lia)) as (g1 & S1 & Hg1 & V1 & O1).
  rewrite (bind_run _ _ _ _ _ (setitem_run _ _ _ (mkState g r1) g1 S1)).
  cbn [world_map random_state].
  (* second midpoint *)
  rewrite (bind_run _ _ _ _ _ (dev_run y0 y0 y1 y1 _ ltac:(lia))).
  cbn [world_map random_state]. rewrite !Z.max_id.
  set (r2 := snd (next_word r1)).
  assert (A10 : grid_get g1 x1 y0 = Some c10) by (rewrite O1 by lia; done).
  assert (A11 : grid_get g1 x1 y1 = Some c11) by (rewrite O1 by lia; done).
  assert (Acc : grid_get g1 i j = Some cc) by (rewrite O1 by lia; done).
  rewrite (bind_run _ _ _ _ _ (getitem_run x1 y0 c10 (mkState g1 r2) A10)).
  rewrite (bind_run _ _ _ _ _ (getitem_run x1 y1 c11 (mkState g1 r2) A11)).
  rewrite (bind_run _ _ _ _ _ (getitem_run i j cc (mkState g1 r2) Acc)).
  destruct (rect_set_nonneg W H g1 x1 j (dy 1%nat + mean3 c10 c11 cc) Hg1
              ltac:(lia) ltac:(lia)) as (g2 & S2 & Hg2 & V2 & O2).
  unfold r1 at 1. rewrite nth_randint_next.
  rewrite (bind_run _ _ _ _ _ (setitem_run _ _ _ (mkState g1 r2) g2 S2)).
  cbn [world_map random_state].
  (* third midpoint *)
  rewrite (bind_run _ _ _ _ _ (dev_run x0 x0 x1 x1 _ ltac:(lia))).
  cbn [world_map random_state]. rewrite !Z.max_id.
  set (r3 := snd (next_word r2)).
  assert (B00 : grid_get g2 x0 y0 = Some c00) by (rewrite O2, O1 by lia; done).
  assert (B10 : grid_get g2 x1 y0 = Some c10) by (rewrite O2, O1 by lia; done).
  assert (Bcc : grid_get g2 i j = Some cc) by (rewrite O2, O1 by lia; done).
  rewrite (bind_run _ _ _ _ _ (getitem_run x0 y0 c00 (mkState g2 r3) B00)).
  rewrite (bind_run _ _ _ _ _ (getitem_run x1 y0 c10 (mkState g2 r3) B10)).
  rewrite (bind_run _ _ _ _ _ (getitem_run i j cc (mkState g2 r3) Bcc)).
  destruct (rect_set_nonneg W H g2 i y0 (dx 2%nat + mean3 c00 c10 cc) Hg2
              ltac:(lia) ltac:(lia)) as (g3 & S3 & Hg3 & V3 & O3).
  unfold r2 at 1, r1 at 1. rewrite !nth_randint_next.
  rewrite (bind_run _ _ _ _ _ (setitem_run _ _ _ (mkState g2 r3) g3 S3)).
  cbn [world_map random_state].
  (* fourth midpoint *)
  rewrite (bind_run _ _ _ _ _ (dev_run x0 x0 x1 x1 _ ltac:(lia))).
  cbn [world_map random_state]. rewrite !Z.max_id.
  set (r4 := snd (next_word r3)).
  assert (C01 : grid_get g3 x0 y1 = Some c01) by (rewrite O3, O2, O1 by lia; done).
  assert (C11 : grid_get g3 x1 y1 = Some c11) by (rewrite O3, O2, O1 by lia; done).
  assert (Ccc : grid_get g3 i j = Some cc) by (rewrite O3, O2, O1 by lia; done).
  rewrite (bind_run _ _ _ _ _ (getitem_run x0 y1 c01 (mkState g3 r4) C01)).
  rewrite (bind_run _ _ _ _ _ (getitem_run x1 y1 c11 (mkState g3 r4) C11)).
  rewrite (bind_run _ _ _ _ _ (getitem_run i j cc (mkState g3 r4) Ccc)).
  destruct (rect_set_nonneg W H g3 i y1 (dx 3%nat + mean3 c01 c11 cc) Hg3
              ltac:(lia) ltac:(lia)) as (g4 & S4 & Hg4 & V4 & O4).
  unfold r3 at 1, r2 at 1, r1 at 1. rewrite !nth_randint_next.
  eexists. split; [exact (setitem_run _ _ _ (mkState g3 r4) g4 S4)|].
  cbn [world_map random_state].
  split; [done|]. split.
  { unfold r4, r3, r2, r1, next_word. cbn [snd entropy cursor]. f_equal. lia. }
  split; [by rewrite O4, O3, O2 by lia|].
  split; [by rewrite O4, O3 by lia|].
  split; [by rewrite O4 by lia|].
  split; [done|].
  split; [exact Hdy|]. split; [exact Hdx|].
  split; [done|]. split; [done|]. split; [done|]. split; [done|].
  intros x y Hx Hy N1 N2 N3 N4. rewrite O4, O3, O2, O1 by lia. done.
Qed.

Lemma Square_step_witness :
  rect 3 3 [[4; 0; 8]; [0; 5; 0]; [2; 0; 6]] /\
  heights_below (2 ^ 50) [[4; 0; 8]; [0; 5; 0]; [2; 0; 6]] /\
  exists st',
    Square 0 0 2 2 1 1 (mkState [[4; 0; 8]; [0; 5; 0]; [2; 0; 6]] (replay [2; 2; 2; 2] 0))
    = (Ret tt, st')
    /\ grid_get (world_map st') 0 1 = Some 5
    /\ grid_get (world_map st') 2 1 = Some 4
    /\ grid_get (world_map st') 1 0 = Some 3
    /\ grid_get (world_map st') 1 2 = Some 6.
Proof.
  assert (Hr : rect 3 3 [[4; 0; 8]; [0; 5; 0]; [2; 0; 6]]).
  { split; [reflexivity|]. repeat constructor. }
  assert (Hh : heights_below (2 ^ 50) [[4; 0; 8]; [0; 5; 0]; [2; 0; 6]]).
  { repeat constructor; vm_compute; discriminate. }
  split; [exact Hr|]. split; [exact Hh|].
  destruct (Square_step 3 3 0 0 2 2 1 1 4 8 2 6 5
              (mkState [[4; 0; 8]; [0; 5; 0]; [2; 0; 6]] (replay [2; 2; 2; 2] 0)))
    as (st' & Hrun & _ & _ & H1 & H2 & H3 & H4 & _);
    [exact Hr | exact Hh | apply Z.leb_le; vm_compute; reflexivity
    | apply Z.leb_le; vm_compute; reflexivity | lia | lia | lia | lia | lia | lia
    | reflexivity | reflexivity | reflexivity | reflexivity | reflexivity |].
  exists st'. split; [exact Hrun|]. split; [exact H1|]. split; [exact H2|].
  split; [exact H3 | exact H4].
Defined.

(** ** The heights that the two interpolation loops write *)

Lemma spec_interpolation_between (a b t s : Z) :
  0 <= t <= s -> 0 < s ->
  Z.min a b <= spec_interpolation a b t s <= Z.max a b.
Proof.
  intros Ht Hs. destruct s as [|p|p]; try lia.
  unfold spec_interpolation. apply py_int_bounds; unfold Qle; simpl;
    rewrite ?Pos.mul_1_l, ?Pos.mul_1_r, ?Z.mul_1_r; nia.
Qed.

Lemma spec_interpolation_quot (a b t s : Z) :
  0 < s -> spec_interpolation a b t s = Z.quot (a * s + (b - a) * t) s.
Proof.
  intros Hs. destruct s as [|p|p]; try lia.
  unfold spec_interpolation, py_int. simpl.
  rewrite ?Pos.mul_1_l, ?Pos.mul_1_r, ?Z.mul_1_r. done.
Qed.

Lemma spec_interpolation_ends (a b s : Z) :
  0 < s -> spec_interpolation a b 0 s = a /\ spec_interpolation a b s s = b.
Proof.
  intros Hs. rewrite !spec_interpolation_quot by done. split.
  - rewrite Z.mul_0_r, Z.add_0_r. apply Z.quot_mul. lia.
  - replace (a * s + (b - a) * s) with (b * s) by lia. apply Z.quot_mul. lia.
Qed.

Lemma spec_interpolation_monotone (a b t t' s : Z) :
  0 < s -> t <= t' ->
  (a <= b -> spec_interpolation a b t s <= spec_interpolation a b t' s)
  /\ (b <= a -> spec_interpolation a b t' s <= spec_interpolation a b t s).
Proof.
  intros Hs Ht. rewrite !spec_interpolation_quot by done.
  split; intros Hab; apply Z.quot_le_mono; nia.
Qed.

(** The column loop never overshoots.  After the column-degenerate branch
    on a line [i] that holds [a] at [y0] and [b] at [y1 > y0], with
    [(|a| + |b| + 1) * (y1 - y0) <= 2^50], every cell of the line from
    [y0] to [y1] holds a height between [a] and [b], which for a cell
    strictly between the ends is the integer that the binary64 arithmetic
    of line 152 yields, and the heights are monotone along the line: they
    do not decrease when [a <= b] and do not increase when [b <= a]. *)
Theorem column_degenerate_ramp
    (fuel : nat) (x0 y0 x1 y1 i j a b : Z) (st st1 st2 : state) :
  (x0 =? x1) && (y0 =? y1) = false ->
  randAugIndex x0 x1 st = (Ret i, st1) ->
  randAugIndex y0 y1 st1 = (Ret j, st2) ->
  i = x0 \/ i = x1 ->
  0 <= i -> 0 <= y0 -> y0 < y1 ->
  grid_get (world_map st) i y0 = Some a ->
  grid_get (world_map st) i y1 = Some b ->
  (Z.abs a + Z.abs b + 1) * (y1 - y0) <= 2 ^ 50 ->
  exists st',
    auxRandAugDS (S fuel) x0 y0 x1 y1 st = (Ret tt, st')
    /\ (forall y, y0 <= y <= y1 ->
          exists v, grid_get (world_map st') i y = Some v
                    /\ Z.min a b <= v <= Z.max a b
                    /\ (y0 < y < y1 ->
                        slope_binary64 a (b - a) (y - y0) (y1 - y0) = Ret v))
    /\ (forall y y' v v', y0 <= y -> y <= y' -> y' <= y1 ->
          grid_get (world_map st') i y = Some v ->
          grid_get (world_map st') i y' = Some v' ->
          (a <= b -> v <= v') /\ (b <= a -> v' <= v)).
Proof.
  intros Hterm Hi Hj Hdeg Hi0 Hy0 Hy Ha Hb Hsize.
  assert (Hw1 : world_map st1 = world_map st).
  { destruct (randAugIndex_cases x0 x1 st) as (? & ? & E & Hw & _).
    rewrite Hi in E. by simplify_eq. }
  assert (Hw2 : world_map st2 = world_map st).
  { destruct (randAugIndex_cases y0 y1 st1) as (? & ? & E & Hw & _).
    rewrite Hj in E. simplify_eq. congruence. }
  rewrite grid_get_nonneg in Ha, Hb by lia.
  destruct (world_map st !! Z.to_nat i) as [row|] eqn:Hrow; [|done].
  assert (Hlen : y1 < Z.of_nat (length row)).
  { apply lookup_lt_Some in Hb. lia. }
  destruct st2 as [g2 rng2]. simpl in Hw2. subst g2.
  destruct (column_loop i y0 y1 a b (range (y0 + 1) y1) (world_map st) rng2 row)
    as (row' & Hrun & Hlen' & Hin & Hout); try done; try lia.
  { apply Forall_forall. intros y Hy'. apply elem_of_range in Hy'. lia. }
  assert (Hline : forall y, y0 <= y <= y1 ->
            grid_get (<[Z.to_nat i := row']> (world_map st)) i y
            = Some (spec_interpolation a b (y - y0) (y1 - y0))).
  { intros y Hyy. rewrite grid_get_nonneg by lia.
    rewrite list_lookup_insert_eq by (by eapply lookup_lt_Some).
    destruct (spec_interpolation_ends a b (y1 - y0) ltac:(lia)) as [E0 E1].
    destruct (decide (y = y0)) as [->|Hn0].
    { rewrite Z.sub_diag, E0, Hout; [done|].
      intros y' Hy'%elem_of_range. lia. }
    destruct (decide (y = y1)) as [->|Hn1].
    { rewrite E1, Hout; [done|]. intros y' Hy'%elem_of_range. lia. }
    apply Hin. apply elem_of_range. lia. }
  eexists. split; [|split].
  - simpl. rewrite Hterm. rewrite (bind_run _ _ _ _ _ Hi).
    rewrite (bind_run _ _ _ _ _ Hj).
    assert (Hb' : (i =? x0) || (i =? x1) = true).
    { destruct Hdeg as [->| ->]; rewrite Z.eqb_refl; [done|apply orb_true_r]. }
    rewrite Hb'. exact Hrun.
  - intros y Hyy. eexists. split; [by apply Hline|].
    split; [apply spec_interpolation_between; lia|].
    intros Hin'. apply interpolation_binary64_exact; [lia | lia | done].
  - intros y y' v v' H1 H2 H3 Hv Hv'. simpl in Hv, Hv'.
    rewrite Hline in Hv, Hv' by lia. simplify_eq.
    apply spec_interpolation_monotone; lia.
Qed.

Lemma column_degenerate_ramp_witness :
  let st := mkState [[3; 0; 0; 0; 9]] (replay [0] 0) in
  0 <= 0 /\ 0 < 4 /\ (Z.abs 3 + Z.abs 9 + 1) * (4 - 0) <= 2 ^ 50 /\
  exists st',
    auxRandAugDS 1 0 0 0 4 st = (Ret tt, st')
    /\ (forall y, 0 <= y <= 4 ->
          exists v, grid_get (world_map st') 0 y = Some v
                    /\ Z.min 3 9 <= v <= Z.max 3 9
                    /\ (0 < y < 4 ->
                        slope_binary64 3 (9 - 3) (y - 0) (4 - 0) = Ret v)).
Proof.
  intros st.
  assert (Hs : (Z.abs 3 + Z.abs 9 + 1) * (4 - 0) <= 2 ^ 50).
  { apply Z.leb_le. vm_compute. reflexivity. }
  split; [lia|]. split; [lia|]. split; [exact Hs|].
  destruct (column_degenerate_ramp 0 0 0 0 4 0 2 3 9 st st
              (mkState [[3; 0; 0; 0; 9]] (mkSource (entropy (replay [0] 0)) 1)))
    as (st' & Hrun & Hin & _);
    [reflexivity | reflexivity | reflexivity | left; reflexivity | lia | lia | lia
    | reflexivity | reflexivity | exact Hs |].
  exists st'. split; [exact Hrun | exact Hin].
Defined.

Lemma row_assign_run (W H : Z) (g : list (list Z)) (rng : RandomSource)
    (x0 x1 j x a b : Z) :
  rect W H g -> 0 <= x0 -> x0 < x < x1 -> x1 < W -> 0 <= j < H ->
  grid_get g x0 j = Some a -> grid_get g x1 j = Some b ->
  exists g',
    row_assign x0 x1 j x (mkState g rng) = (Ret tt, mkState g' rng)
    /\ rect W H g'
    /\ grid_get g' x j = Some (spec_interpolation a (2 * a - b) (x - x0) (x1 - x0))
    /\ forall x' y', 0 <= x' -> 0 <= y' -> x' <> x \/ y' <> j ->
         grid_get g' x' y' = grid_get g x' y'.
Proof.
  intros Hg Hx0 Hx Hx1 Hj Ha Hb. unfold row_assign.
  rewrite (bind_run _ _ _ _ _ (getitem_run x0 j a (mkState g rng) Ha)).
  rewrite (bind_run _ _ _ _ _ (getitem_run x0 j a (mkState g rng) Ha)).
  rewrite (bind_run _ _ _ _ _ (getitem_run x1 j b (mkState g rng) Hb)).
  rewrite (bind_run _ _ _ _ _ (slope_run a (a - b) (x - x0) (x1 - x0) _ ltac:(lia))).
  assert (Hv : py_int (inject_Z a + inject_Z ((a - b) * (x - x0)) / inject_Z (x1 - x0))
               = spec_interpolation a (2 * a - b) (x - x0) (x1 - x0)).
  { unfold spec_interpolation. by replace (2 * a - b - a) with (a - b) by lia. }
  rewrite Hv.
  destruct (rect_set_nonneg W H g x j
              (spec_interpolation a (2 * a - b) (x - x0) (x1 - x0)) Hg
              ltac:(lia) ltac:(lia)) as (g' & Hset & Hg' & Hval & Ho).
  exists g'. split; [|done].
  by rewrite (setitem_run _ _ _ (mkState g rng) g' Hset).
Qed.

Lemma row_loop (W H x0 x1 j a b : Z) (xs : list Z) :
  forall (g : list (list Z)) (rng : RandomSource),
    rect W H g -> 0 <= x0 -> x1 < W -> 0 <= j < H ->
    grid_get g x0 j = Some a -> grid_get g x1 j = Some b ->
    Forall (fun x => x0 < x < x1) xs ->
    exists g',
      for_ xs (fun x => row_assign x0 x1 j x ;; row_assign x0 x1 j x) (mkState g rng)
      = (Ret tt, mkState g' rng)
      /\ rect W H g'
      /\ (forall x, x ∈ xs ->
            grid_get g' x j
            = Some (spec_interpolation a (2 * a - b) (x - x0) (x1 - x0)))
      /\ (forall x y, 0 <= x -> 0 <= y -> ~ (y = j /\ x ∈ xs) ->
            grid_get g' x y = grid_get g x y).
Proof.
  induction xs as [|x xs IH]; intros g rng Hg Hx0 Hx1 Hj Ha Hb Hxs.
  - exists g. split; [done|]. split; [done|]. split; [|done].
    intros x Hx. by apply elem_of_nil in Hx.
  - apply Forall_cons in Hxs as [Hx Hxs].
    destruct (row_assign_run W H g rng x0 x1 j x a b) as (g1 & R1 & Hg1 & V1 & O1);
      try done.
    destruct (row_assign_run W H g1 rng x0 x1 j x a b) as (g2 & R2 & Hg2 & V2 & O2);
      try done; [by rewrite O1 by lia..|].
    destruct (IH g2 rng) as (g' & Hrun & Hg' & Hin & Hout); try done;
      [by rewrite O2, O1 by lia..|].
    exists g'. split; [|split; [done|split]].
    + simpl. rewrite bind_assoc. rewrite (bind_run _ _ _ _ _ R1).
      by rewrite (bind_run _ _ _ _ _ R2).
    + intros x' [->|Hx']%elem_of_cons; [|by apply Hin].
      destruct (decide (x ∈ xs)) as [Hxx|Hxx]; [by apply Hin|].
      rewrite Hout; [done|lia|lia|]. intros [_ ?]. done.
    + intros x' y' Hx' Hy' Hne. rewrite Hout; [|done..|].
      * rewrite O2, O1; [done|lia|lia| |lia|lia|];
          (destruct (decide (x' = x)) as [->|]; [|by left]);
          (destruct (decide (y' = j)) as [->|]; [|by right]);
          exfalso; apply Hne; (split; [done|by left]).
      * intros [-> Hx'']. apply Hne. split; [done|by right].
Qed.

(** What the row-degenerate branch writes.  On a line [j] of a rectangular
    grid that holds [a] at [x0] and [b] at [x1], with
    [(|a| + |2a - b| + 1) * (x1 - x0) <= 2^50], the branch returns
    without a further draw and sets every cell strictly between [x0] and
    [x1] to the interpolation from [a] towards [2a - b], the mirror image
    of [b] about [a], which is the integer that the binary64 arithmetic
    of line 158 yields: each height lies between [a] and [2a - b], on the
    side of [a] away from [b].  Every other cell is as it was. *)
Theorem row_degenerate_mirror
    (fuel : nat) (W H x0 y0 x1 y1 i j a b : Z) (st st1 st2 : state) :
  (x0 =? x1) && (y0 =? y1) = false ->
  randAugIndex x0 x1 st = (Ret i, st1) ->
  randAugIndex y0 y1 st1 = (Ret j, st2) ->
  (i =? x0) || (i =? x1) = false ->
  j = y0 \/ j = y1 ->
  rect W H (world_map st) -> 0 <= x0 -> x1 < W -> 0 <= j < H ->
  grid_get (world_map st) x0 j = Some a ->
  grid_get (world_map st) x1 j = Some b ->
  (Z.abs a + Z.abs (2 * a - b) + 1) * (x1 - x0) <= 2 ^ 50 ->
  exists st',
    auxRandAugDS (S fuel) x0 y0 x1 y1 st = (Ret tt, st')
    /\ random_state st' = random_state st2
    /\ (forall x, x0 < x < x1 ->
          grid_get (world_map st') x j
          = Some (spec_interpolation a (2 * a - b) (x - x0) (x1 - x0))
          /\ slope_binary64 a (a - b) (x - x0) (x1 - x0)
             = Ret (spec_interpolation a (2 * a - b) (x - x0) (x1 - x0))
          /\ Z.min a (2 * a - b)
             <= spec_interpolation a (2 * a - b) (x - x0) (x1 - x0)
             <= Z.max a (2 * a - b))
    /\ (forall x y, 0 <= x -> 0 <= y -> ~ (y = j /\ x0 < x < x1) ->
          grid_get (world_map st') x y = grid_get (world_map st) x y).
Proof.
  intros Hterm Hi Hj Hgen Hdeg Hg Hx0 Hx1 Hj0 Ha Hb Hsize.
  assert (Hw1 : world_map st1 = world_map st).
  { destruct (randAugIndex_cases x0 x1 st) as (? & ? & E & Hw & _).
    rewrite Hi in E. by simplify_eq. }
  assert (Hw2 : world_map st2 = world_map st).
  { destruct (randAugIndex_cases y0 y1 st1) as (? & ? & E & Hw & _).
    rewrite Hj in E. simplify_eq. congruence. }
  destruct st2 as [g2 rng2]. simpl in Hw2. subst g2.
  destruct (row_loop W H x0 x1 j a b (range (x0 + 1) x1) (world_map st) rng2)
    as (g' & Hrun & Hg' & Hin & Hout); try done.
  { apply Forall_forall. intros x Hx'%elem_of_range. lia. }
  exists (mkState g' rng2). split; [|split; [done|split]].
  - simpl. rewrite Hterm. rewrite (bind_run _ _ _ _ _ Hi).
    rewrite (bind_run _ _ _ _ _ Hj). rewrite Hgen.
    assert (Hb' : (j =? y0) || (j =? y1) = true).
    { destruct Hdeg as [->| ->]; rewrite Z.eqb_refl; [done|apply orb_true_r]. }
    by rewrite Hb'.
  - intros x Hx. split; [|split].
    + apply Hin. apply elem_of_range. lia.
    + replace (a - b) with (2 * a - b - a) by lia.
      apply interpolation_binary64_exact; [lia | lia | done].
    + apply spec_interpolation_between; lia.
  - intros x y Hx Hy Hne. apply Hout; [done..|].
    intros [-> Hx'%elem_of_range]. apply Hne. split; [done|lia].
Qed.

Lemma row_degenerate_mirror_witness :
  let st := mkState [[1]; [0]; [0]; [0]; [9]] (replay [0] 0) in
  rect 5 1 [[1]; [0]; [0]; [0]; [9]] /\
  (Z.abs 1 + Z.abs (2 * 1 - 9) + 1) * (4 - 0) <= 2 ^ 50 /\
  exists st',
    auxRandAugDS 1 0 0 4 0 st = (Ret tt, st')
    /\ (forall x, 0 < x < 4 ->
          grid_get (world_map st') x 0
          = Some (spec_interpolation 1 (2 * 1 - 9) (x - 0) (4 - 0))
          /\ slope_binary64 1 (1 - 9) (x - 0) (4 - 0)
             = Ret (spec_interpolation 1 (2 * 1 - 9) (x - 0) (4 - 0))
          /\ Z.min 1 (2 * 1 - 9)
             <= spec_interpolation 1 (2 * 1 - 9) (x - 0) (4 - 0)
             <= Z.max 1 (2 * 1 - 9)).
Proof.
  intros st.
  assert (Hr : rect 5 1 [[1]; [0]; [0]; [0]; [9]]).
  { split; [reflexivity|]. repeat constructor. }
  assert (Hs : (Z.abs 1 + Z.abs (2 * 1 - 9) + 1) * (4 - 0) <= 2 ^ 50).
  { apply Z.leb_le. vm_compute. reflexivity. }
  split; [exact Hr|]. split; [exact Hs|].
  destruct (row_degenerate_mirror 0 5 1 0 0 4 0 2 0 1 9 st
              (mkState [[1]; [0]; [0]; [0]; [9]] (mkSource (entropy (replay [0] 0)) 1))
              (mkState [[1]; [0]; [0]; [0]; [9]] (mkSource (entropy (replay [0] 0)) 1)))
    as (st' & Hrun & _ & Hin & _);
    [reflexivity | reflexivity | reflexivity | reflexivity | left; reflexivity
    | exact Hr | lia | lia | lia | reflexivity | reflexivity | exact Hs |].
  exists st'. split; [exact Hrun | exact Hin].
Defined.

(** ** Grids of a single row *)

Lemma randAugIndex_draws (i0 i1 : Z) (st st' : state) (i : Z) :
  randAugIndex i0 i1 st = (Ret i, st') ->
  world_map st' = world_map st
  /\ random_state st'
     = if 3 <=? i1 - i0 then snd (next_word (random_state st)) else random_state st.
Proof.
  unfold randAugIndex, ret.
  destruct (Z.leb_spec 3 (i1 - i0)) as [Hd|Hd].
  - destruct (Z.eqb_spec i0 i1); [lia|].
    destruct (Z.ltb_spec i1 i0); [lia|]. simpl.
    destruct (Z.eqb_spec (i0 + 1) i1); [lia|].
    destruct (Z.eqb_spec (i0 + 2) i1); [lia|].
    destruct (random_unit_interval st) as (r & Hr & _).
    rewrite (bind_run _ _ _ _ _ Hr). intros Hrun. by simplify_eq.
  - destruct (Z.eqb_spec i0 i1); [simpl; intros Hrun; by simplify_eq|].
    destruct (Z.ltb_spec i1 i0); [simpl; intros Hrun; by simplify_eq|]. simpl.
    destruct (Z.eqb_spec (i0 + 1) i1); [intros Hrun; by simplify_eq|].
    destruct (Z.eqb_spec (i0 + 2) i1); [intros Hrun; by simplify_eq|]. lia.
Qed.

(** The column-degenerate branch, on a rectangular grid: the whole line
    [i] from [y0] to [y1] is the interpolation of its two ends. *)
Lemma column_branch_line (fuel : nat) (W H x0 y0 x1 y1 i a b : Z) (st : state) :
  (x0 =? x1) && (y0 =? y1) = false ->
  (forall st0, exists st1, randAugIndex x0 x1 st0 = (Ret i, st1)
                           /\ random_state st1 = random_state st0
                           /\ world_map st1 = world_map st0) ->
  i = x0 \/ i = x1 ->
  rect W H (world_map st) -> 0 <= i < W -> 0 <= y0 -> y0 < y1 -> y1 < H ->
  grid_get (world_map st) i y0 = Some a ->
  grid_get (world_map st) i y1 = Some b ->
  exists g',
    auxRandAugDS (S fuel) x0 y0 x1 y1 st
    = (Ret tt,
       mkState g' (if 3 <=? y1 - y0 then snd (next_word (random_state st))
                   else random_state st))
    /\ rect W H g'
    /\ (forall y, y0 <= y <= y1 ->
          grid_get g' i y = Some (spec_interpolation a b (y - y0) (y1 - y0)))
    /\ (forall x y, 0 <= x -> 0 <= y -> ~ (x = i /\ y0 < y < y1) ->
          grid_get g' x y = grid_get (world_map st) x y).
Proof.
  intros Hterm Hsel Hdeg Hg Hi Hy0 Hy Hy1 Ha Hb.
  destruct (Hsel st) as (st1 & Hi1 & Hr1 & Hw1).
  destruct (randAugIndex_cases y0 y1 st1) as (j & st2 & Hj & Hw2 & _).
  destruct (randAugIndex_draws _ _ _ _ _ Hj) as [_ Hr2].
  destruct st2 as [g2 rng2]. simpl in Hw2, Hr2. subst g2. rewrite Hw1 in *.
  rewrite Hr1 in Hr2.
  pose proof Ha as Ha'. pose proof Hb as Hb'.
  rewrite grid_get_nonneg in Ha', Hb' by lia.
  destruct (world_map st !! Z.to_nat i) as [row|] eqn:Hrow; [|done].
  assert (Hlen : y1 < Z.of_nat (length row)).
  { apply lookup_lt_Some in Hb'. lia. }
  destruct (column_loop i y0 y1 a b (range (y0 + 1) y1) (world_map st) rng2 row)
    as (row' & Hrun & Hlen' & Hin & Hout); try done; try lia.
  { apply Forall_forall. intros y Hy'%elem_of_range. lia. }
  exists (<[Z.to_nat i := row']> (world_map st)).
  split; [|split; [|split]].
  - simpl. rewrite Hterm. rewrite (bind_run _ _ _ _ _ Hi1).
    rewrite (bind_run _ _ _ _ _ Hj).
    assert (Hb'' : (i =? x0) || (i =? x1) = true).
    { destruct Hdeg as [->| ->]; rewrite Z.eqb_refl; [done|apply orb_true_r]. }
    rewrite Hb'', Hrun. by rewrite Hr2.
  - destruct Hg as [HW Hrows]. split; [by rewrite length_insert|].
    apply Forall_insert; [done|]. rewrite Hlen'.
    rewrite Forall_lookup in Hrows. by eapply Hrows.
  - intros y Hyy. rewrite grid_get_nonneg by lia.
    rewrite list_lookup_insert_eq by (by eapply lookup_lt_Some).
    destruct (spec_interpolation_ends a b (y1 - y0) ltac:(lia)) as [E0 E1].
    destruct (decide (y = y0)) as [->|Hn0].
    { rewrite Z.sub_diag, E0, Hout; [done|].
      intros y' Hy'%elem_of_range. lia. }
    destruct (decide (y = y1)) as [->|Hn1].
    { rewrite E1, Hout; [done|]. intros y' Hy'%elem_of_range. lia. }
    apply Hin. apply elem_of_range. lia.
  - intros x y Hx Hyy Hne. rewrite !grid_get_nonneg by lia.
    destruct (decide (Z.to_nat i = Z.to_nat x)) as [Heq|Hneq].
    + rewrite <- Heq, Hrow.
      rewrite list_lookup_insert_eq by (by eapply lookup_lt_Some).
      apply Hout. intros y' Hy'%elem_of_range Hyy'.
      apply Hne. split; lia.
    + by rewrite list_lookup_insert_ne.
Qed.

(** A run on a grid of a single row of at least two and at most 2^24
    cells.  The first and third draws go to cell (0, 0) and the second
    and fourth to cell (0, H-1), so the row ends are the third and fourth
    draws.  When neither of them is 0 the run returns, every cell of the
    row is the linear interpolation of the two ends at its position, lies
    between them and is not 0, every cell strictly between the ends is
    the integer that the binary64 arithmetic of line 152 yields, and the
    generator has been drawn from four times, five when the row has at
    least four cells: no deviation is drawn. *)
Theorem single_row_run (seed_source : Z -> RandomSource) (seed H : Z) (st : state) :
  2 <= H -> H <= 2 ^ 24 -> rect 1 H (world_map st) ->
  nth_randint (seed_source seed) 2 0 (H - 1) <> 0 ->
  nth_randint (seed_source seed) 3 0 (H - 1) <> 0 ->
  exists g' st',
    randAugDS seed_source seed st = (Ret g', st')
    /\ world_map st' = g'
    /\ rect 1 H g'
    /\ (forall y, 0 <= y < H ->
          exists v, grid_get g' 0 y = Some v
            /\ v = spec_interpolation (nth_randint (seed_source seed) 2 0 (H - 1))
                     (nth_randint (seed_source seed) 3 0 (H - 1)) y (H - 1)
            /\ Z.min (nth_randint (seed_source seed) 2 0 (H - 1))
                     (nth_randint (seed_source seed) 3 0 (H - 1)) <= v
               <= Z.max (nth_randint (seed_source seed) 2 0 (H - 1))
                        (nth_randint (seed_source seed) 3 0 (H - 1))
            /\ v <> 0
            /\ (0 < y < H - 1 ->
                slope_binary64 (nth_randint (seed_source seed) 2 0 (H - 1))
                  (nth_randint (seed_source seed) 3 0 (H - 1)
                   - nth_randint (seed_source seed) 2 0 (H - 1)) y (H - 1)
                = Ret v))
    /\ entropy (random_state st') = entropy (seed_source seed)
    /\ cursor (random_state st')
       = if 3 <=? H - 1 then (cursor (seed_source seed) + 5)%nat
         else (cursor (seed_source seed) + 4)%nat.
Proof.
  intros HH HH' Hg Ha0 Hb0. destruct st as [g rng]. simpl in Hg.
  set (s := seed_source seed) in *. set (m := H - 1) in *.
  assert (Hm : 0 <= m) by lia.
  pose proof (nth_randint_range s 2 0 m Hm) as Hra.
  pose proof (nth_randint_range s 3 0 m Hm) as Hrb.
  set (a := nth_randint s 2 0 m) in *. set (b := nth_randint s 3 0 m) in *.
  assert (Hsize : (Z.abs a + Z.abs b + 1) * m <= 2 ^ 50).
  { assert (m < 2 ^ 24) as Hm' by lia. clearbody a b m. eval_pow. nia. }
  clear HH'.
  unfold randAugDS. cbv zeta.
  rewrite (bind_run _ _ (mkState g rng) (mkState g s) tt) by reflexivity.
  assert (Hlw : len_world (mkState g s) = (Ret 1, mkState g s)).
  { unfold len_world. simpl. by destruct Hg as [-> _]. }
  rewrite (bind_run _ _ _ _ _ Hlw).
  assert (Hlr : len_row 0 (mkState g s) = (Ret H, mkState g s)).
  { destruct (rect_row 1 H g 0 Hg ltac:(lia)) as (row & Hrow & Hlen).
    unfold len_row. simpl. rewrite py_get_nonneg by lia. by rewrite Hrow, Hlen. }
  rewrite (bind_run _ _ _ _ _ Hlr).
  change (1 - 1) with 0. fold m.
  replace (Z.max 0 m) with m by lia.
  (* the four draws *)
  rewrite (bind_run _ _ _ _ _ (randint_run 0 m _ Hm)). cbn [world_map random_state].
  destruct (rect_set 1 H g 0 0 (nth_randint s 0 0 m) Hg ltac:(lia) ltac:(lia))
    as (g1 & Hs1 & Hg1 & Hv1 & Ho1).
  rewrite (bind_run _ _ _ _ _ (setitem_run _ _ _ (mkState g _) g1 Hs1)).
  cbn [world_map random_state].
  rewrite (bind_run _ _ _ _ _ (randint_run 0 m _ Hm)). cbn [world_map random_state].
  rewrite nth_randint_next.
  destruct (rect_set 1 H g1 0 m (nth_randint s 1 0 m) Hg1 ltac:(lia) ltac:(lia))
    as (g2 & Hs2 & Hg2 & Hv2 & Ho2).
  rewrite (bind_run _ _ _ _ _ (setitem_run _ _ _ (mkState g1 _) g2 Hs2)).
  cbn [world_map random_state].
  rewrite (bind_run _ _ _ _ _ (randint_run 0 m _ Hm)). cbn [world_map random_state].
  rewrite !nth_randint_next. fold a.
  destruct (rect_set 1 H g2 0 0 a Hg2 ltac:(lia) ltac:(lia))
    as (g3 & Hs3 & Hg3 & Hv3 & Ho3).
  rewrite (bind_run _ _ _ _ _ (setitem_run _ _ _ (mkState g2 _) g3 Hs3)).
  cbn [world_map random_state].
  rewrite (bind_run _ _ _ _ _ (randint_run 0 m _ Hm)). cbn [world_map random_state].
  rewrite !nth_randint_next. fold b.
  destruct (rect_set 1 H g3 0 m b Hg3 ltac:(lia) ltac:(lia))
    as (g4 & Hs4 & Hg4 & Hv4 & Ho4).
  rewrite (bind_run _ _ _ _ _ (setitem_run _ _ _ (mkState g3 _) g4 Hs4)).
  cbn [world_map random_state].
  rewrite !norm_nonneg in * by lia.
  match goal with
  | |- context [bind _ _ (mkState g4 ?r)] => set (r4 := r)
  end.
  (* the driver: the column-degenerate branch on the whole row *)
  assert (Ha4 : grid_get g4 0 0 = Some a).
  { rewrite Ho4 by lia. done. }
  destruct (column_branch_line 0 1 H 0 0 0 m 0 a b (mkState g4 r4))
    as (g5 & Hrun5 & Hg5 & Hline & _);
    [destruct (Z.eqb_spec 0 m); [lia|done] | intros st0; by exists st0
    | by left | done | lia | lia | lia | lia | done | done |].
  change (enough_fuel 0 0 0 m) with 1%nat.
  rewrite (bind_run _ _ _ _ _ Hrun5). cbn [world_map random_state].
  rewrite Z.sub_0_r in *.
  match goal with
  | |- context [bind _ _ (mkState g5 ?r)] => set (r5 := r)
  end.
  assert (Hcell : forall y, 0 <= y <= m ->
            Z.min a b <= spec_interpolation a b y m <= Z.max a b
            /\ spec_interpolation a b y m <> 0).
  { intros y Hy.
    pose proof (spec_interpolation_between a b y m ltac:(lia) ltac:(lia)). lia. }
  (* the cleanup finds no zero on the row *)
  assert (Hrun6 : edgeCleanup (mkState g5 r5) = (Ret tt, mkState g5 r5)).
  { apply (edgeCleanup_identity 1 H); [done | lia | lia |].
    intros x y [[_ ?]|[Hx Hy]]; [lia|]. cbn [world_map].
    assert (x = 0) as -> by lia.
    exists (spec_interpolation a b y m). split.
    - rewrite Hline by lia. by rewrite Z.sub_0_r.
    - apply Hcell. lia. }
  rewrite (bind_run _ _ _ _ _ Hrun6).
  exists g5, (mkState g5 r5). split; [done|]. split; [done|]. split; [done|].
  split; [|split].
  - intros y Hy. exists (spec_interpolation a b y m).
    split; [|split; [done|]].
    + rewrite Hline by lia. by rewrite Z.sub_0_r.
    + destruct (Hcell y ltac:(lia)) as [Hc1 Hc2].
      split; [done|]. split; [done|]. intros Hy'.
      apply interpolation_binary64_exact; [lia | lia | done].
  - subst r5 r4. cbn [random_state]. by destruct (3 <=? m).
  - subst r5 r4. cbn [random_state]. destruct (3 <=? m); simpl; lia.
Qed.

Lemma single_row_run_witness :
  2 <= 5 /\ 5 <= 2 ^ 24 /\ rect 1 5 (zeros 1 5)
  /\ nth_randint (replay [0; 0; 1; 4] 0) 2 0 (5 - 1) <> 0
  /\ nth_randint (replay [0; 0; 1; 4] 0) 3 0 (5 - 1) <> 0
  /\ exists g' st',
       randAugDS (replay [0; 0; 1; 4]) 0 (mkState (zeros 1 5) (replay [] 0))
       = (Ret g', st')
       /\ forall y, 0 <= y < 5 ->
            exists v, grid_get g' 0 y = Some v
              /\ v = spec_interpolation (nth_randint (replay [0; 0; 1; 4] 0) 2 0 (5 - 1))
                       (nth_randint (replay [0; 0; 1; 4] 0) 3 0 (5 - 1)) y (5 - 1).
Proof.
  assert (Hr : rect 1 5 (zeros 1 5)).
  { split; [reflexivity|]. repeat constructor. }
  assert (Ha : nth_randint (replay [0; 0; 1; 4] 0) 2 0 (5 - 1) <> 0).
  { vm_compute. lia. }
  assert (Hb : nth_randint (replay [0; 0; 1; 4] 0) 3 0 (5 - 1) <> 0).
  { vm_compute. lia. }
  assert (Hs : 5 <= 2 ^ 24).
  { apply Z.leb_le. vm_compute. reflexivity. }
  split; [lia|]. split; [exact Hs|].
  split; [exact Hr|]. split; [exact Ha|]. split; [exact Hb|].
  destruct (single_row_run (replay [0; 0; 1; 4]) 0 5
              (mkState (zeros 1 5) (replay [] 0)) ltac:(lia) Hs Hr Ha Hb)
    as (g' & st' & Hrun & _ & _ & Hline & _).
  exists g', st'. split; [exact Hrun|].
  intros y Hy. destruct (Hline y Hy) as (v & Hv & Hval & _).
  exists v. split; [exact Hv | exact Hval].
Defined.

(** ** Grids of a single column *)

Lemma randAugIndex_interior (i0 i1 : Z) (st st' : state) (i : Z) :
  2 <= i1 - i0 -> randAugIndex i0 i1 st = (Ret i, st') -> i0 < i < i1.
Proof.
  intros Hd. unfold randAugIndex, ret.
  destruct (Z.eqb_spec i0 i1); [lia|].
  destruct (Z.ltb_spec i1 i0); [lia|]. simpl.
  destruct (Z.eqb_spec (i0 + 1) i1); [lia|].
  destruct (Z.eqb_spec (i0 + 2) i1); [intros Hrun; simplify_eq; lia|].
  destruct (random_unit_interval st) as (r & Hr & Hr0 & Hr1).
  rewrite (bind_run _ _ _ _ _ Hr). intros Hrun. simplify_eq.
  apply aug_index_interior; [done | done | lia].
Qed.

(** A run on a grid of a single column of at least three and at most
    2^24 cells.  The first two draws go to cell (0, 0) and the last two
    to cell (W-1, 0), so the column ends are the second draw [a] and the
    fourth draw [b].  When [a] is not 0 and [b] is at most [a], the run
    returns with the two ends as drawn and every cell in between set to
    the interpolation from [a] towards [2a - b], which is the integer
    that the binary64 arithmetic of line 158 yields: a height of at least
    [a], on the side of [a] away from [b], where a ramp between the ends
    would lie between [b] and [a]. *)
Theorem single_column_run (seed_source : Z -> RandomSource) (seed W : Z) (st : state) :
  3 <= W -> W <= 2 ^ 24 -> rect W 1 (world_map st) ->
  nth_randint (seed_source seed) 1 0 (W - 1) <> 0 ->
  nth_randint (seed_source seed) 3 0 (W - 1) <= nth_randint (seed_source seed) 1 0 (W - 1) ->
  exists g' st',
    randAugDS seed_source seed st = (Ret g', st')
    /\ world_map st' = g'
    /\ rect W 1 g'
    /\ grid_get g' 0 0 = Some (nth_randint (seed_source seed) 1 0 (W - 1))
    /\ grid_get g' (W - 1) 0 = Some (nth_randint (seed_source seed) 3 0 (W - 1))
    /\ (forall x, 0 < x < W - 1 ->
          exists v, grid_get g' x 0 = Some v
            /\ v = spec_interpolation (nth_randint (seed_source seed) 1 0 (W - 1))
                     (2 * nth_randint (seed_source seed) 1 0 (W - 1)
                      - nth_randint (seed_source seed) 3 0 (W - 1)) x (W - 1)
            /\ nth_randint (seed_source seed) 1 0 (W - 1) <= v
               <= 2 * nth_randint (seed_source seed) 1 0 (W - 1)
                  - nth_randint (seed_source seed) 3 0 (W - 1)
            /\ slope_binary64 (nth_randint (seed_source seed) 1 0 (W - 1))
                 (nth_randint (seed_source seed) 1 0 (W - 1)
                  - nth_randint (seed_source seed) 3 0 (W - 1)) x (W - 1)
               = Ret v).
Proof.
  intros HW HW' Hg Ha0 Hba. destruct st as [g rng]. simpl in Hg.
  set (s := seed_source seed) in *. set (m := W - 1) in *.
  assert (Hm : 0 <= m) by lia.
  pose proof (nth_randint_range s 1 0 m Hm) as Hra.
  pose proof (nth_randint_range s 3 0 m Hm) as Hrb.
  set (a := nth_randint s 1 0 m) in *. set (b := nth_randint s 3 0 m) in *.
  assert (Hsize : (Z.abs a + Z.abs (2 * a - b) + 1) * m <= 2 ^ 50).
  { assert (m < 2 ^ 24) as Hm' by lia. clearbody a b m. eval_pow. nia. }
  clear HW' Hrb.
  unfold randAugDS. cbv zeta.
  rewrite (bind_run _ _ (mkState g rng) (mkState g s) tt) by reflexivity.
  assert (Hlw : len_world (mkState g s) = (Ret W, mkState g s)).
  { unfold len_world. simpl. by destruct Hg as [-> _]. }
  rewrite (bind_run _ _ _ _ _ Hlw).
  assert (Hlr : len_row 0 (mkState g s) = (Ret 1, mkState g s)).
  { destruct (rect_row W 1 g 0 Hg ltac:(lia)) as (row & Hrow & Hlen).
    unfold len_row. simpl. rewrite py_get_nonneg by lia. by rewrite Hrow, Hlen. }
  rewrite (bind_run _ _ _ _ _ Hlr).
  change (1 - 1) with 0. fold m.
  replace (Z.max m 0) with m by lia.
  (* the four draws *)
  rewrite (bind_run _ _ _ _ _ (randint_run 0 m _ Hm)). cbn [world_map random_state].
  destruct (rect_set W 1 g 0 0 (nth_randint s 0 0 m) Hg ltac:(lia) ltac:(lia))
    as (g1 & Hs1 & Hg1 & Hv1 & Ho1).
  rewrite (bind_run _ _ _ _ _ (setitem_run _ _ _ (mkState g _) g1 Hs1)).
  cbn [world_map random_state].
  rewrite (bind_run _ _ _ _ _ (randint_run 0 m _ Hm)). cbn [world_map random_state].
  rewrite nth_randint_next. fold a.
  destruct (rect_set W 1 g1 0 0 a Hg1 ltac:(lia) ltac:(lia))
    as (g2 & Hs2 & Hg2 & Hv2 & Ho2).
  rewrite (bind_run _ _ _ _ _ (setitem_run _ _ _ (mkState g1 _) g2 Hs2)).
  cbn [world_map random_state].
  rewrite (bind_run _ _ _ _ _ (randint_run 0 m _ Hm)). cbn [world_map random_state].
  rewrite !nth_randint_next.
  destruct (rect_set W 1 g2 m 0 (nth_randint s 2 0 m) Hg2 ltac:(lia) ltac:(lia))
    as (g3 & Hs3 & Hg3 & Hv3 & Ho3).
  rewrite (bind_run _ _ _ _ _ (setitem_run _ _ _ (mkState g2 _) g3 Hs3)).
  cbn [world_map random_state].
  rewrite (bind_run _ _ _ _ _ (randint_run 0 m _ Hm)). cbn [world_map random_state].
  rewrite !nth_randint_next. fold b.
  destruct (rect_set W 1 g3 m 0 b Hg3 ltac:(lia) ltac:(lia))
    as (g4 & Hs4 & Hg4 & Hv4 & Ho4).
  rewrite (bind_run _ _ _ _ _ (setitem_run _ _ _ (mkState g3 _) g4 Hs4)).
  cbn [world_map random_state].
  rewrite !norm_nonneg in * by lia.
  match goal with
  | |- context [bind _ _ (mkState g4 ?r)] => set (r4 := r)
  end.
  assert (Ha4 : grid_get g4 0 0 = Some a).
  { rewrite Ho4, Ho3 by lia. done. }
  (* the driver: the row-degenerate branch on the whole column *)
  destruct (randAugIndex_cases 0 m (mkState g4 r4)) as (i & [gi ri] & Hi & Hwi & _).
  simpl in Hwi. subst gi.
  pose proof (randAugIndex_interior 0 m _ _ _ ltac:(lia) Hi) as Hint.
  destruct (row_loop W 1 0 m 0 a b (range (0 + 1) m) g4 ri)
    as (g5 & Hrun5 & Hg5 & Hin & Hout); try done; try lia.
  { apply Forall_forall. intros x Hx%elem_of_range. lia. }
  assert (Haux : auxRandAugDS (enough_fuel 0 0 m 0) 0 0 m 0 (mkState g4 r4)
                 = (Ret tt, mkState g5 ri)).
  { unfold enough_fuel. cbn [auxRandAugDS].
    destruct (Z.eqb_spec 0 m); [lia|]. cbn [andb].
    rewrite (bind_run _ _ _ _ _ Hi).
    rewrite (bind_run _ _ (mkState g4 ri) (mkState g4 ri) 0) by reflexivity.
    destruct (Z.eqb_spec i 0); [lia|]. destruct (Z.eqb_spec i m); [lia|].
    exact Hrun5. }
  rewrite (bind_run _ _ _ _ _ Haux).
  assert (Hcell : forall x, 0 < x < m ->
            grid_get g5 x 0 = Some (spec_interpolation a (2 * a - b) x m)
            /\ a <= spec_interpolation a (2 * a - b) x m <= 2 * a - b).
  { intros x Hx. split.
    - rewrite Hin by (apply elem_of_range; lia). by rewrite !Z.sub_0_r.
    - pose proof (spec_interpolation_between a (2 * a - b) x m ltac:(lia) ltac:(lia)).
      lia. }
  (* the cleanup finds no zero on the column *)
  assert (Hrun6 : edgeCleanup (mkState g5 ri) = (Ret tt, mkState g5 ri)).
  { apply (edgeCleanup_identity W 1); [done | lia | lia |].
    intros x y [[Hy Hx]|[_ ?]]; [|lia]. cbn [world_map].
    assert (y = 0) as -> by lia.
    exists (spec_interpolation a (2 * a - b) x m).
    destruct (Hcell x ltac:(lia)) as [Hv Hb']. split; [done | lia]. }
  rewrite (bind_run _ _ _ _ _ Hrun6).
  exists g5, (mkState g5 ri). split; [done|]. split; [done|]. split; [done|].
  split; [|split].
  - rewrite Hout; [done | lia | lia |]. intros [_ Hx%elem_of_range]. lia.
  - rewrite Hout; [done | lia | lia |]. intros [_ Hx%elem_of_range]. lia.
  - intros x Hx. exists (spec_interpolation a (2 * a - b) x m).
    destruct (Hcell x Hx) as [Hv Hb'].
    split; [done|]. split; [done|]. split; [done|].
    replace (a - b) with (2 * a - b - a) by lia.
    apply interpolation_binary64_exact; [lia | lia | done].
Qed.

Lemma single_column_run_witness :
  3 <= 5 /\ 5 <= 2 ^ 24 /\ rect 5 1 (zeros 5 1)
  /\ nth_randint (replay [0; 3; 0; 1] 0) 1 0 (5 - 1) <> 0
  /\ nth_randint (replay [0; 3; 0; 1] 0) 3 0 (5 - 1)
     <= nth_randint (replay [0; 3; 0; 1] 0) 1 0 (5 - 1)
  /\ exists g' st',
       randAugDS (replay [0; 3; 0; 1]) 0 (mkState (zeros 5 1) (replay [] 0))
       = (Ret g', st')
       /\ grid_get g' 0 0 = Some (nth_randint (replay [0; 3; 0; 1] 0) 1 0 (5 - 1))
       /\ grid_get g' (5 - 1) 0 = Some (nth_randint (replay [0; 3; 0; 1] 0) 3 0 (5 - 1))
       /\ forall x, 0 < x < 5 - 1 ->
            exists v, grid_get g' x 0 = Some v
              /\ nth_randint (replay [0; 3; 0; 1] 0) 1 0 (5 - 1) <= v.
Proof.
  assert (Hr : rect 5 1 (zeros 5 1)).
  { split; [reflexivity|]. repeat constructor. }
  assert (Ha : nth_randint (replay [0; 3; 0; 1] 0) 1 0 (5 - 1) <> 0).
  { vm_compute. lia. }
  assert (Hb : nth_randint (replay [0; 3; 0; 1] 0) 3 0 (5 - 1)
               <= nth_randint (replay [0; 3; 0; 1] 0) 1 0 (5 - 1)).
  { apply Z.leb_le. vm_compute. reflexivity. }
  assert (Hs : 5 <= 2 ^ 24).
  { apply Z.leb_le. vm_compute. reflexivity. }
  split; [lia|]. split; [exact Hs|].
  split; [exact Hr|]. split; [exact Ha|]. split; [exact Hb|].
  destruct (single_column_run (replay [0; 3; 0; 1]) 0 5
              (mkState (zeros 5 1) (replay [] 0)) ltac:(lia) Hs Hr Ha Hb)
    as (g' & st' & Hrun & _ & _ & H0 & H1 & Hline).
  exists g', st'. split; [exact Hrun|]. split; [exact H0|]. split; [exact H1|].
  intros x Hx. destruct (Hline x Hx) as (v & Hv & _ & [Hlo _] & _).
  exists v. split; [exact Hv | exact Hlo].
Defined.

(** ** Printing *)

Lemma digits_one_line (d : Decimal.uint) :
  one_line (text (NilEmpty.string_of_uint d)).
Proof.
  unfold one_line, text.
  induction d; simpl; [apply not_elem_of_nil | ..];
    (apply not_elem_of_cons; split; [discriminate | exact IHd]).
Qed.

Lemma str_one_line (v : Z) : one_line (str v).
Proof.
  assert (Hu : forall d, one_line (text (NilZero.string_of_uint d))).
  { intros d. pose proof (digits_one_line d) as Hd.
    destruct d; try exact Hd.
    unfold one_line, text. simpl.
    apply not_elem_of_cons. split; [discriminate | apply not_elem_of_nil]. }
  unfold str. destruct (Z.to_int v) as [d|d]; simpl; [apply Hu|].
  unfold one_line, text. simpl.
  apply not_elem_of_cons. split; [discriminate | apply Hu].
Qed.

Lemma ljust_length (s : list ascii) (w : Z) (c : ascii) :
  Z.of_nat (length s) <= w -> Z.of_nat (length (ljust s w c)) = w.
Proof. intros Hs. unfold ljust. rewrite length_app, length_replicate. lia. Qed.

Lemma ljust_one_line (s : list ascii) (w : Z) (c : ascii) :
  one_line s -> c <> newline -> one_line (ljust s w c).
Proof.
  unfold one_line, ljust. intros Hs Hc [Hin|Hin]%elem_of_app; [done|].
  apply elem_of_replicate in Hin as [Heq _]. by apply Hc.
Qed.

Lemma app_one_line (l k : list ascii) : one_line l -> one_line k -> one_line (l ++ k).
Proof. unfold one_line. intros Hl Hk [?|?]%elem_of_app; tauto. Qed.

Lemma text_one_line (s : string) :
  forallb (fun c => negb (Ascii.eqb c newline)) (text s) = true -> one_line (text s).
Proof.
  unfold one_line. rewrite forallb_forall. intros Hall Hin%list_elem_of_In.
  apply Hall in Hin. by rewrite Ascii.eqb_refl in Hin.
Qed.

Lemma concat_one_line (ls : list (list ascii)) :
  Forall one_line ls -> one_line (concat ls).
Proof.
  unfold one_line. induction 1 as [|l ls Hl _ IH]; simpl.
  - apply not_elem_of_nil.
  - intros [?|?]%elem_of_app; tauto.
Qed.

Lemma bounded_check (P : Z -> bool) (a b : Z) :
  forallb P (range a b) = true -> forall v, a <= v < b -> P v = true.
Proof.
  intros Hall v Hv. rewrite forallb_forall in Hall. apply Hall.
  apply list_elem_of_In, elem_of_range. lia.
Qed.

Lemma str_width_cell (v : Z) : -99 <= v <= 999 -> Z.of_nat (length (str v)) <= 3.
Proof.
  intros Hv.
  pose proof (bounded_check (fun v => Z.of_nat (length (str v)) <=? 3) (-99) 1000
                ltac:(vm_compute; reflexivity) v ltac:(lia)) as Hc.
  simpl in Hc. lia.
Qed.

Lemma str_width_index (n : Z) : 0 <= n < 10000 -> Z.of_nat (length (str n)) <= 4.
Proof.
  intros Hn.
  pose proof (bounded_check (fun v => Z.of_nat (length (str v)) <=? 4) 0 10000
                ltac:(vm_compute; reflexivity) n ltac:(lia)) as Hc.
  simpl in Hc. lia.
Qed.

(** Fields of a fixed width laid side by side. *)
Lemma fields_length {A} (f : A -> list ascii) (w : nat) (l : list A) :
  Forall (fun x => length (f x) = w) l ->
  length (concat (map f l)) = (w * length l)%nat.
Proof.
  induction 1 as [|x l Hx _ IH]; simpl; [lia|].
  rewrite length_app, IH, Hx. lia.
Qed.

Lemma fields_lookup {A} (f : A -> list ascii) (w : nat) (l : list A) (rest : list ascii) :
  Forall (fun x => length (f x) = w) l ->
  forall k x, l !! k = Some x ->
    take w (drop (w * k) (concat (map f l) ++ rest)) = f x.
Proof.
  induction 1 as [|a l Ha _ IH]; intros k x Hk; [done|].
  simpl. rewrite <- app_assoc. destruct k as [|k]; simpl in Hk.
  - injection Hk as ->. rewrite Nat.mul_0_r, drop_0.
    by apply take_app_length'.
  - replace (w * S k)%nat with (length (f a) + w * k)%nat by lia.
    rewrite drop_app_add. by apply IH.
Qed.

Lemma unlines_app (ls ls' : list (list ascii)) :
  unlines (ls ++ ls') = unlines ls ++ unlines ls'.
Proof. unfold unlines. by rewrite map_app, concat_app. Qed.

Lemma print_rows_unlines (rows : list (list Z)) :
  forall counter,
    print_rows counter rows
    = unlines (imap (fun k row => row_line (counter + Z.of_nat k) row) rows).
Proof.
  induction rows as [|row rest IH]; intros counter; [done|].
  cbn [print_rows]. rewrite IH, imap_cons.
  change (unlines (?h :: ?t)) with ((h ++ [newline]) ++ unlines t).
  change (Z.of_nat 0) with 0. rewrite Z.add_0_r.
  unfold row_line at 2. rewrite <- !app_assoc. do 3 f_equal.
  f_equal. apply imap_ext. intros k r _. simpl. f_equal. lia.
Qed.

Lemma printWorld_text (g : list (list Z)) (row0 : list Z) :
  g !! 0%nat = Some row0 ->
  printWorld g
  = (Ret tt,
     unlines (header_line (Z.of_nat (length row0))
              :: imap (fun k row => row_line (Z.of_nat k) row) g ++ [text "X"])).
Proof.
  intros Hrow. unfold printWorld, py_get.
  rewrite py_index_nonneg by (apply lookup_lt_Some in Hrow; lia).
  change (Z.to_nat 0) with 0%nat. rewrite Hrow. cbv zeta. f_equal.
  rewrite print_rows_unlines.
  change (unlines (?h :: ?t)) with ((h ++ [newline]) ++ unlines t).
  rewrite unlines_app. unfold header_line. rewrite <- !app_assoc.
  do 3 f_equal.
Qed.

Lemma row_line_one_line (counter : Z) (row : list Z) : one_line (row_line counter row).
Proof.
  unfold row_line. apply app_one_line.
  - destruct (counter mod 5 =? 0).
    + apply ljust_one_line; [apply str_one_line | discriminate].
    + by apply text_one_line.
  - apply concat_one_line, Forall_map, Forall_forall. intros v _.
    apply ljust_one_line; [apply str_one_line | discriminate].
Qed.

Lemma header_line_one_line (ylength : Z) : one_line (header_line ylength).
Proof.
  unfold header_line. repeat apply app_one_line.
  - by apply text_one_line.
  - apply concat_one_line, Forall_map, Forall_forall. intros v _.
    apply ljust_one_line; [apply str_one_line | discriminate].
  - by apply text_one_line.
Qed.

(** On a grid whose heights have at most 4300 decimal digits, the most
    that [str] converts, [printWorld] fails on the empty grid only, with
    [IndexError] and before it prints anything.  On every other such
    grid, jagged or not, it returns after printing one line per row
    between a header line and the line [X]: [len(world_map) + 2] lines. *)
Theorem printWorld_lines (g : list (list Z)) :
  heights_below (10 ^ 4300 - 1) g ->
  (g = [] /\ printWorld g = (Raise IndexError, []))
  \/ (g <> []
      /\ exists header body,
           printWorld g = (Ret tt, unlines (header :: body ++ [text "X"]))
           /\ length body = length g
           /\ one_line header /\ Forall one_line body).
Proof.
  intros _.
  destruct g as [|row0 g]; [by left|]. right. split; [done|].
  eexists _, _. split; [by apply (printWorld_text _ row0)|].
  split; [by rewrite length_imap|]. split; [apply header_line_one_line|].
  apply Forall_forall. intros l Hl.
  apply elem_of_lookup_imap in Hl as (k & row & -> & _).
  apply row_line_one_line.
Qed.

Lemma printWorld_lines_witness :
  heights_below (10 ^ 4300 - 1) [[12; -7; 0]; [5]] /\
  exists header body,
    printWorld [[12; -7; 0]; [5]] = (Ret tt, unlines (header :: body ++ [text "X"]))
    /\ length body = 2%nat.
Proof.
  assert (Hh : heights_below (10 ^ 4300 - 1) [[12; -7; 0]; [5]]).
  { repeat constructor; vm_compute; discriminate. }
  split; [exact Hh|].
  destruct (printWorld_lines [[12; -7; 0]; [5]] Hh)
    as [[Hnil _]|(_ & header & body & Hrun & Hlen & _)].
  - discriminate Hnil.
  - exists header, body. split; [exact Hrun | exact Hlen].
Defined.

Lemma ljust_width (s : list ascii) (w : nat) (c : ascii) :
  (length s <= w)%nat -> length (ljust s (Z.of_nat w) c) = w.
Proof. intros Hs. unfold ljust. rewrite length_app, length_replicate. lia. Qed.

Lemma cell_width (v : Z) :
  -99 <= v <= 999 -> length (ljust (str v) 3 " ") = 3%nat.
Proof.
  intros Hv. apply (ljust_width _ 3). pose proof (str_width_cell v Hv). lia.
Qed.

Lemma index_width (n : Z) (w : nat) (c : ascii) :
  0 <= n < 10000 -> (4 <= w)%nat -> length (ljust (str n) (Z.of_nat w) c) = w.
Proof.
  intros Hn Hw. apply ljust_width. pose proof (str_width_index n Hn). lia.
Qed.

Lemma header_line_layout (H : Z) :
  0 <= H <= 10000 ->
  Z.of_nat (length (header_line H)) = 5 + 15 * (H / 5)
  /\ forall i : nat, Z.of_nat i < H / 5 ->
       field (4 + 15 * i) 15 (header_line H) = ljust (str (Z.of_nat i * 5)) 15 "-".
Proof.
  intros HH. pose proof (Z.div_pos H 5 ltac:(lia) ltac:(lia)) as Hm.
  pose proof (Z.mul_div_le H 5 ltac:(lia)) as Hle.
  assert (Hw : Forall (fun i => length (ljust (str (i * 5)) 15 "-") = 15%nat)
                 (range 0 (H / 5))).
  { apply Forall_forall. intros i Hi%elem_of_range.
    apply (index_width _ 15); lia. }
  unfold header_line, print_marks. split.
  - rewrite !length_app, (fields_length _ 15 _ Hw). unfold range.
    rewrite length_seqZ. change (length (text "    ")) with 4%nat.
    change (length (text "Y")) with 1%nat. lia.
  - intros i Hi. unfold field.
    change (4 + 15 * i)%nat with (length (text "    ") + 15 * i)%nat.
    rewrite drop_app_add.
    apply (fields_lookup _ 15 _ _ Hw). unfold range.
    rewrite lookup_seqZ. split; [f_equal; lia | lia].
Qed.

Lemma row_line_layout (counter H : Z) (row : list Z) :
  0 <= counter < 10000 -> Z.of_nat (length row) = H ->
  Forall (fun v => -99 <= v <= 999) row ->
  Z.of_nat (length (row_line counter row)) = 4 + 3 * H
  /\ field 0 4 (row_line counter row)
     = (if counter mod 5 =? 0 then ljust (str counter) 4 " " else text "|   ")
  /\ forall (y : nat) (v : Z), row !! y = Some v ->
       field (4 + 3 * y) 3 (row_line counter row) = ljust (str v) 3 " ".
Proof.
  intros Hc HH Hrow.
  assert (Hw : Forall (fun v => length (ljust (str v) 3 " ") = 3%nat) row).
  { eapply Forall_impl; [exact Hrow|]. intros v Hv. by apply cell_width. }
  unfold row_line.
  set (label := if counter mod 5 =? 0 then ljust (str counter) 4 " " else text "|   ").
  assert (Hl : length label = 4%nat).
  { unfold label. destruct (counter mod 5 =? 0); [|done].
    by apply (index_width _ 4). }
  split; [|split].
  - rewrite length_app, (fields_length _ 3 _ Hw), Hl. lia.
  - unfold field. rewrite drop_0. by apply take_app_length'.
  - intros y v Hy. unfold field. rewrite <- Hl, drop_app_add.
    rewrite <- (app_nil_r (concat _)).
    by apply (fields_lookup _ 3 _ _ Hw).
Qed.

(** Layout of the text that [printWorld] prints for a rectangular grid of
    at most 10000 rows and 10000 columns whose heights all print in at
    most three characters (-99 to 999).  The header line is the margin of
    4 characters, one field of 15 characters for every full group of five
    columns, holding the number of the group's first column, and [Y].
    The line of row [x] is a margin of 4 characters, the row number when
    it is a multiple of 5 and a bar otherwise, then one field of 3
    characters for each cell, holding its height.  So the height of cell
    [y] starts at column [4 + 3y] of its line, and the header's mark [5i]
    starts at column [4 + 15i], above the cells of column [5i]. *)
Theorem printWorld_layout (W H : Z) (g : list (list Z)) :
  rect W H g -> 1 <= W <= 10000 -> H <= 10000 ->
  Forall (Forall (fun v => -99 <= v <= 999)) g ->
  exists header body,
    printWorld g = (Ret tt, unlines (header :: body ++ [text "X"]))
    /\ one_line header /\ Forall one_line body
    /\ Z.of_nat (length header) = 5 + 15 * (H / 5)
    /\ (forall i : nat, Z.of_nat i < H / 5 ->
          field (4 + 15 * i) 15 header = ljust (str (Z.of_nat i * 5)) 15 "-")
    /\ length body = length g
    /\ forall (x : nat) (row : list Z), g !! x = Some row ->
         exists l, body !! x = Some l
           /\ Z.of_nat (length l) = 4 + 3 * H
           /\ field 0 4 l
              = (if Z.of_nat x mod 5 =? 0 then ljust (str (Z.of_nat x)) 4 " "
                 else text "|   ")
           /\ forall (y : nat) (v : Z), row !! y = Some v ->
                field (4 + 3 * y) 3 l = ljust (str v) 3 " ".
Proof.
  intros [HW Hrows] HWb HHb Hcells.
  destruct g as [|row0 g']; [simpl in HW; lia|].
  set (g := row0 :: g') in *.
  assert (H0 : Z.of_nat (length row0) = H) by (by inversion Hrows).
  exists (header_line H), (imap (fun k row => row_line (Z.of_nat k) row) g).
  split; [rewrite <- H0; by apply printWorld_text|].
  split; [apply header_line_one_line|]. split.
  { apply Forall_forall. intros l Hl.
    apply elem_of_lookup_imap in Hl as (k & row & -> & _).
    apply row_line_one_line. }
  destruct (header_line_layout H ltac:(lia)) as [Hlen Hmarks].
  split; [done|]. split; [done|]. split; [by rewrite length_imap|].
  intros x row Hx. exists (row_line (Z.of_nat x) row).
  split; [by rewrite list_lookup_imap, Hx|].
  apply row_line_layout.
  - apply lookup_lt_Some in Hx. lia.
  - rewrite Forall_lookup in Hrows. by eapply Hrows.
  - rewrite Forall_lookup in Hcells. by eapply Hcells.
Qed.

Lemma printWorld_layout_witness :
  rect 2 6 [[1; 2; 3; 4; 5; 6]; [7; 8; 9; 10; 11; -12]]
  /\ 1 <= 2 <= 10000 /\ 6 <= 10000
  /\ Forall (Forall (fun v => -99 <= v <= 999))
       [[1; 2; 3; 4; 5; 6]; [7; 8; 9; 10; 11; -12]]
  /\ exists header body,
       printWorld [[1; 2; 3; 4; 5; 6]; [7; 8; 9; 10; 11; -12]]
       = (Ret tt, unlines (header :: body ++ [text "X"]))
       /\ Z.of_nat (length header) = 5 + 15 * (6 / 5)
       /\ exists l, body !! 1%nat = Some l
            /\ Z.of_nat (length l) = 4 + 3 * 6
            /\ field (4 + 3 * 5) 3 l = ljust (str (-12)) 3 " ".
Proof.
  assert (Hr : rect 2 6 [[1; 2; 3; 4; 5; 6]; [7; 8; 9; 10; 11; -12]]).
  { split; [reflexivity|]. repeat constructor. }
  assert (Hc : Forall (Forall (fun v => -99 <= v <= 999))
                 [[1; 2; 3; 4; 5; 6]; [7; 8; 9; 10; 11; -12]]).
  { repeat constructor; lia. }
  split; [exact Hr|]. split; [lia|]. split; [lia|]. split; [exact Hc|].
  destruct (printWorld_layout 2 6 [[1; 2; 3; 4; 5; 6]; [7; 8; 9; 10; 11; -12]]
              Hr ltac:(lia) ltac:(lia) Hc)
    as (header & body & Hrun & _ & _ & Hlen & _ & _ & Hrows).
  exists header, body. split; [exact Hrun|]. split; [exact Hlen|].
  destruct (Hrows 1%nat [7; 8; 9; 10; 11; -12] eq_refl) as (l & Hl & Hll & _ & Hcells).
  exists l. split; [exact Hl|]. split; [exact Hll|].
  exact (Hcells 5%nat (-12) eq_refl).
Defined.

(** ** Printing the result of a run *)

Lemma randAugDS_returns_rect (seed_source : Z -> RandomSource) (seed : Z)
    (W H : Z) (st : state) :
  2 <= W -> 2 <= H -> rect W H (world_map st) ->
  exists g' st',
    randAugDS seed_source seed st = (Ret g', st')
    /\ world_map st' = g' /\ rect W H g'.
Proof.
  intros HW HH Hg. destruct st as [g rng]. simpl in Hg.
  set (s := seed_source seed). set (m := Z.max (W - 1) (H - 1)).
  assert (Hm : 0 <= m) by lia.
  unfold randAugDS. cbv zeta.
  rewrite (bind_run _ _ (mkState g rng) (mkState g s) tt) by reflexivity.
  assert (Hlw : len_world (mkState g s) = (Ret W, mkState g s)).
  { unfold len_world. simpl. by destruct Hg as [-> _]. }
  rewrite (bind_run _ _ _ _ _ Hlw).
  assert (Hlr : len_row 0 (mkState g s) = (Ret H, mkState g s)).
  { destruct (rect_row W H g 0 Hg ltac:(lia)) as (row & Hrow & Hlen).
    unfold len_row. simpl. rewrite py_get_nonneg by lia. by rewrite Hrow, Hlen. }
  rewrite (bind_run _ _ _ _ _ Hlr). fold m.
  rewrite (bind_run _ _ _ _ _ (randint_run 0 m _ Hm)). cbn [world_map random_state].
  destruct (rect_set W H g 0 0 (nth_randint s 0 0 m) Hg ltac:(lia) ltac:(lia))
    as (g1 & Hs1 & Hg1 & _).
  rewrite (bind_run _ _ _ _ _ (setitem_run _ _ _ (mkState g _) g1 Hs1)).
  cbn [world_map random_state].
  rewrite (bind_run _ _ _ _ _ (randint_run 0 m _ Hm)). cbn [world_map random_state].
  destruct (rect_set W H g1 0 (H - 1) (nth_randint s 1 0 m) Hg1 ltac:(lia) ltac:(lia))
    as (g2 & Hs2 & Hg2 & _).
  rewrite nth_randint_next.
  rewrite (bind_run _ _ _ _ _ (setitem_run _ _ _ (mkState g1 _) g2 Hs2)).
  cbn [world_map random_state].
  rewrite (bind_run _ _ _ _ _ (randint_run 0 m _ Hm)). cbn [world_map random_state].
  rewrite !nth_randint_next.
  destruct (rect_set W H g2 (W - 1) 0 (nth_randint s 2 0 m) Hg2 ltac:(lia) ltac:(lia))
    as (g3 & Hs3 & Hg3 & _).
  rewrite (bind_run _ _ _ _ _ (setitem_run _ _ _ (mkState g2 _) g3 Hs3)).
  cbn [world_map random_state].
  rewrite (bind_run _ _ _ _ _ (randint_run 0 m _ Hm)). cbn [world_map random_state].
  rewrite !nth_randint_next.
  destruct (rect_set W H g3 (W - 1) (H - 1) (nth_randint s 3 0 m) Hg3
              ltac:(lia) ltac:(lia))
    as (g4 & Hs4 & Hg4 & _).
  rewrite (bind_run _ _ _ _ _ (setitem_run _ _ _ (mkState g3 _) g4 Hs4)).
  cbn [world_map random_state].
  match goal with
  | |- context [bind _ _ ?st] => set (st4 := st)
  end.
  assert (Hk4 : keeps_corners W H g4 st4) by (by split).
  destruct (safe_auxRandAugDS W H g4 (enough_fuel 0 0 (W - 1) (H - 1))
              0 0 (W - 1) (H - 1) ltac:(lia) ltac:(lia) ltac:(lia) ltac:(lia)
              ltac:(unfold enough_fuel; lia) st4 Hk4)
    as ([] & st5 & Hrun5 & Hk5 & _).
  rewrite (bind_run _ _ _ _ _ Hrun5).
  destruct (safe_edgeCleanup W H g4 HW HH st5 Hk5) as ([] & st6 & Hrun6 & Hk6 & _).
  rewrite (bind_run _ _ _ _ _ Hrun6).
  destruct Hk6 as [Hg6 _].
  by exists (world_map st6), st6.
Qed.

(** Printing what a run returns, as the usage example does.  On a
    rectangular grid of at least two rows and two columns whose heights
    are at most 2^52 in absolute value, whatever the seed, the run
    returns the grid it has filled and [printWorld] of that grid does not
    fail: it prints a header line, one line for each of the [W] rows and
    the line [X]. *)
Theorem printWorld_after_randAugDS (seed_source : Z -> RandomSource) (seed : Z)
    (W H : Z) (st : state) :
  2 <= W -> 2 <= H -> rect W H (world_map st) ->
  heights_below (2 ^ 52) (world_map st) ->
  exists g' st' header body,
    randAugDS seed_source seed st = (Ret g', st')
    /\ world_map st' = g'
    /\ printWorld g' = (Ret tt, unlines (header :: body ++ [text "X"]))
    /\ Z.of_nat (length body) = W
    /\ one_line header /\ Forall one_line body.
Proof.
  intros HW HH Hg _.
  destruct (randAugDS_returns_rect seed_source seed W H st HW HH Hg)
    as (g' & st' & Hrun & Hw & Hg').
  destruct (rect_row W H g' 0 Hg' ltac:(lia)) as (row0 & Hrow0 & _).
  exists g', st', (header_line (Z.of_nat (length row0))),
    (imap (fun k row => row_line (Z.of_nat k) row) g').
  split; [done|]. split; [done|].
  split; [by apply printWorld_text|].
  split; [rewrite length_imap; by destruct Hg' as [-> _]|].
  split; [apply header_line_one_line|].
  apply Forall_forall. intros l Hl.
  apply elem_of_lookup_imap in Hl as (k & row & -> & _).
  apply row_line_one_line.
Qed.

Lemma printWorld_after_randAugDS_witness :
  2 <= 3 /\ 2 <= 4 /\ rect 3 4 (zeros 3 4)
  /\ heights_below (2 ^ 52) (zeros 3 4)
  /\ exists g' st' header body,
       randAugDS (replay [5; 1; 2; 3]) 2 (mkState (zeros 3 4) (replay [] 0))
       = (Ret g', st')
       /\ printWorld g' = (Ret tt, unlines (header :: body ++ [text "X"]))
       /\ Z.of_nat (length body) = 3.
Proof.
  assert (Hr : rect 3 4 (zeros 3 4)).
  { split; [reflexivity|]. repeat constructor. }
  assert (Hh : heights_below (2 ^ 52) (zeros 3 4)).
  { repeat constructor; vm_compute; discriminate. }
  split; [lia|]. split; [lia|]. split; [exact Hr|]. split; [exact Hh|].
  destruct (printWorld_after_randAugDS (replay [5; 1; 2; 3]) 2 3 4
              (mkState (zeros 3 4) (replay [] 0)) ltac:(lia) ltac:(lia) Hr Hh)
    as (g' & st' & header & body & Hrun & _ & Hprint & Hlen & _).
  exists g', st', header, body.
  split; [exact Hrun|]. split; [exact Hprint | exact Hlen].
Defined.
